(** * KarpeSlop detection engine: a shallow embedding of [ai-slop-detector.ts]

    Definitions come first: JavaScript string primitives, the
    backtracking regular-expression matcher the rules run on, the data
    model and the rule registry, the two scope heuristics, the per-file
    analysis, consolidation, scoring, configuration validation and
    loading, and the run itself: file discovery, the report, its export
    and the exit code.  The notions used by the statements and the
    theorems follow.

    Text is a [string] of 8-bit code units (the Latin-1 range of
    JavaScript's UTF-16 code units); every token and pattern of the
    detector is ASCII.  Line and column numbers are [nat]; the source's
    [-1] sentinels are [None]. *)

From Stdlib Require Import String Ascii List Bool Arith ZArith Lia.
From Stdlib Require Import Numbers.DecimalString.
From Stdlib Require Import Sorting.Permutation.
Import ListNotations.
Open Scope string_scope.
Open Scope list_scope.
Open Scope nat_scope.

Set Warnings "-register-all".

(** ** JavaScript string primitives *)

Module JsString.

(** [s.startsWith(p)] *)
Fixpoint startsWith (s p : string) : bool :=
  match p, s with
  | EmptyString, _ => true
  | String a p', String b s' => Ascii.eqb a b && startsWith s' p'
  | String _ _, EmptyString => false
  end.

(** [s.includes(p)] *)
Fixpoint includes (s p : string) : bool :=
  startsWith s p ||
  match s with
  | EmptyString => false
  | String _ s' => includes s' p
  end.

(** White space and line terminators below U+0100: the members of [\s],
    which are also what [trim] strips. *)
Definition isWhiteSpace (c : ascii) : bool :=
  let n := nat_of_ascii c in
  ((9 <=? n) && (n <=? 13)) || (n =? 32) || (n =? 160).

Fixpoint trimStart (s : string) : string :=
  match s with
  | EmptyString => EmptyString
  | String c s' => if isWhiteSpace c then trimStart s' else s
  end.

(** [trimEnd] keeps a character when it is not white space or when
    something other than white space follows it. *)
Fixpoint trimEnd (s : string) : string :=
  match s with
  | EmptyString => EmptyString
  | String c s' =>
      match trimEnd s' with
      | EmptyString => if isWhiteSpace c then EmptyString else String c EmptyString
      | t => String c t
      end
  end.

(** [s.trim()] *)
Definition trim (s : string) : string := trimEnd (trimStart s).

(** [s.endsWith(p)] *)
Definition endsWith (s p : string) : bool :=
  let n := String.length s in
  let k := String.length p in
  (k <=? n) && String.eqb (substring (n - k) k s) p.

Definition lowerChar (c : ascii) : ascii :=
  let n := nat_of_ascii c in
  if ((65 <=? n) && (n <=? 90)) ||
     ((192 <=? n) && (n <=? 222) && negb (n =? 215))
  then ascii_of_nat (n + 32) else c.

(** [s.toLowerCase()] *)
Fixpoint toLowerCase (s : string) : string :=
  match s with
  | EmptyString => EmptyString
  | String c s' => String (lowerChar c) (toLowerCase s')
  end.

(** [s.split('\n')]: always at least one piece. *)
Fixpoint splitLines (s : string) : list string :=
  match s with
  | EmptyString => [EmptyString]
  | String c s' =>
      if Ascii.eqb c "010"%char then EmptyString :: splitLines s'
      else match splitLines s' with
           | l :: ls => String c l :: ls
           | [] => [String c EmptyString]
           end
  end.

(** Decimal rendering of a number inside a template literal. *)
Definition ofNat (n : nat) : string := NilEmpty.string_of_uint (Nat.to_uint n).

(** [parts.join(sep)] *)
Fixpoint join (sep : string) (parts : list string) : string :=
  match parts with
  | [] => EmptyString
  | [p] => p
  | p :: ps => (p ++ sep ++ join sep ps)%string
  end.

(** [lines[i]] for an index inside the array. *)
Definition line_at (lines : list string) (i : nat) : string := nth i lines EmptyString.

End JsString.

Import JsString.

(** ** Regular expressions

    The rules are JavaScript [RegExp] objects.  The matcher below is the
    backtracking matcher of the ECMAScript specification, written in the
    same continuation-passing form: a matcher takes a state and a
    continuation and returns the first successful final state in priority
    order.  It covers the syntax the detector's patterns use. *)

Module RegExp.

Inductive ClassAtom : Type :=
| CChar (c : ascii)
| CRange (lo hi : ascii)
| CDigit
| CWord
| CSpace
| CNotSpace.

Inductive regex : Type :=
| Empty
| Char (c : ascii)
| Dot
| Class (negated : bool) (atoms : list ClassAtom)
| WordBoundary
| BackRef (n : nat)
| Group (n : nat) (r : regex)
| Seq (r1 r2 : regex)
| Alt (r1 r2 : regex)
| Quant (r : regex) (min : nat) (max : option nat) (greedy : bool).

(** A compiled pattern: its source and the [i] flag.  Every pattern of the
    detector carries the [g] flag. *)
Record RegExp : Type := mkRegExp { source : regex; ignoreCase : bool }.

(** Matcher state: the character before the current position (for [\b]),
    the input still ahead, the current index and the captures so far. *)
Record MState : Type := mkState {
  prev : option ascii;
  rest : list ascii;
  endIndex : nat;
  captures : list (nat * list ascii)
}.

Definition Cont : Type := MState -> option MState.

(** Canonicalize of the specification under the [i] flag: the upper-case
    form of a code unit when that form is one code unit of the same
    range. *)
Definition upperChar (c : ascii) : ascii :=
  let n := nat_of_ascii c in
  if ((97 <=? n) && (n <=? 122)) ||
     ((224 <=? n) && (n <=? 254) && negb (n =? 247))
  then ascii_of_nat (n - 32) else c.

Definition canonicalize (ic : bool) (c : ascii) : ascii :=
  if ic then upperChar c else c.

Definition isDigit (c : ascii) : bool :=
  let n := nat_of_ascii c in (48 <=? n) && (n <=? 57).

Definition isWordChar (c : ascii) : bool :=
  let n := nat_of_ascii c in
  ((97 <=? n) && (n <=? 122)) || ((65 <=? n) && (n <=? 90)) ||
  ((48 <=? n) && (n <=? 57)) || (n =? 95).

Definition isLineTerminator (c : ascii) : bool :=
  let n := nat_of_ascii c in (n =? 10) || (n =? 13).

(** The code units from [lo] up to [hi]. *)
Definition rangeChars (lo hi : ascii) : list ascii :=
  map (fun k => ascii_of_nat (nat_of_ascii lo + k))
      (seq 0 (S (nat_of_ascii hi) - nat_of_ascii lo)).

Definition atomMatches (ic : bool) (a : ClassAtom) (ch : ascii) : bool :=
  match a with
  | CChar c => Ascii.eqb (canonicalize ic c) (canonicalize ic ch)
  | CRange lo hi =>
      existsb (fun c => Ascii.eqb (canonicalize ic c) (canonicalize ic ch))
              (rangeChars lo hi)
  | CDigit => isDigit ch
  | CWord => isWordChar ch
  | CSpace => isWhiteSpace ch
  | CNotSpace => negb (isWhiteSpace ch)
  end.

Definition classMatches (ic negated : bool) (atoms : list ClassAtom) (ch : ascii) : bool :=
  xorb negated (existsb (fun a => atomMatches ic a ch) atoms).

(** Step over one character. *)
Definition advance (x : MState) (ch : ascii) (tl : list ascii) : MState :=
  mkState (Some ch) tl (S (endIndex x)) (captures x).

(** One-character matcher. *)
Definition charMatcher (p : ascii -> bool) (x : MState) (c : Cont) : option MState :=
  match rest x with
  | ch :: tl => if p ch then c (advance x ch tl) else None
  | [] => None
  end.

Fixpoint lookupCapture (n : nat) (caps : list (nat * list ascii)) : option (list ascii) :=
  match caps with
  | [] => None
  | (k, s) :: caps' => if k =? n then Some s else lookupCapture n caps'
  end.

Definition setCapture (n : nat) (s : list ascii) (x : MState) : MState :=
  mkState (prev x) (rest x) (endIndex x)
          ((n, s) :: filter (fun e => negb (fst e =? n)) (captures x)).

(** The capture groups inside a pattern; a quantifier resets them at the
    start of every iteration. *)
Fixpoint groupsOf (r : regex) : list nat :=
  match r with
  | Group n r' => n :: groupsOf r'
  | Seq r1 r2 | Alt r1 r2 => groupsOf r1 ++ groupsOf r2
  | Quant r' _ _ _ => groupsOf r'
  | _ => []
  end.

Definition clearCaptures (gs : list nat) (x : MState) : MState :=
  mkState (prev x) (rest x) (endIndex x)
          (filter (fun e => negb (existsb (Nat.eqb (fst e)) gs)) (captures x)).

(** Match the captured text [s] again at the current position. *)
Fixpoint backrefMatcher (ic : bool) (s : list ascii) (x : MState) (c : Cont) : option MState :=
  match s with
  | [] => c x
  | a :: s' =>
      match rest x with
      | ch :: tl =>
          if Ascii.eqb (canonicalize ic a) (canonicalize ic ch)
          then backrefMatcher ic s' (advance x ch tl) c
          else None
      | [] => None
      end
  end.

Definition isWordAt (o : option ascii) : bool :=
  match o with Some ch => isWordChar ch | None => false end.

Definition maxIsZero (mx : option nat) : bool :=
  match mx with Some 0 => true | _ => false end.

(** The specification's RepeatMatcher for a body matcher [m]: at most
    [mx] and at least [mn] rounds of [m], then the continuation [c].  A
    round that matches the empty string once the minimum is reached
    fails, so the rounds are bounded by the minimum plus the input still
    ahead; [fuel] counts them down. *)
Fixpoint repeatMatcher (m : MState -> Cont -> option MState) (groups : list nat)
         (greedy : bool) (c : Cont) (fuel mn : nat) (mx : option nat) (x : MState)
  : option MState :=
  match fuel with
  | 0 => None
  | S fuel' =>
      if maxIsZero mx then c x
      else
        let d : Cont := fun y =>
          if (mn =? 0) && (endIndex y =? endIndex x) then None
          else repeatMatcher m groups greedy c fuel' (pred mn) (option_map pred mx) y in
        let xr := clearCaptures groups x in
        if negb (mn =? 0) then m xr d
        else if greedy then
          match m xr d with
          | Some z => Some z
          | None => c x
          end
        else
          match c x with
          | Some z => Some z
          | None => m xr d
          end
  end.

(** The matcher of a pattern. *)
Fixpoint matcher (ic : bool) (r : regex) (x : MState) (c : Cont) {struct r} : option MState :=
  match r with
  | Empty => c x
  | Char a => charMatcher (fun ch => Ascii.eqb (canonicalize ic a) (canonicalize ic ch)) x c
  | Dot => charMatcher (fun ch => negb (isLineTerminator ch)) x c
  | Class negated atoms => charMatcher (classMatches ic negated atoms) x c
  | WordBoundary =>
      if xorb (isWordAt (prev x)) (isWordAt (hd_error (rest x))) then c x else None
  | BackRef n =>
      match lookupCapture n (captures x) with
      | None => c x
      | Some s => backrefMatcher ic s x c
      end
  | Group n r' =>
      matcher ic r' x
        (fun y => c (setCapture n (firstn (endIndex y - endIndex x) (rest x)) y))
  | Seq r1 r2 => matcher ic r1 x (fun y => matcher ic r2 y c)
  | Alt r1 r2 =>
      match matcher ic r1 x c with
      | Some z => Some z
      | None => matcher ic r2 x c
      end
  | Quant r' mn mx greedy =>
      repeatMatcher (matcher ic r') (groupsOf r') greedy c
                    (S (mn + length (rest x))) mn mx x
  end.

(** A successful match: [m.index] and [m[0]]. *)
Record MatchResult : Type := mkMatch { index : nat; text : string }.

(** Try the pattern at the current index, then at each later one: the
    leftmost match at or after [lastIndex].  Returns the start index, the
    input from there on and the final state. *)
Fixpoint searchFrom (ic : bool) (r : regex) (p : option ascii) (inp : list ascii) (i : nat)
  : option (nat * list ascii * MState) :=
  match matcher ic r (mkState p inp i []) Some with
  | Some y => Some (i, inp, y)
  | None =>
      match inp with
      | [] => None
      | ch :: tl => searchFrom ic r (Some ch) tl (S i)
      end
  end.

Definition matchedText (start : nat) (inp : list ascii) (y : MState) : string :=
  string_of_list_ascii (firstn (endIndex y - start) inp).

(** The loop [while ((match = regex.exec(line)) !== null)] on a fresh
    global pattern, as the list of its successive results.  [exec] leaves
    [lastIndex] at the end of the match, so after an empty match the same
    match is found again for ever: [None] stands for that run, which never
    leaves the loop.  Every other match shortens the input ahead, which
    bounds the number of rounds. *)
Fixpoint execLoop (fuel : nat) (ic : bool) (r : regex) (p : option ascii) (inp : list ascii) (i : nat)
  : option (list MatchResult) :=
  match fuel with
  | 0 => None
  | S fuel' =>
      match searchFrom ic r p inp i with
      | None => Some []
      | Some (s, from, y) =>
          if endIndex y =? s then None
          else option_map (cons (mkMatch s (matchedText s from y)))
                          (execLoop fuel' ic r (prev y) (rest y) (endIndex y))
      end
  end.

Definition execAll (re : RegExp) (line : string) : option (list MatchResult) :=
  let inp := list_ascii_of_string line in
  execLoop (S (length inp)) (ignoreCase re) (source re) None inp 0.

(** [line.match(re)] for a global pattern: every match, [None] for the
    source's [null].  Here an empty match moves [lastIndex] on by one. *)
Fixpoint matchLoop (fuel : nat) (ic : bool) (r : regex) (p : option ascii) (inp : list ascii) (i : nat)
  : list string :=
  match fuel with
  | 0 => []
  | S fuel' =>
      match searchFrom ic r p inp i with
      | None => []
      | Some (s, from, y) =>
          matchedText s from y ::
          (if endIndex y =? s then
             match rest y with
             | [] => []
             | ch :: tl => matchLoop fuel' ic r (Some ch) tl (S (endIndex y))
             end
           else matchLoop fuel' ic r (prev y) (rest y) (endIndex y))
      end
  end.

Definition stringMatch (line : string) (re : RegExp) : option (list string) :=
  let inp := list_ascii_of_string line in
  match matchLoop (S (length inp)) (ignoreCase re) (source re) None inp 0 with
  | [] => None
  | ms => Some ms
  end.

(** [line.search(re)]: index of the first match, [None] for [-1]. *)
Definition stringSearch (line : string) (re : RegExp) : option nat :=
  match searchFrom (ignoreCase re) (source re) None (list_ascii_of_string line) 0 with
  | Some (s, _, _) => Some s
  | None => None
  end.

(** *** Pattern notation *)

Fixpoint lit (s : string) : regex :=
  match s with
  | EmptyString => Empty
  | String c EmptyString => Char c
  | String c s' => Seq (Char c) (lit s')
  end.

Fixpoint seqs (rs : list regex) : regex :=
  match rs with
  | [] => Empty
  | [r] => r
  | r :: rs' => Seq r (seqs rs')
  end.

Fixpoint alts (rs : list regex) : regex :=
  match rs with
  | [] => Empty
  | [r] => r
  | r :: rs' => Alt r (alts rs')
  end.

Definition star (r : regex) : regex := Quant r 0 None true.
Definition plus (r : regex) : regex := Quant r 1 None true.
Definition opt (r : regex) : regex := Quant r 0 (Some 1) true.
Definition lazyStar (r : regex) : regex := Quant r 0 None false.
Definition rep (r : regex) (lo hi : nat) : regex := Quant r lo (Some hi) true.

Definition sp : regex := Class false [CSpace].
Definition wd : regex := Class false [CWord].
Definition dg : regex := Class false [CDigit].
Definition none_of (s : string) : regex := Class true (map CChar (list_ascii_of_string s)).

End RegExp.

Import RegExp.

(** ** Data model *)

Inductive Severity : Type := critical | high | medium | low.

Definition severityName (s : Severity) : string :=
  match s with
  | critical => "critical"
  | high => "high"
  | medium => "medium"
  | low => "low"
  end.

(** [interface DetectionPattern].  The [fix] and [learnMore] texts are
    only printed by the console report and are left out. *)
Module Pattern.
Record DetectionPattern : Type := mk {
  id : string;
  pattern : RegExp;
  message : string;
  severity : Severity;
  description : string;
  skipTests : bool;
  skipMocks : bool
}.
End Pattern.
Abbreviation DetectionPattern := Pattern.DetectionPattern.

(** [interface AISlopIssue] *)
Module Issue.
Record AISlopIssue : Type := mk {
  type : string;
  file : string;
  line : nat;
  column : nat;
  code : string;
  message : string;
  severity : Severity
}.
End Issue.
Abbreviation AISlopIssue := Issue.AISlopIssue.

(** [interface ConsolidatedIssue] *)
Module Consolidated.
Record ConsolidatedIssue : Type := mk {
  type : string;
  file : string;
  code : string;
  message : string;
  severity : Severity;
  location : list string
}.
End Consolidated.
Abbreviation ConsolidatedIssue := Consolidated.ConsolidatedIssue.

(** A value of the scoring loop: a number, or the string that [+] makes
    once an operand is a member of [Object.prototype].  The string reads
    [before], then the text of the member named [key], then [after]. *)
Inductive JsValue : Type :=
| Num (n : nat)
| Joined (before key after : string).

(** [interface SlopScoreBreakdown].  The fields are declared as numbers;
    at run time each holds what the scoring loop has left in it. *)
Record SlopScoreBreakdown : Type := mkScore {
  informationUtility : JsValue;
  informationQuality : JsValue;
  style : JsValue;
  total : JsValue
}.

(** ** The built-in rules

    Each rule is given with the source text of its pattern; the message
    and description texts are carried byte for byte. *)

Definition dquote : ascii := "034"%char.
Definition quote : regex := Class false [CChar "'"%char; CChar dquote].
Definition notQuote : regex := Class true [CChar "'"%char; CChar dquote].
Definition quoted : regex := seqs [quote; plus notQuote; quote].
Definition anyQuote : regex := Class false [CChar dquote; CChar "'"%char; CChar "`"%char].
Definition upperLetter : regex := Class false [CRange "A"%char "Z"%char].

(** [/const\s+(\w+)\s*=\s*\1\s*;?\s*\/\/.?(?:set|assign|store)\s+\1\b/gi] *)
Definition redundant_self_explanatory_comment : DetectionPattern :=
  {| Pattern.id := "redundant_self_explanatory_comment";
     Pattern.pattern := mkRegExp
       (seqs [lit "const"; plus sp; Group 1 (plus wd); star sp; lit "="; star sp; BackRef 1;
          star sp; opt (lit ";"); star sp; lit "//"; opt Dot;
          alts [lit "set"; lit "assign"; lit "store"]; plus sp; BackRef 1; WordBoundary]) true;
     Pattern.message := "Redundant comment explaining variable assignment to itself â€” peak AI slop";
     Pattern.severity := high;
     Pattern.description := "e.g., const count = count; // assign count to count";
     Pattern.skipTests := false;
     Pattern.skipMocks := false |}.

(** [/\/\/\s*This (?:function|component|hook|variable|method).* (?:does|is|handles?|returns?|takes?|processes?)/gi] *)
Definition excessive_boilerplate_comment : DetectionPattern :=
  {| Pattern.id := "excessive_boilerplate_comment";
     Pattern.pattern := mkRegExp
       (seqs [lit "//"; star sp; lit "This ";
          alts [lit "function"; lit "component"; lit "hook"; lit "variable"; lit "method"];
          star Dot; lit " ";
          alts [lit "does"; lit "is"; Seq (lit "handle") (opt (lit "s"));
                Seq (lit "return") (opt (lit "s")); Seq (lit "take") (opt (lit "s"));
                Seq (lit "processe") (opt (lit "s"))]]) true;
     Pattern.message := "Boilerplate comment that restates the obvious â€” adds zero insight";
     Pattern.severity := medium;
     Pattern.description := "AI-generated comments that explain the obvious";
     Pattern.skipTests := false;
     Pattern.skipMocks := false |}.

(** [/console\.(log|debug|info)\([^)]+\)\s*;\s*\/\/\s*(?:debug|temp|test|check|log|print)/gi] *)
Definition debug_log_with_comment : DetectionPattern :=
  {| Pattern.id := "debug_log_with_comment";
     Pattern.pattern := mkRegExp
       (seqs [lit "console."; Group 1 (alts [lit "log"; lit "debug"; lit "info"]); lit "(";
          plus (none_of ")"); lit ")"; star sp; lit ";"; star sp; lit "//"; star sp;
          alts [lit "debug"; lit "temp"; lit "test"; lit "check"; lit "log"; lit "print"]]) true;
     Pattern.message := "Debug log with apologetic comment â€” AI trying to justify its existence";
     Pattern.severity := medium;
     Pattern.description := "Debugging code that should not be in production";
     Pattern.skipTests := true;
     Pattern.skipMocks := false |}.

(** [/import\s*{\s*(useRouter|useParams|useSearchParams|Link|Image|Script)\s*}\s*from\s*['\x22]react['\x22]/gi] *)
Definition hallucinated_react_import : DetectionPattern :=
  {| Pattern.id := "hallucinated_react_import";
     Pattern.pattern := mkRegExp
       (seqs [lit "import"; star sp; lit "{"; star sp;
          Group 1 (alts [lit "useRouter"; lit "useParams"; lit "useSearchParams";
                         lit "Link"; lit "Image"; lit "Script"]);
          star sp; lit "}"; star sp; lit "from"; star sp; quote; lit "react"; quote]) true;
     Pattern.message := "Hallucinated React import â€” these do NOT exist in 'react'";
     Pattern.severity := critical;
     Pattern.description := "React-specific APIs are NOT in the react package";
     Pattern.skipTests := false;
     Pattern.skipMocks := false |}.

(** [/import\s*{\s*(getServerSideProps|getStaticProps|getStaticPaths)\s*}\s*from\s*['\x22]react['\x22]/gi] *)
Definition hallucinated_next_import : DetectionPattern :=
  {| Pattern.id := "hallucinated_next_import";
     Pattern.pattern := mkRegExp
       (seqs [lit "import"; star sp; lit "{"; star sp;
          Group 1 (alts [lit "getServerSideProps"; lit "getStaticProps"; lit "getStaticPaths"]);
          star sp; lit "}"; star sp; lit "from"; star sp; quote; lit "react"; quote]) true;
     Pattern.message := "Next.js API imported from 'react' â€” 100% AI hallucination";
     Pattern.severity := critical;
     Pattern.description := "Next.js APIs are NOT in the react package";
     Pattern.skipTests := false;
     Pattern.skipMocks := false |}.

(** [/\/\/\s*(?:TODO|FIXME|HACK).*(?:implement|add|finish|complete|your code|logic|here)/gi] *)
Definition todo_implementation_placeholder : DetectionPattern :=
  {| Pattern.id := "todo_implementation_placeholder";
     Pattern.pattern := mkRegExp
       (seqs [lit "//"; star sp; alts [lit "TODO"; lit "FIXME"; lit "HACK"]; star Dot;
          alts [lit "implement"; lit "add"; lit "finish"; lit "complete"; lit "your code";
                lit "logic"; lit "here"]]) true;
     Pattern.message := "AI gave up and wrote a TODO instead of thinking";
     Pattern.severity := high;
     Pattern.description := "Placeholder comments where AI failed to implement";
     Pattern.skipTests := false;
     Pattern.skipMocks := false |}.

(** [/\b(assuming|assumes?|presumably|apparently|it seems|seems like)\b.{0,50}\b(that|this|the|it)\b/gi] *)
Definition assumption_comment : DetectionPattern :=
  {| Pattern.id := "assumption_comment";
     Pattern.pattern := mkRegExp
       (seqs [WordBoundary;
          Group 1 (alts [lit "assuming"; Seq (lit "assume") (opt (lit "s")); lit "presumably";
                         lit "apparently"; lit "it seems"; lit "seems like"]);
          WordBoundary; rep Dot 0 50; WordBoundary;
          Group 2 (alts [lit "that"; lit "this"; lit "the"; lit "it"]); WordBoundary]) true;
     Pattern.message := "AI making unverified assumptions â€” dangerous in production";
     Pattern.severity := high;
     Pattern.description := "Comments indicating unverified assumptions";
     Pattern.skipTests := false;
     Pattern.skipMocks := false |}.

(** [/\/\/\s*(obviously|clearly|simply|just|easy|trivial|basically|literally|of course|naturally|certainly|surely)\b/gi] *)
Definition overconfident_comment : DetectionPattern :=
  {| Pattern.id := "overconfident_comment";
     Pattern.pattern := mkRegExp
       (seqs [lit "//"; star sp;
          Group 1 (alts [lit "obviously"; lit "clearly"; lit "simply"; lit "just"; lit "easy";
                         lit "trivial"; lit "basically"; lit "literally"; lit "of course";
                         lit "naturally"; lit "certainly"; lit "surely"]);
          WordBoundary]) true;
     Pattern.message := "Overconfident comment â€” AI pretending it understands when it doesn't";
     Pattern.severity := high;
     Pattern.description := "Overconfident language indicating false certainty";
     Pattern.skipTests := false;
     Pattern.skipMocks := false |}.

(** [/\/\/.*\b(should work|hopefully|probably|might work|try this|i think|seems to|attempting to|looks like|appears to)\b/gi] *)
Definition hedging_uncertainty_comment : DetectionPattern :=
  {| Pattern.id := "hedging_uncertainty_comment";
     Pattern.pattern := mkRegExp
       (seqs [lit "//"; star Dot; WordBoundary;
          Group 1 (alts [lit "should work"; lit "hopefully"; lit "probably"; lit "might work";
                         lit "try this"; lit "i think"; lit "seems to"; lit "attempting to";
                         lit "looks like"; lit "appears to"]);
          WordBoundary]) true;
     Pattern.message := "AI hedging its bets â€” classic sign of low-confidence generation";
     Pattern.severity := high;
     Pattern.description := "Uncertain language masked as implementation";
     Pattern.skipTests := false;
     Pattern.skipMocks := false |}.

(** [/\bconst\s+\w+\s*=\s*\(\s*async\s*\(\)\s*=>\s*\{[\s\S]*?\}\)\(\)/g] *)
Definition unnecessary_iife_wrapper : DetectionPattern :=
  {| Pattern.id := "unnecessary_iife_wrapper";
     Pattern.pattern := mkRegExp
       (seqs [WordBoundary; lit "const"; plus sp; plus wd; star sp; lit "="; star sp; lit "(";
          star sp; lit "async"; star sp; lit "()"; star sp; lit "=>"; star sp; lit "{";
          lazyStar (Class false [CSpace; CNotSpace]); lit "})()"]) false;
     Pattern.message := "Unnecessary IIFE wrapper â€” AI over-engineering a simple async call";
     Pattern.severity := medium;
     Pattern.description := "Unnecessarily complex function wrapping";
     Pattern.skipTests := false;
     Pattern.skipMocks := false |}.

(** [/\?\s*['\x22][^'\x22]+['\x22]\s*:\s*['\x22][^'\x22]+['\x22]\s*\?\s*['\x22][^'\x22]+['\x22]\s*:\s*['\x22][^'\x22]+['\x22]/g] *)
Definition vibe_coded_ternary_abuse : DetectionPattern :=
  {| Pattern.id := "vibe_coded_ternary_abuse";
     Pattern.pattern := mkRegExp
       (seqs [lit "?"; star sp; quoted; star sp; lit ":"; star sp; quoted; star sp;
          lit "?"; star sp; quoted; star sp; lit ":"; star sp; quoted]) false;
     Pattern.message := "Nested ternary hell â€” AI trying to look clever";
     Pattern.severity := medium;
     Pattern.description := "Overly complex nested ternary operations";
     Pattern.skipTests := false;
     Pattern.skipMocks := false |}.

(** [/\b(\d{3,4}px|#\w{6}|rgba?\([^)]+\)|hsl\(\d+)/g] *)
Definition magic_css_value : DetectionPattern :=
  {| Pattern.id := "magic_css_value";
     Pattern.pattern := mkRegExp
       (seqs [WordBoundary;
          Group 1 (alts [Seq (rep dg 3 4) (lit "px");
                         Seq (lit "#") (rep wd 6 6);
                         seqs [lit "rgb"; opt (lit "a"); lit "("; plus (none_of ")"); lit ")"];
                         Seq (lit "hsl(") (plus dg)])]) false;
     Pattern.message := "Magic CSS value â€” extract to design token or const";
     Pattern.severity := low;
     Pattern.description := "Hardcoded CSS values that should be constants";
     Pattern.skipTests := false;
     Pattern.skipMocks := false |}.

(** [/useEffect\s*\(\s*\(\s*\)\s*=>\s*\{[^}]*set[A-Z]\w*\([^)]*\)/g] *)
Definition useEffect_derived_state : DetectionPattern :=
  {| Pattern.id := "useEffect_derived_state";
     Pattern.pattern := mkRegExp
       (seqs [lit "useEffect"; star sp; lit "("; star sp; lit "("; star sp; lit ")"; star sp;
          lit "=>"; star sp; lit "{"; star (none_of "}"); lit "set"; upperLetter; star wd;
          lit "("; star (none_of ")"); lit ")"]) false;
     Pattern.message := "useEffect setting state from props/other state â€” consider useMemo or compute in render";
     Pattern.severity := high;
     Pattern.description := "Using useEffect to derive state is often unnecessary";
     Pattern.skipTests := false;
     Pattern.skipMocks := false |}.

(** [/useEffect\s*\([^,]+,\s*\[\s*\]\s*\)/g] *)
Definition useEffect_empty_deps_suspicious : DetectionPattern :=
  {| Pattern.id := "useEffect_empty_deps_suspicious";
     Pattern.pattern := mkRegExp
       (seqs [lit "useEffect"; star sp; lit "("; plus (none_of ","); lit ","; star sp;
          lit "["; star sp; lit "]"; star sp; lit ")"]) false;
     Pattern.message := "useEffect with empty deps â€” verify this truly should only run on mount";
     Pattern.severity := medium;
     Pattern.description := "Empty dependency arrays are often a sign of missing dependencies";
     Pattern.skipTests := false;
     Pattern.skipMocks := false |}.

(** [/(?:for|while|forEach|map)\s*\([^)]+\)[^{]*\{[^}]*set[A-Z]\w*\(/g] *)
Definition setState_in_loop : DetectionPattern :=
  {| Pattern.id := "setState_in_loop";
     Pattern.pattern := mkRegExp
       (seqs [alts [lit "for"; lit "while"; lit "forEach"; lit "map"]; star sp; lit "(";
          plus (none_of ")"); lit ")"; star (none_of "{"); lit "{"; star (none_of "}");
          lit "set"; upperLetter; star wd; lit "("]) false;
     Pattern.message := "setState inside a loop â€” may cause multiple re-renders";
     Pattern.severity := high;
     Pattern.description := "Calling setState in a loop triggers multiple re-renders";
     Pattern.skipTests := false;
     Pattern.skipMocks := false |}.

(** [/useCallback\s*\([^,]+,\s*\[\s*\]\s*\)/g] *)
Definition useCallback_no_deps : DetectionPattern :=
  {| Pattern.id := "useCallback_no_deps";
     Pattern.pattern := mkRegExp
       (seqs [lit "useCallback"; star sp; lit "("; plus (none_of ","); lit ","; star sp;
          lit "["; star sp; lit "]"; star sp; lit ")"]) false;
     Pattern.message := "useCallback with empty deps â€” the callback never updates";
     Pattern.severity := medium;
     Pattern.description := "Empty deps means the callback is stale and may use outdated values";
     Pattern.skipTests := false;
     Pattern.skipMocks := false |}.

(** [/:\s*any\b/g] *)
Definition any_type_usage : DetectionPattern :=
  {| Pattern.id := "any_type_usage";
     Pattern.pattern := mkRegExp
       (seqs [lit ":"; star sp; lit "any"; WordBoundary]) false;
     Pattern.message := "Found 'any' type usage. Replace with specific type or unknown.";
     Pattern.severity := high;
     Pattern.description := "Detects : any type annotations";
     Pattern.skipTests := false;
     Pattern.skipMocks := false |}.

(** [/Array\s*<\s*any\s*>/g] *)
Definition array_any_type : DetectionPattern :=
  {| Pattern.id := "array_any_type";
     Pattern.pattern := mkRegExp
       (seqs [lit "Array"; star sp; lit "<"; star sp; lit "any"; star sp; lit ">"]) false;
     Pattern.message := "Found Array<any> type usage. Replace with specific type or unknown[].";
     Pattern.severity := high;
     Pattern.description := "Detects Array<any> patterns";
     Pattern.skipTests := false;
     Pattern.skipMocks := false |}.

(** [/<\s*any\s*>/g] *)
Definition generic_any_type : DetectionPattern :=
  {| Pattern.id := "generic_any_type";
     Pattern.pattern := mkRegExp
       (seqs [lit "<"; star sp; lit "any"; star sp; lit ">"]) false;
     Pattern.message := "Found generic <any> type usage. Replace with specific type or unknown.";
     Pattern.severity := high;
     Pattern.description := "Detects generic type parameters with any";
     Pattern.skipTests := false;
     Pattern.skipMocks := false |}.

(** [/\(\s*.*\s*:\s*any\s*\)/g] *)
Definition function_param_any_type : DetectionPattern :=
  {| Pattern.id := "function_param_any_type";
     Pattern.pattern := mkRegExp
       (seqs [lit "("; star sp; star Dot; star sp; lit ":"; star sp; lit "any"; star sp; lit ")"]) false;
     Pattern.message := "Found function parameter with 'any' type. Replace with specific type or unknown.";
     Pattern.severity := high;
     Pattern.description := "Detects function parameters with any type";
     Pattern.skipTests := false;
     Pattern.skipMocks := false |}.

(** [/\s+as\s+any\b/g] *)
Definition unsafe_type_assertion : DetectionPattern :=
  {| Pattern.id := "unsafe_type_assertion";
     Pattern.pattern := mkRegExp
       (seqs [plus sp; lit "as"; plus sp; lit "any"; WordBoundary]) false;
     Pattern.message := "Found unsafe 'as any' type assertion. Use proper type guards or validation.";
     Pattern.severity := high;
     Pattern.description := "Detects unsafe as any assertions";
     Pattern.skipTests := false;
     Pattern.skipMocks := false |}.

(** [/as\s+\w+\s+as\s+\w+/g] *)
Definition unsafe_double_type_assertion : DetectionPattern :=
  {| Pattern.id := "unsafe_double_type_assertion";
     Pattern.pattern := mkRegExp
       (seqs [lit "as"; plus sp; plus wd; plus sp; lit "as"; plus sp; plus wd]) false;
     Pattern.message := "Found unsafe double type assertion. Consider using 'as unknown as Type' for safe conversions.";
     Pattern.severity := high;
     Pattern.description := "Detects unsafe double type assertions";
     Pattern.skipTests := false;
     Pattern.skipMocks := false |}.

(** [/\[\s*[\x22'`]?(\w+)[\x22'`]?[^\]]*\]\s*:\s*any/g] *)
Definition index_signature_any : DetectionPattern :=
  {| Pattern.id := "index_signature_any";
     Pattern.pattern := mkRegExp
       (seqs [lit "["; star sp; opt anyQuote; Group 1 (plus wd); opt anyQuote;
          star (none_of "]"); lit "]"; star sp; lit ":"; star sp; lit "any"]) false;
     Pattern.message := "Found index signature with 'any' type. Replace with specific type or unknown.";
     Pattern.severity := high;
     Pattern.description := "Detects index signatures with any type";
     Pattern.skipTests := false;
     Pattern.skipMocks := false |}.

(** [/(fetch|axios|http)\s*\(/g] *)
Definition missing_error_handling : DetectionPattern :=
  {| Pattern.id := "missing_error_handling";
     Pattern.pattern := mkRegExp
       (seqs [Group 1 (alts [lit "fetch"; lit "axios"; lit "http"]); star sp; lit "("]) false;
     Pattern.message := "Potential missing error handling for promise. Consider adding try/catch or .catch().";
     Pattern.severity := medium;
     Pattern.description := "Detects calls that might need error handling";
     Pattern.skipTests := true;
     Pattern.skipMocks := false |}.

(** [/console\.(log|warn|error|info|debug|trace)\(/g] *)
Definition production_console_log : DetectionPattern :=
  {| Pattern.id := "production_console_log";
     Pattern.pattern := mkRegExp
       (seqs [lit "console.";
          Group 1 (alts [lit "log"; lit "warn"; lit "error"; lit "info"; lit "debug"; lit "trace"]);
          lit "("]) false;
     Pattern.message := "Found console logging in production code. Remove before deployment.";
     Pattern.severity := medium;
     Pattern.description := "Detects console logs in production code";
     Pattern.skipTests := true;
     Pattern.skipMocks := true |}.

(** [/(TODO|FIXME|HACK|XXX|BUG)\b/g] *)
Definition todo_comment : DetectionPattern :=
  {| Pattern.id := "todo_comment";
     Pattern.pattern := mkRegExp
       (seqs [Group 1 (alts [lit "TODO"; lit "FIXME"; lit "HACK"; lit "XXX"; lit "BUG"]); WordBoundary]) false;
     Pattern.message := "Found TODO/FIXME/HACK comment indicating incomplete implementation.";
     Pattern.severity := medium;
     Pattern.description := "Detects incomplete implementation markers";
     Pattern.skipTests := false;
     Pattern.skipMocks := false |}.

(** [/\.\s*any\s*\[/g] *)
Definition unsafe_member_access : DetectionPattern :=
  {| Pattern.id := "unsafe_member_access";
     Pattern.pattern := mkRegExp
       (seqs [lit "."; star sp; lit "any"; star sp; lit "["]) false;
     Pattern.message := "Found potentially unsafe member access on 'any' type.";
     Pattern.severity := high;
     Pattern.description := "Detects unsafe member access patterns";
     Pattern.skipTests := false;
     Pattern.skipMocks := false |}.

(** The built-in registry, in declaration order. *)
Definition detectionPatterns : list DetectionPattern :=
  [redundant_self_explanatory_comment;
   excessive_boilerplate_comment;
   debug_log_with_comment;
   hallucinated_react_import;
   hallucinated_next_import;
   todo_implementation_placeholder;
   assumption_comment;
   overconfident_comment;
   hedging_uncertainty_comment;
   unnecessary_iife_wrapper;
   vibe_coded_ternary_abuse;
   magic_css_value;
   useEffect_derived_state;
   useEffect_empty_deps_suspicious;
   setState_in_loop;
   useCallback_no_deps;
   any_type_usage;
   array_any_type;
   generic_any_type;
   function_param_any_type;
   unsafe_type_assertion;
   unsafe_double_type_assertion;
   index_signature_any;
   missing_error_handling;
   production_console_log;
   todo_comment;
   unsafe_member_access].

(** ** Scope heuristics *)

(** *** [isFetchCallProperlyHandled] *)

Definition looksLikeFunction (line : string) : bool :=
  includes line "async function" ||
  includes line "function" ||
  includes line "=>" ||
  (includes line "const" &&
     (includes line "useState" || includes line "useEffect" ||
      includes line "useCallback" || includes line "useMemo")) ||
  includes line "export default function".

(** The two tests of one round of the backward loop: does the function
    start at line [i]? *)
Definition functionStartsAt (lines : list string) (i : nat) : bool :=
  let line := line_at lines i in
  (looksLikeFunction line && (includes line "{" || includes line "=>")) ||
  ((0 <? i) && includes (line_at lines (i - 1) ++ line) "=>" &&
   startsWith (trim line) "{").

(** [for (let i = fetchLineIndex; i >= Math.max(0, fetchLineIndex - 20); i--)],
    with [budget] the number of lines that may still be stepped back. *)
Fixpoint scanBackForFunction (lines : list string) (budget i : nat) : option nat :=
  if functionStartsAt lines i then Some i
  else match budget, i with
       | S budget', S i' => scanBackForFunction lines budget' i'
       | _, _ => None
       end.

Definition findFunctionStart (lines : list string) (fetchLineIndex : nat) : option nat :=
  scanBackForFunction lines 20 fetchLineIndex.

(** The two variables of the forward loop. *)
Record BraceState : Type := mkBrace {
  braceCount : Z;
  inFunction : bool
}.

(** The inner loop over the characters of line [i]; the result's second
    component tells that [functionEnd] was set on this line. *)
Fixpoint scanBraces (onStartLine : bool) (chars : list ascii) (st : BraceState)
  : BraceState * bool :=
  match chars with
  | [] => (st, false)
  | ch :: tl =>
      if Ascii.eqb ch "{"%char then
        let n := (braceCount st + 1)%Z in
        let inF := inFunction st || (onStartLine && (n =? 1)%Z) in
        scanBraces onStartLine tl (mkBrace n inF)
      else if Ascii.eqb ch "}"%char then
        let n := (braceCount st - 1)%Z in
        if inFunction st && (n =? 0)%Z then (mkBrace n true, true)
        else scanBraces onStartLine tl (mkBrace n (inFunction st))
      else scanBraces onStartLine tl st
  end.

Definition isStartLine (functionStart : option nat) (i : nat) : bool :=
  match functionStart with Some s => i =? s | None => false end.

(** [for (let i = ...; i < lines.length && i < fetchLineIndex + 20; i++)],
    with [n] the number of lines left to visit. *)
Fixpoint scanForwardForEnd (lines : list string) (functionStart : option nat)
         (n i : nat) (st : BraceState) : option nat :=
  match n with
  | 0 => None
  | S n' =>
      let '(st', found) :=
        scanBraces (isStartLine functionStart i)
                   (list_ascii_of_string (line_at lines i)) st in
      if found then Some i
      else scanForwardForEnd lines functionStart n' (S i) st'
  end.

Definition findFunctionEnd (lines : list string) (functionStart : option nat)
           (fetchLineIndex : nat) : option nat :=
  let start := match functionStart with Some s => s | None => 0 end in
  let stop := Nat.min (length lines) (fetchLineIndex + 20) in
  scanForwardForEnd lines functionStart (stop - start) start (mkBrace 0%Z false).

Definition hasHandlerToken (line : string) : bool :=
  includes line ".catch(" || includes line "try {" || includes line "try{".

(** The window used when no function could be bounded. *)
Definition handledNearby (lines : list string) (fetchLineIndex : nat) : bool :=
  let start := fetchLineIndex - 2 in
  let stop := Nat.min (length lines) (fetchLineIndex + 3) in
  existsb (fun i =>
             let line := line_at lines i in
             hasHandlerToken line ||
             ((0 <? i) && includes (line_at lines (i - 1)) "try" && includes line ".catch("))
          (seq start (stop - start)).

Definition backslash : string := String "092"%char EmptyString.

(** The promise-chain loop: look for [.catch(] until a line ends the
    statement. *)
Fixpoint chainHasCatch (lines : list string) (n i : nat) : bool :=
  match n with
  | 0 => false
  | S n' =>
      let line := line_at lines i in
      if includes line ".catch(" then true
      else if includes line ";" && negb (endsWith (trim line) backslash) &&
              negb (endsWith (trim line) ",")
           then false
           else chainHasCatch lines n' (S i)
  end.

Definition isFetchCallProperlyHandled (lines : list string) (fetchLineIndex fetchCallIndex : nat) : bool :=
  let functionStart := findFunctionStart lines fetchLineIndex in
  let functionEnd := findFunctionEnd lines functionStart fetchLineIndex in
  match functionStart, functionEnd with
  | Some s, Some e =>
      if existsb (fun i => hasHandlerToken (line_at lines i)) (seq s (S e - s)) then true
      else
        let currentLine := line_at lines fetchLineIndex in
        if includes currentLine "fetch(" &&
           (includes currentLine ".then(" || includes currentLine ".catch(")
        then chainHasCatch lines
               (Nat.min (length lines) (fetchLineIndex + 5) - fetchLineIndex)
               fetchLineIndex
        else false
  | _, _ => handledNearby lines fetchLineIndex
  end.

(** *** [isInTryCatchBlock] *)

Definition countMatches (line : string) (re : RegExp) : nat :=
  match stringMatch line re with
  | Some ms => length ms
  | None => 0
  end.

Definition openBraces (line : string) : nat := countMatches line (mkRegExp (lit "{") false).
Definition closeBraces (line : string) : nat := countMatches line (mkRegExp (lit "}") false).

(** [catchBlockStartLine > i] *)
Definition catchSeenAfter (catchBlockStartLine : option nat) (i : nat) : bool :=
  match catchBlockStartLine with Some c => i <? c | None => false end.

(** A [catch (] line with an opening brace on it or on one of the next
    four lines. *)
Definition catchOpensAt (lines : list string) (i : nat) : bool :=
  includes (line_at lines i) "catch (" &&
  (includes (line_at lines i) "{" ||
   existsb (fun j => includes (line_at lines j) "{")
           (seq (S i) (Nat.min (i + 5) (length lines) - S i))).

Definition tryOpensAt (lines : list string) (i : nat) : bool :=
  let line := line_at lines i in
  includes line "try {" || (includes line "try" && includes line "{").

(** The depth update of one round. *)
Definition nextDepth (tryBlockDepth : nat) (line : string) : nat :=
  let o := openBraces line in
  let c := closeBraces line in
  if c <? o then S tryBlockDepth
  else if o <? c then tryBlockDepth + o - c
  else tryBlockDepth.

(** The loop [for (let i = lineIndex; i >= 0; i--)] from round [i] on,
    with the two variables it carries. *)
Fixpoint tryCatchScan (lines : list string) (i tryBlockDepth : nat)
         (catchBlockStartLine : option nat) : bool :=
  let line := line_at lines i in
  let catchLine := if includes line "catch (" then Some i else catchBlockStartLine in
  if catchOpensAt lines i then true
  else if tryOpensAt lines i && catchSeenAfter catchLine i then true
  else
    let depth := nextDepth tryBlockDepth line in
    if (depth =? 0) && catchSeenAfter catchLine i then true
    else match i with
         | 0 => false
         | S i' => tryCatchScan lines i' depth catchLine
         end.

Definition isInTryCatchBlock (lines : list string) (lineIndex : nat) : bool :=
  tryCatchScan lines lineIndex 0 None.

(** ** Per-file analysis *)

(** *** [analyzeComplexNestedConditionals] *)

(** [/\bif\s*\(/g] and its two siblings. *)
Definition controlOpener (keyword : string) : RegExp :=
  mkRegExp (seqs [WordBoundary; lit keyword; star sp; lit "("]) false.

(** [/\S/] *)
Definition nonSpace : RegExp := mkRegExp (Class false [CNotSpace]) false.

(** Truthiness of a [match] result, and [ms && ms.length > 1]. *)
Definition found (ms : option (list string)) : bool :=
  match ms with Some _ => true | None => false end.

Definition several (ms : option (list string)) : bool :=
  match ms with Some l => 1 <? length l | None => false end.

Definition nestedInLineMessage : string :=
  "Found potentially complex nested control structures in a single line. Consider refactoring for readability.".

Definition deepIndentMessage : string :=
  "Highly indented control structure suggests deep nesting. Consider refactoring for readability.".

(** The issues the method pushes, in order. *)
Definition analyzeComplexNestedConditionals (filePath : string) (lines : list string)
           (lineIndex lineNumber : nat) (line : string) : list AISlopIssue :=
  let ifMatches := stringMatch line (controlOpener "if") in
  let forMatches := stringMatch line (controlOpener "for") in
  let whileMatches := stringMatch line (controlOpener "while") in
  (if several ifMatches || several forMatches || several whileMatches ||
      (found ifMatches && (found forMatches || found whileMatches)) ||
      (found forMatches && found whileMatches)
   then [Issue.mk "complex_nested_conditionals" filePath lineNumber 1 (trim line)
                  nestedInLineMessage medium]
   else [])
  ++
  match stringSearch line nonSpace with
  | Some indentation =>
      if (16 <=? indentation) &&
         (includes line "if (" || includes line "for (" || includes line "while (")
      then
        let trimmedLine := trim line in
        if negb (startsWith trimmedLine "//") && negb (includes trimmedLine "=>")
        then [Issue.mk "complex_nested_conditionals" filePath lineNumber (indentation + 1)
                       (trim line) deepIndentMessage medium]
        else []
      else []
  | None => []
  end.

(** *** The suppression checks of [analyzeFile]

    Each definition is one [if (...) continue] of the match loop, in the
    order of the source. *)

Definition isTestFile (filePath : string) : bool :=
  includes filePath "__tests__" ||
  includes filePath ".test." ||
  includes filePath ".spec." ||
  includes filePath "__mocks__" ||
  includes filePath "test-".

Definition isMockFile (filePath : string) : bool :=
  includes filePath "__mocks__" || includes filePath "mock".

Definition idIs (p : DetectionPattern) (name : string) : bool :=
  String.eqb (Pattern.id p) name.

Definition inTestPath (filePath : string) : bool :=
  includes filePath "test" || includes filePath "spec" || includes filePath "__tests__".

Definition anyFamily (p : DetectionPattern) : bool :=
  includes (Pattern.id p) "any" || includes (Pattern.id p) "unsafe".

Definition acknowledged (p : DetectionPattern) (line prevLine : string) : bool :=
  anyFamily p &&
  (includes line "eslint-disable" || includes line "@ts-expect-error" ||
   includes line "@ts-ignore" || includes prevLine "eslint-disable-next-line" ||
   includes prevLine "@ts-expect-error").

Definition declarationFileAny (p : DetectionPattern) (filePath : string) : bool :=
  includes (Pattern.id p) "any" && endsWith filePath ".d.ts".

Definition legitimateAnyUse (p : DetectionPattern) (line : string) : bool :=
  idIs p "any_type_usage" &&
  ((includes line "expect.any(" || includes line "jest.fn()") ||
   (includes line "{..." && includes line "as any") ||
   (includes line "JSON.parse(" || includes line ".json" || includes line "response.json") ||
   (includes line "ApiResponse" || includes line "apiResponse" ||
    includes line "res.json" || includes line "fetch" || includes line "axios") ||
   ((includes line "data: any" || includes line "(data: any)" ||
     includes line "result: any" || includes line "response: any") &&
    (includes line "parse" || includes line "process" || includes line "transform"))).

Definition legitimateParamAny (p : DetectionPattern) (line : string) : bool :=
  idIs p "function_param_any_type" &&
  ((includes line "(data: any)" &&
    (includes line "parse" || includes line "process" || includes line "transform")) ||
   (includes line "ApiResponse" || includes line "apiResponse" ||
    includes line "JSON.parse" || includes line "response: any")).

Definition handledFetch (p : DetectionPattern) (lines : list string) (i : nat) (m : MatchResult) : bool :=
  idIs p "missing_error_handling" && isFetchCallProperlyHandled lines i (index m).

Definition safeDoubleCast (p : DetectionPattern) (line : string) : bool :=
  idIs p "unsafe_double_type_assertion" && includes (trim line) "as unknown as".

Section ConsoleCheck.

(** The enclosure test the console check calls. *)
Variable inTryCatch : list string -> nat -> bool.

Definition legitimateConsoleWith (p : DetectionPattern) (lines : list string) (i : nat) : bool :=
  idIs p "production_console_log" &&
  let fullLine := trim (line_at lines i) in
  ((includes fullLine "console.error(" && inTryCatch lines i) ||
   (includes fullLine "console.log(" &&
    (includes fullLine "Debug" || includes fullLine "debug" || includes fullLine "debug:")) ||
   ((includes fullLine "console.log(" || includes fullLine "console.info(") &&
    (includes fullLine "error" || includes fullLine "Error"))).

Definition commentInTestContext (p : DetectionPattern) (filePath line : string) : bool :=
  (idIs p "hedging_uncertainty_comment" || idIs p "assumption_comment") &&
  (inTestPath filePath ||
   let fullLine := toLowerCase (trim line) in
   (includes fullLine "should work" &&
    (includes fullLine "//" || includes fullLine "/*" || includes fullLine "*/"))).

Definition assertionInTest (p : DetectionPattern) (filePath : string) : bool :=
  idIs p "unsafe_type_assertion" && inTestPath filePath.

Definition quietTestFile (p : DetectionPattern) (filePath : string) (quiet : bool) : bool :=
  quiet && negb (idIs p "production_console_log") && isTestFile filePath.

(** The body of the match loop up to the push: [true] when one of the
    checks says [continue]. *)
Definition skipMatchWith (p : DetectionPattern) (filePath : string) (quiet : bool)
           (lines : list string) (i : nat) (m : MatchResult) : bool :=
  let line := line_at lines i in
  let prevLine := if 0 <? i then line_at lines (i - 1) else EmptyString in
  acknowledged p line prevLine ||
  declarationFileAny p filePath ||
  legitimateAnyUse p line ||
  legitimateParamAny p line ||
  handledFetch p lines i m ||
  safeDoubleCast p line ||
  legitimateConsoleWith p lines i ||
  commentInTestContext p filePath line ||
  assertionInTest p filePath ||
  quietTestFile p filePath quiet.

End ConsoleCheck.

Definition skipMatch := skipMatchWith isInTryCatchBlock.

(** *** [analyzeFile] *)

(** The issue pushed for an accepted match. *)
Definition issueOf (p : DetectionPattern) (filePath : string) (lineNumber : nat) (m : MatchResult)
  : AISlopIssue :=
  Issue.mk (Pattern.id p) filePath lineNumber (index m + 1) (text m)
           (Pattern.message p ++ " (" ++ Pattern.description p ++ ")")
           (Pattern.severity p).

(** The two [continue]s at the head of the pattern loop. *)
Definition skipPattern (p : DetectionPattern) (filePath : string) : bool :=
  (Pattern.skipTests p && isTestFile filePath) ||
  (Pattern.skipMocks p && isMockFile filePath) ||
  idIs p "complex_nested_conditionals".

(** One round of the pattern loop on line [i]: the issues it pushes, or
    [None] when its match loop never ends. *)
Definition patternIssues (p : DetectionPattern) (filePath : string) (quiet : bool)
           (lines : list string) (i : nat) : option (list AISlopIssue) :=
  if skipPattern p filePath then Some []
  else
    match execAll (Pattern.pattern p) (line_at lines i) with
    | None => None
    | Some ms =>
        Some (map (issueOf p filePath (i + 1))
                  (filter (fun m => negb (skipMatch p filePath quiet lines i m)) ms))
    end.

(** Run the rounds in order and chain what they push. *)
Fixpoint collect {A B : Type} (f : A -> option (list B)) (l : list A) : option (list B) :=
  match l with
  | [] => Some []
  | a :: l' =>
      match f a with
      | None => None
      | Some bs =>
          match collect f l' with
          | None => None
          | Some rest => Some (bs ++ rest)
          end
      end
  end.

(** One round of the line loop. *)
Definition analyzeLine (patterns : list DetectionPattern) (filePath : string) (quiet : bool)
           (lines : list string) (i : nat) : option (list AISlopIssue) :=
  match collect (fun p => patternIssues p filePath quiet lines i) patterns with
  | None => None
  | Some found =>
      Some (found ++
            analyzeComplexNestedConditionals filePath lines i (i + 1) (line_at lines i))
  end.

(** [analyzeFile] on the lines of the file: the issues appended to
    [this.issues]. *)
Definition analyzeLines (patterns : list DetectionPattern) (filePath : string) (quiet : bool)
           (lines : list string) : option (list AISlopIssue) :=
  collect (analyzeLine patterns filePath quiet lines) (seq 0 (length lines)).

Definition analyzeFile (patterns : list DetectionPattern) (filePath content : string)
           (quiet : bool) : option (list AISlopIssue) :=
  analyzeLines patterns filePath quiet (splitLines content).

(** The file loop of [detect]: the files are analysed in order and share
    one issue list. *)
Definition analyzeFiles (patterns : list DetectionPattern) (files : list (string * string))
           (quiet : bool) : option (list AISlopIssue) :=
  collect (fun f => analyzeFile patterns (fst f) (snd f) quiet) files.

(** ** Consolidation *)

(** The grouping key of [consolidateIssues]. *)
Definition issueKey (issue : AISlopIssue) : string :=
  (Issue.type issue ++ "|" ++ Issue.file issue ++ "|" ++ Issue.code issue ++ "|" ++
   Issue.message issue ++ "|" ++ severityName (Issue.severity issue))%string.

(** ["line:column"] *)
Definition locationOf (issue : AISlopIssue) : string :=
  (ofNat (Issue.line issue) ++ ":" ++ ofNat (Issue.column issue))%string.

(** The [Map<string, ConsolidatedIssue>]: entries in insertion order, each
    key once. *)
Definition IssueMap : Type := list (string * ConsolidatedIssue).

Fixpoint mapHas (key : string) (m : IssueMap) : bool :=
  match m with
  | [] => false
  | (k, _) :: m' => String.eqb k key || mapHas key m'
  end.

Definition pushLocation (loc : string) (c : ConsolidatedIssue) : ConsolidatedIssue :=
  Consolidated.mk (Consolidated.type c) (Consolidated.file c) (Consolidated.code c)
                  (Consolidated.message c) (Consolidated.severity c)
                  (Consolidated.location c ++ [loc]).

(** [issueMap.get(key)!.location.push(loc)] *)
Fixpoint addLocation (key loc : string) (m : IssueMap) : IssueMap :=
  match m with
  | [] => []
  | (k, c) :: m' =>
      if String.eqb k key then (k, pushLocation loc c) :: m'
      else (k, c) :: addLocation key loc m'
  end.

Definition newEntry (issue : AISlopIssue) : ConsolidatedIssue :=
  Consolidated.mk (Issue.type issue) (Issue.file issue) (Issue.code issue)
                  (Issue.message issue) (Issue.severity issue) [locationOf issue].

(** One round of the loop over [this.issues]. *)
Definition consolidateStep (m : IssueMap) (issue : AISlopIssue) : IssueMap :=
  let key := issueKey issue in
  if mapHas key m then addLocation key (locationOf issue) m
  else m ++ [(key, newEntry issue)].

Definition consolidateIssues (issues : list AISlopIssue) : list ConsolidatedIssue :=
  map snd (fold_left consolidateStep issues []).

(** [countOccurrences] of [exportResults]. *)
Definition countOccurrences (cs : list ConsolidatedIssue) : nat :=
  fold_left (fun sum c => sum + length (Consolidated.location c)) cs 0.

(** ** Scoring *)

(** The [weights] table of [calculateKarpeSlopScore]: its own keys. *)
Definition weights : list (string * nat) :=
  [("hallucinated_react_import", 30);
   ("hallucinated_next_import", 30);
   ("any_type_usage", 15);
   ("unsafe_type_assertion", 12);
   ("unsafe_double_type_assertion", 12);
   ("overconfident_comment", 10);
   ("hedging_uncertainty_comment", 10);
   ("todo_implementation_placeholder", 12);
   ("assumption_comment", 11);
   ("redundant_self_explanatory_comment", 8);
   ("excessive_boilerplate_comment", 6);
   ("debug_log_with_comment", 5);
   ("unnecessary_iife_wrapper", 7);
   ("vibe_coded_ternary_abuse", 6)].

Fixpoint lookupWeight (table : list (string * nat)) (key : string) : option nat :=
  match table with
  | [] => None
  | (k, w) :: table' => if String.eqb k key then Some w else lookupWeight table' key
  end.

(** The members of [Object.prototype].  The table is an object literal:
    a read [weights[key]] (and a read on any other object literal)
    finds one of them when the object has no key of its own by that
    name. *)
Definition inheritedKeys : list string :=
  ["constructor"; "__proto__"; "hasOwnProperty"; "isPrototypeOf";
   "propertyIsEnumerable"; "toLocaleString"; "toString"; "valueOf";
   "__defineGetter__"; "__defineSetter__"; "__lookupGetter__"; "__lookupSetter__"].

Definition isInherited (key : string) : bool :=
  existsb (String.eqb key) inheritedKeys.

(** The text a member takes as an operand of [+]: [__proto__] reads the
    prototype object, [constructor] the function [Object], every other
    name a native function of that name. *)
Definition memberText (key : string) : string :=
  if String.eqb key "__proto__" then "[object Object]"
  else ("function " ++ (if String.eqb key "constructor" then "Object" else key) ++
        "() { [native code] }")%string.

(** The text of a value; numbers are counts, written in decimal. *)
Definition render (v : JsValue) : string :=
  match v with
  | Num n => ofNat n
  | Joined before key after => (before ++ memberText key ++ after)%string
  end.

(** What [weights[i.type] || 3] evaluates to: a number of points, or the
    member of the prototype that the read has found. *)
Inductive Weight : Type :=
| Points (n : nat)
| Inherited (key : string).

Definition weightOf (type : string) : Weight :=
  match lookupWeight weights type with
  | Some 0 => Points 3
  | Some w => Points w
  | None => if isInherited type then Inherited type else Points 3
  end.

(** [acc += w] *)
Definition addWeight (acc : JsValue) (w : Weight) : JsValue :=
  match acc, w with
  | Num n, Points p => Num (n + p)
  | Num n, Inherited key => Joined (ofNat n) key EmptyString
  | Joined before k after, Points p => Joined before k (after ++ ofNat p)
  | Joined before k after, Inherited key => Joined before k (after ++ memberText key)
  end.

(** [a + b] on two accumulators. *)
Definition jsAdd (a b : JsValue) : JsValue :=
  match a, b with
  | Num x, Num y => Num (x + y)
  | Num x, Joined before k after => Joined (ofNat x ++ before) k after
  | Joined before k after, _ => Joined before k (after ++ render b)
  end.

(** The three accumulators of the scoring loop. *)
Record Axes : Type := mkAxes { utility : JsValue; quality : JsValue; styleAxis : JsValue }.

(** One round of the scoring loop. *)
Definition scoreStep (acc : Axes) (i : AISlopIssue) : Axes :=
  let type := Issue.type i in
  let w := weightOf type in
  if includes type "hallucinated" || includes type "todo" || includes type "assumption"
  then mkAxes (utility acc) (addWeight (quality acc) w) (styleAxis acc)
  else if includes type "comment" || includes type "redundant" || includes type "boilerplate"
  then mkAxes (addWeight (utility acc) w) (quality acc) (styleAxis acc)
  else mkAxes (utility acc) (quality acc) (addWeight (styleAxis acc) w).

Definition calculateKarpeSlopScore (issues : list AISlopIssue) : SlopScoreBreakdown :=
  let acc := fold_left scoreStep issues (mkAxes (Num 0) (Num 0) (Num 0)) in
  let total := jsAdd (jsAdd (utility acc) (quality acc)) (styleAxis acc) in
  mkScore (utility acc) (quality acc) (styleAxis acc) total.

(** ** Configuration *)

(** A parsed configuration file: the value [JSON.parse] returns.  An
    object lists each of its keys once. *)
Module Json.

Inductive value : Type :=
| JNull
| JBool (b : bool)
| JNumber (n : Z)
| JString (s : string)
| JArray (items : list value)
| JObject (fields : list (string * value)).

Fixpoint lookup (fields : list (string * value)) (key : string) : option value :=
  match fields with
  | [] => None
  | (k, v) :: fields' => if String.eqb k key then Some v else lookup fields' key
  end.

(** [v[key]] for one of the configuration's property names, on a value
    other than [null]: [None] is [undefined]. *)
Definition get (v : value) (key : string) : option value :=
  match v with
  | JObject fields => lookup fields key
  | _ => None
  end.

(** [typeof v === 'object' && v !== null] *)
Definition isObject (v : value) : bool :=
  match v with
  | JObject _ | JArray _ => true
  | _ => false
  end.

(** Truthiness of a property read. *)
Definition truthy (o : option value) : bool :=
  match o with
  | None | Some JNull => false
  | Some (JBool b) => b
  | Some (JNumber n) => negb (n =? 0)%Z
  | Some (JString s) => negb (String.eqb s "")
  | Some (JArray _) | Some (JObject _) => true
  end.

(** [Object.entries(v)] of an object or an array. *)
Definition entries (v : value) : list (string * value) :=
  match v with
  | JObject fields => fields
  | JArray items => combine (map ofNat (seq 0 (length items))) items
  | _ => []
  end.

End Json.

Import Json.

(** What a call may throw: an [Error] with its message, or the
    [TypeError] of a property read on [null]. *)
Inductive Thrown : Type :=
| Error (msg : string)
| TypeError.

Inductive Outcome (A : Type) : Type :=
| Returned (a : A)
| Threw (e : Thrown).
Arguments Returned {A} a.
Arguments Threw {A} e.

Definition validSeverities : list string := ["critical"; "high"; "medium"; "low"].

(** [validSeverities.includes(v)] *)
Definition isValidSeverity (o : option value) : bool :=
  match o with
  | Some (JString s) => existsb (String.eqb s) validSeverities
  | _ => false
  end.

(** [!v || typeof v !== 'string'] fails for exactly the non-empty strings. *)
Definition nonEmptyString (o : option value) : option string :=
  match o with
  | Some (JString s) => if String.eqb s "" then None else Some s
  | _ => None
  end.

Definition severityOfName (s : string) : Severity :=
  if String.eqb s "critical" then critical
  else if String.eqb s "high" then high
  else if String.eqb s "medium" then medium
  else low.

Definition mustBeOneOf : string :=
  (" must be one of: " ++ join ", " validSeverities)%string.

Section Config.

(** [new RegExp(source, 'gi')]: the compiled pattern, [None] when the
    constructor throws. *)
Variable compileRegExp : string -> option regex.

(** The text a value other than a string takes inside a template literal. *)
Variable displayString : value -> string.

(** The checks of [validateConfig] on [customPatterns[i]]. *)
Definition validateCustomPattern (i : nat) (pattern : value) : Outcome unit :=
  let at_i := ("customPatterns[" ++ ofNat i ++ "]")%string in
  match pattern with
  | JNull => Threw TypeError
  | _ =>
      match nonEmptyString (get pattern "id") with
      | None => Threw (Error (at_i ++ ".id must be a string"))
      | Some _ =>
      match nonEmptyString (get pattern "pattern") with
      | None => Threw (Error (at_i ++ ".pattern must be a string"))
      | Some src =>
      match nonEmptyString (get pattern "message") with
      | None => Threw (Error (at_i ++ ".message must be a string"))
      | Some _ =>
      if negb (truthy (get pattern "severity")) || negb (isValidSeverity (get pattern "severity"))
      then Threw (Error (at_i ++ ".severity" ++ mustBeOneOf))
      else
        match compileRegExp src with
        | None => Threw (Error (at_i ++ ".pattern is not a valid regex: " ++ src))
        | Some _ => Returned tt
        end
      end end end
  end.

(** [for (let i = 0; i < cfg.customPatterns.length; i++)], from index [i]. *)
Fixpoint validateCustomPatterns (i : nat) (patterns : list value) : Outcome unit :=
  match patterns with
  | [] => Returned tt
  | pattern :: rest =>
      match validateCustomPattern i pattern with
      | Threw e => Threw e
      | Returned _ => validateCustomPatterns (S i) rest
      end
  end.

Fixpoint validateOverrides (entries : list (string * value)) : Outcome unit :=
  match entries with
  | [] => Returned tt
  | (key, v) :: rest =>
      if isValidSeverity (Some v) then validateOverrides rest
      else Threw (Error ("severityOverrides." ++ key ++ mustBeOneOf))
  end.

Fixpoint validateIgnorePaths (i : nat) (paths : list value) : Outcome unit :=
  match paths with
  | [] => Returned tt
  | JString _ :: rest => validateIgnorePaths (S i) rest
  | _ :: _ => Threw (Error ("ignorePaths[" ++ ofNat i ++ "] must be a string"))
  end.

(** [validateConfig]: the configuration itself when every check passes. *)
Definition validateConfig (config : value) : Outcome value :=
  if negb (isObject config) then Threw (Error "Config must be an object")
  else
    let customOk :=
      match get config "customPatterns" with
      | None => Returned tt
      | Some (JArray patterns) => validateCustomPatterns 0 patterns
      | Some _ => Threw (Error "customPatterns must be an array")
      end in
    match customOk with
    | Threw e => Threw e
    | Returned _ =>
    let overridesOk :=
      match get config "severityOverrides" with
      | None => Returned tt
      | Some v =>
          if isObject v then validateOverrides (entries v)
          else Threw (Error "severityOverrides must be an object")
      end in
    match overridesOk with
    | Threw e => Threw e
    | Returned _ =>
    let ignoreOk :=
      match get config "ignorePaths" with
      | None => Returned tt
      | Some (JArray paths) => validateIgnorePaths 0 paths
      | Some _ => Threw (Error "ignorePaths must be an array of strings")
      end in
    match ignoreOk with
    | Threw e => Threw e
    | Returned _ => Returned config
    end end end.

(** The fields of the detector that [loadConfig] writes. *)
Record Detector : Type := mkDetector {
  registry : list DetectionPattern;
  config : value;
  customIgnorePaths : list string
}.

Definition textOf (v : value) : string :=
  match v with
  | JString s => s
  | _ => displayString v
  end.

(** The rule pushed for a validated custom pattern. *)
Definition customRule (c : value) : DetectionPattern :=
  let str key := match get c key with Some v => textOf v | None => EmptyString end in
  let source := match compileRegExp (str "pattern") with Some r => r | None => Empty end in
  Pattern.mk (str "id") (mkRegExp source true) (str "message")
             (severityOfName (str "severity"))
             (if truthy (get c "description") then str "description" else str "message")
             false false.

(** [pattern.severity = newSeverity] on the first rule with that id. *)
Fixpoint overrideSeverity (patternId : string) (newSeverity : Severity)
         (rules : list DetectionPattern) : list DetectionPattern :=
  match rules with
  | [] => []
  | p :: rules' =>
      if String.eqb (Pattern.id p) patternId
      then Pattern.mk (Pattern.id p) (Pattern.pattern p) (Pattern.message p) newSeverity
                      (Pattern.description p) (Pattern.skipTests p) (Pattern.skipMocks p)
           :: rules'
      else p :: overrideSeverity patternId newSeverity rules'
  end.

Definition elements (o : option value) : list value :=
  match o with Some (JArray items) => items | _ => [] end.

(** The three steps that follow a successful validation. *)
Definition applyConfig (d : Detector) (cfg : value) : Detector :=
  let added := registry d ++ map customRule (elements (get cfg "customPatterns")) in
  let overridden :=
    fold_left (fun rules e => overrideSeverity (fst e) (severityOfName (textOf (snd e))) rules)
              (match get cfg "severityOverrides" with Some v => entries v | None => [] end)
              added in
  mkDetector overridden cfg
             (if truthy (get cfg "ignorePaths")
              then map textOf (elements (get cfg "ignorePaths"))
              else customIgnorePaths d).

(** A candidate configuration path: no such file, a file [JSON.parse]
    rejects, or a parsed value. *)
Inductive ConfigFile : Type :=
| Missing
| Unparsable
| Parsed (v : value).

(** [loadConfig]: the candidates are tried in order; the first that
    validates is applied and ends the loop, one that throws is skipped
    with a warning. *)
Fixpoint loadConfig (d : Detector) (candidates : list ConfigFile) : Detector :=
  match candidates with
  | [] => d
  | Missing :: rest | Unparsable :: rest => loadConfig d rest
  | Parsed v :: rest =>
      match validateConfig v with
      | Returned cfg => applyConfig d cfg
      | Threw _ => loadConfig d rest
      end
  end.

End Config.

(** The detector as constructed, before [loadConfig]. *)
Definition initialDetector : Detector :=
  mkDetector detectionPatterns (JObject []) [].

(** ** Notions used by the statements *)

(** A pattern every match of which takes at least one character. *)
Fixpoint consuming (r : regex) : bool :=
  match r with
  | Char _ | Dot | Class _ _ => true
  | Group _ r' => consuming r'
  | Seq r1 r2 => consuming r1 || consuming r2
  | Alt r1 r2 => consuming r1 && consuming r2
  | Quant r' mn mx _ => (0 <? mn) && negb (maxIsZero mx) && consuming r'
  | Empty | WordBoundary | BackRef _ => false
  end.

(** [y] is a state of the same input at or after [x]. *)
Definition ahead (x y : MState) : Prop :=
  endIndex x <= endIndex y /\
  endIndex y + length (rest y) = endIndex x + length (rest x).

(** The findings of the nested-control heuristic over a whole file. *)
Definition nestedFindings (filePath : string) (lines : list string) : list AISlopIssue :=
  flat_map (fun i => analyzeComplexNestedConditionals filePath lines i (i + 1) (line_at lines i))
           (seq 0 (length lines)).

Definition isNestedControl (issue : AISlopIssue) : bool :=
  String.eqb (Issue.type issue) "complex_nested_conditionals".

(** Every match loop of the registry ends. *)
Definition terminating (patterns : list DetectionPattern) : bool :=
  forallb (fun p => consuming (source (Pattern.pattern p))) patterns.

(** The production-logging rule, wherever the registry has it, is exempt
    in test files. *)
Definition loggingTestExempt (patterns : list DetectionPattern) : bool :=
  forallb (fun p => negb (idIs p "production_console_log") || Pattern.skipTests p) patterns.

(** The number of control-structure openers on a line, over the three
    kinds. *)
Definition controlOpeners (line : string) : nat :=
  countMatches line (controlOpener "if") +
  countMatches line (controlOpener "for") +
  countMatches line (controlOpener "while").

(** The second trigger of the nested-control heuristic for a line
    indented by [indentation] columns. *)
Definition deeplyIndentedOpener (line : string) (indentation : nat) : bool :=
  (16 <=? indentation) &&
  (includes line "if (" || includes line "for (" || includes line "while (") &&
  negb (startsWith (trim line) "//") &&
  negb (includes (trim line) "=>").

(** The issues of the nested-control heuristic that a scan of [lines]
    owes: for every line with two or more control openers the issue of
    the first trigger, and for every line that is a deeply indented
    opener the issue of the second. *)
Definition nestedIssuesEmitted (filePath : string) (lines : list string)
           (issues : list AISlopIssue) : Prop :=
  forall i, i < length lines ->
    ((2 <=? controlOpeners (line_at lines i)) = true ->
     In (Issue.mk "complex_nested_conditionals" filePath (i + 1) 1
                  (trim (line_at lines i)) nestedInLineMessage medium) issues) /\
    (forall indentation,
        stringSearch (line_at lines i) nonSpace = Some indentation ->
        deeplyIndentedOpener (line_at lines i) indentation = true ->
        In (Issue.mk "complex_nested_conditionals" filePath (i + 1) (indentation + 1)
                     (trim (line_at lines i)) deepIndentMessage medium) issues).

(** The three axes of the score and the classification of a rule id. *)
Inductive Axis : Type := QualityAxis | UtilityAxis | StyleAxis.

Definition Axis_eqb (a b : Axis) : bool :=
  match a, b with
  | QualityAxis, QualityAxis | UtilityAxis, UtilityAxis | StyleAxis, StyleAxis => true
  | _, _ => false
  end.

Definition axisOf (type : string) : Axis :=
  if includes type "hallucinated" || includes type "todo" || includes type "assumption"
  then QualityAxis
  else if includes type "comment" || includes type "redundant" || includes type "boilerplate"
  then UtilityAxis
  else StyleAxis.

(** The fixed table of weights as the statement reads it, and the
    weight of a rule id: that of the table, and 3 for an id the table
    does not list. *)
Definition listedWeights : list (string * nat) :=
  [("hallucinated_react_import", 30);
   ("hallucinated_next_import", 30);
   ("any_type_usage", 15);
   ("unsafe_type_assertion", 12);
   ("unsafe_double_type_assertion", 12);
   ("overconfident_comment", 10);
   ("hedging_uncertainty_comment", 10);
   ("todo_implementation_placeholder", 12);
   ("assumption_comment", 11);
   ("redundant_self_explanatory_comment", 8);
   ("excessive_boilerplate_comment", 6);
   ("debug_log_with_comment", 5);
   ("unnecessary_iife_wrapper", 7);
   ("vibe_coded_ternary_abuse", 6)].

Definition ruleWeight (type : string) : nat :=
  match find (fun e => String.eqb (fst e) type) listedWeights with
  | Some e => snd e
  | None => 3
  end.

(** The weights of the issues classified on axis [a], summed. *)
Definition axisWeight (a : Axis) (issues : list AISlopIssue) : nat :=
  list_sum (map (fun i => ruleWeight (Issue.type i))
                (filter (fun i => Axis_eqb (axisOf (Issue.type i)) a) issues)).

(** No issue has a type named like a member of [Object.prototype]. *)
Definition ownKeyTypes (issues : list AISlopIssue) : bool :=
  forallb (fun i => negb (isInherited (Issue.type i))) issues.

(** The number of locations held by the entries of the map. *)
Definition locationCount (m : IssueMap) : nat :=
  list_sum (map (fun e => length (Consolidated.location (snd e))) m).

(** The keys of a list in order of first appearance, [seen] being those
    already met. *)
Fixpoint firstSeen (seen keys : list string) : list string :=
  match keys with
  | [] => []
  | k :: keys' =>
      if existsb (String.eqb k) seen then firstSeen seen keys'
      else k :: firstSeen (seen ++ [k]) keys'
  end.

(** The issues that have the key [key], in order, and their locations. *)
Definition issuesWithKey (key : string) (issues : list AISlopIssue) : list AISlopIssue :=
  filter (fun i => String.eqb (issueKey i) key) issues.

Definition locationsOf (key : string) (issues : list AISlopIssue) : list string :=
  map locationOf (issuesWithKey key issues).

(** [issueMap.get(key)] *)
Fixpoint entryOf (key : string) (m : IssueMap) : option ConsolidatedIssue :=
  match m with
  | [] => None
  | (k, c) :: m' => if String.eqb k key then Some c else entryOf key m'
  end.

(** The entry of a key after one more issue. *)
Definition fileUnder (key : string) (o : option ConsolidatedIssue) (issue : AISlopIssue)
  : option ConsolidatedIssue :=
  if String.eqb (issueKey issue) key
  then Some (match o with
             | Some c => pushLocation (locationOf issue) c
             | None => newEntry issue
             end)
  else o.











(** The two variables of [isInTryCatchBlock] after the rounds for the
    lines [idx], [idx - 1], ..., [idx - k + 1]. *)
Fixpoint depthInto (lines : list string) (idx k : nat) : nat :=
  match k with
  | 0 => 0
  | S k' => nextDepth (depthInto lines idx k') (line_at lines (idx - k'))
  end.

Fixpoint catchInto (lines : list string) (idx k : nat) : option nat :=
  match k with
  | 0 => None
  | S k' =>
      if includes (line_at lines (idx - k')) "catch (" then Some (idx - k')
      else catchInto lines idx k'
  end.

(** The tracked depth once the round of line [i] has updated it. *)
Definition depthAfterRound (lines : list string) (idx i : nat) : nat :=
  depthInto lines idx (S (idx - i)).

(** Some line after [i], up to the target, contains [catch (]. *)
Definition catchBetween (lines : list string) (i idx : nat) : bool :=
  existsb (fun c => includes (line_at lines c) "catch (") (seq (S i) (idx - i)).

(** The round of line [i] returns true. *)
Definition returnsAt (lines : list string) (idx i : nat) : bool :=
  catchOpensAt lines i ||
  (negb (includes (line_at lines i) "catch (") && catchBetween lines i idx &&
   (tryOpensAt lines i || (depthAfterRound lines idx i =? 0))).

(** The enclosure test in the words of the specification, for comparison
    with [isInTryCatchBlock].  The text above the target is read
    backward; [pending] closing braces wait for their opener, and an
    opening brace met with none pending is still open at the target. *)
Fixpoint lineBackward (chars : list ascii) (pending : nat) (unmatched : bool) : nat * bool :=
  match chars with
  | [] => (pending, unmatched)
  | ch :: tl =>
      if Ascii.eqb ch "}"%char then lineBackward tl (S pending) unmatched
      else if Ascii.eqb ch "{"%char then
        match pending with
        | 0 => lineBackward tl 0 true
        | S p => lineBackward tl p unmatched
        end
      else lineBackward tl pending unmatched
  end.

(** A catch opener on a line at or above [i] whose block is still open
    at the target. *)
Fixpoint enclosingCatchAbove (lines : list string) (i pending : nat) : bool :=
  let line := line_at lines i in
  let '(pending', unmatched) := lineBackward (rev (list_ascii_of_string line)) pending false in
  if unmatched && includes line "catch (" then true
  else match i with
       | 0 => false
       | S i' => enclosingCatchAbove lines i' pending'
       end.

Definition enclosureAsSpecified (lines : list string) (idx : nat) : bool :=
  (includes (line_at lines idx) "catch (" && includes (line_at lines idx) "{") ||
  match idx with
  | 0 => false
  | S i => enclosingCatchAbove lines i 0
  end ||
  existsb (fun i => negb (includes (line_at lines i) "catch (") && catchBetween lines i idx &&
                    (depthAfterRound lines idx i =? 0))
          (seq 0 (S idx)).

(** What a round has pushed when it ends. *)
Definition issuesOrNone (o : option (list AISlopIssue)) : list AISlopIssue :=
  match o with Some l => l | None => [] end.

(** The issues of the missing-error-handling rule reported for line [i]. *)
Definition reportedUnhandled (issues : list AISlopIssue) (i : nat) : list AISlopIssue :=
  filter (fun issue => String.eqb (Issue.type issue) "missing_error_handling" &&
                       (Issue.line issue =? i + 1)) issues.

(** ** File discovery, reporting and exit code *)

Definition targetExtensions : list string := [".ts"; ".tsx"; ".js"; ".jsx"].

Definition coreAppDirs : list string :=
  ["app/"; "components/"; "lib/"; "hooks/"; "services/"].

(** [s.replace(/\\/g, '/')] *)
Fixpoint slashes (s : string) : string :=
  match s with
  | EmptyString => EmptyString
  | String c s' =>
      String (if Ascii.eqb c "092"%char then "/"%char else c) (slashes s')
  end.

(** The callback of the second filter of [findAllFiles], on the relative
    path of a file. *)
Definition notGenerated (relativePath : string) : bool :=
  negb (includes relativePath "generated/") &&
  negb (includes relativePath "/generated") &&
  negb (startsWith relativePath "generated/") &&
  negb (includes relativePath "coverage/") &&
  negb (includes relativePath ".next/") &&
  negb (includes relativePath "node_modules/") &&
  negb (includes relativePath "dist/") &&
  negb (includes relativePath "build/") &&
  negb (includes relativePath ".git/") &&
  negb (includes relativePath "out/") &&
  negb (includes relativePath "temp/").

(** [[...new Set(files)]]: each file once, at its first place. *)
Fixpoint uniqueFiles (seen files : list string) : list string :=
  match files with
  | [] => []
  | f :: files' =>
      if existsb (String.eqb f) seen then uniqueFiles seen files'
      else f :: uniqueFiles (seen ++ [f]) files'
  end.

Section Discovery.

(** [glob.sync] on the pattern of one extension under the root, with the
    ignore list of the source: the files it returns. *)
Variable globSync : string -> list string.

(** [path.relative(this.rootDir, file)] *)
Variable relative : string -> string.

(** [fs.readFileSync(file, 'utf-8')] *)
Variable readFile : string -> string.

Definition relativePathOf (file : string) : string := slashes (relative file).

Definition findAllFiles : list string :=
  uniqueFiles []
    (flat_map (fun ext => filter (fun file => notGenerated (relativePathOf file)) (globSync ext))
              targetExtensions).

(** The files [detect] analyses. *)
Definition filesToAnalyze (quiet : bool) : list string :=
  let allFiles := findAllFiles in
  if quiet
  then filter (fun file => existsb (startsWith (relativePathOf file)) coreAppDirs) allFiles
  else allFiles.

(** [detect]: the issues of a fresh detector after the file loop, for
    files that can all be read.  A file that cannot be read makes
    [readFileSync] throw out of [detect]; the report printed after the
    loop is [generateReport] below. *)
Definition detect (patterns : list DetectionPattern) (quiet : bool) : option (list AISlopIssue) :=
  analyzeFiles patterns (map (fun file => (file, readFile file)) (filesToAnalyze quiet)) quiet.

End Discovery.

Definition Severity_eqb (a b : Severity) : bool :=
  match a, b with
  | critical, critical | high, high | medium, medium | low, low => true
  | _, _ => false
  end.

(** [getIssueCount] and [getIssuesBySeverity] *)
Definition getIssueCount (issues : list AISlopIssue) : nat := length issues.

Definition getIssuesBySeverity (severity : Severity) (issues : list AISlopIssue)
  : list AISlopIssue :=
  filter (fun issue => Severity_eqb (Issue.severity issue) severity) issues.

(** The closing verdict of [generateReport]. *)
Inductive Verdict : Type := NoIssues | Clean | SlopFed | Acceptable.

(** [score.total === 0] and [score.total > 50].  A string is never
    identical to a number.  Compared with a number it is converted to
    one, and a [Joined] string holds the text of a member of the
    prototype, which no numeric literal does: it converts to NaN, and
    the comparison is false. *)
Definition isZero (v : JsValue) : bool :=
  match v with
  | Num n => n =? 0
  | Joined _ _ _ => false
  end.

Definition exceeds (v : JsValue) (k : nat) : bool :=
  match v with
  | Num n => k <? n
  | Joined _ _ _ => false
  end.

(** The grouping loop of the severity sections.  [byType] is a fresh
    object literal, so for a type named like a member of the prototype
    [byType[issue.type]] is that member, no list is stored, and the call
    of its [push] throws a TypeError.  The loop visits the first 20
    issues of each severity. *)
Definition groupingThrows (issues : list AISlopIssue) : bool :=
  existsb (fun severity =>
             existsb (fun issue => isInherited (Issue.type issue))
                     (firstn 20 (getIssuesBySeverity severity issues)))
          [critical; high; medium; low].

(** [generateReport]: the early return on an empty issue list, the
    severity sections, then the three branches on the total score.  The
    result is the verdict printed last, or what is thrown. *)
Definition generateReport (issues : list AISlopIssue) : Outcome Verdict :=
  if length issues =? 0 then Returned NoIssues
  else if groupingThrows issues then Threw TypeError
  else
    let score := calculateKarpeSlopScore issues in
    Returned (if isZero (total score) then Clean
              else if exceeds (total score) 50 then SlopFed
              else Acceptable).

(** The exit code of [runIfMain].  [run] is what the [try] block got
    from [detect] and [exportResults]: the issues returned, or the error
    one of the two has thrown, which the [catch] branch answers with 1. *)
Definition exitCode (strict : bool) (run : Outcome (list AISlopIssue)) : nat :=
  match run with
  | Threw _ => 1
  | Returned issues =>
      let criticalIssues :=
        filter (fun i => Severity_eqb (Issue.severity i) critical) issues in
      if strict && (0 <? length criticalIssues) then 2
      else if 0 <? length issues then 1 else 0
  end.

(** A number that is at least [k]; a string counts as one. *)
Definition numberAtLeast (k : nat) (v : JsValue) : Prop :=
  match v with
  | Num n => k <= n
  | Joined _ _ _ => True
  end.

(** [utility + quality + style] on the accumulators. *)
Definition totalOf (acc : Axes) : JsValue :=
  jsAdd (jsAdd (utility acc) (quality acc)) (styleAxis acc).

(** *** [exportResults] *)

Module Report.

Record Sample : Type := mkSample {
  file : string;
  locations : list string;
  code : string
}.

Record TypeSummary : Type := mkTypeSummary {
  type : string;
  occurrences : nat;
  uniqueIssues : nat;
  sample : list Sample
}.

Record SeverityCounts : Type := mkCounts {
  critical : nat;
  high : nat;
  medium : nat;
  low : nat
}.

(** The object written to the report file; [uniqueIssuesTotal] is its
    top-level [uniqueIssues]. *)
Record Results : Type := mkResults {
  timestamp : string;
  uniqueIssuesTotal : nat;
  totalOccurrences : nat;
  bySeverity : SeverityCounts;
  byType : list TypeSummary;
  issues : list ConsolidatedIssue
}.

End Report.

(** The [Map<string, ConsolidatedIssue[]>] of [exportResults]. *)
Definition TypeMap : Type := list (string * list ConsolidatedIssue).

Fixpoint typeMapHas (type : string) (m : TypeMap) : bool :=
  match m with
  | [] => false
  | (k, _) :: m' => String.eqb k type || typeMapHas type m'
  end.

(** [byTypeMap.get(type)!.push(issue)] *)
Fixpoint typeMapPush (type : string) (c : ConsolidatedIssue) (m : TypeMap) : TypeMap :=
  match m with
  | [] => []
  | (k, cs) :: m' =>
      if String.eqb k type then (k, cs ++ [c]) :: m'
      else (k, cs) :: typeMapPush type c m'
  end.

(** One round of the grouping loop. *)
Definition groupStep (m : TypeMap) (c : ConsolidatedIssue) : TypeMap :=
  let m' := if typeMapHas (Consolidated.type c) m then m
            else m ++ [(Consolidated.type c, [])] in
  typeMapPush (Consolidated.type c) c m'.

Definition consolidatedWith (severity : Severity) (cs : list ConsolidatedIssue)
  : list ConsolidatedIssue :=
  filter (fun c => Severity_eqb (Consolidated.severity c) severity) cs.

Section ReportExport.

(** [path.relative(this.rootDir, file)] and [new Date().toISOString()]. *)
Variable relative : string -> string.
Variable now : string.

Definition sampleOf (c : ConsolidatedIssue) : Report.Sample :=
  Report.mkSample (relative (Consolidated.file c))
                  (firstn 3 (Consolidated.location c))
                  (Consolidated.code c).

Definition typeSummary (entry : string * list ConsolidatedIssue) : Report.TypeSummary :=
  Report.mkTypeSummary (fst entry) (countOccurrences (snd entry)) (length (snd entry))
                       (map sampleOf (firstn 3 (snd entry))).

(** The object [exportResults] writes. *)
Definition exportResults (issues : list AISlopIssue) : Report.Results :=
  let consolidatedIssues := consolidateIssues issues in
  Report.mkResults now
    (length consolidatedIssues)
    (countOccurrences consolidatedIssues)
    (Report.mkCounts (countOccurrences (consolidatedWith critical consolidatedIssues))
                     (countOccurrences (consolidatedWith high consolidatedIssues))
                     (countOccurrences (consolidatedWith medium consolidatedIssues))
                     (countOccurrences (consolidatedWith low consolidatedIssues)))
    (map typeSummary (fold_left groupStep consolidatedIssues []))
    consolidatedIssues.

End ReportExport.

(** ** Further notions used by the statements *)

(** [y] is the state [k] characters after [x] on the same input. *)
Definition reaches (x y : MState) : Prop :=
  exists k, endIndex y = endIndex x + k /\ rest y = skipn k (rest x).

(** A match lies in the line: it is not empty, ends inside the line, and
    its text is the text of the line from its index on. *)
Definition matchInLine (chars : list ascii) (m : MatchResult) : Prop :=
  0 < String.length (text m) /\
  index m + String.length (text m) <= length chars /\
  list_ascii_of_string (text m) =
    firstn (String.length (text m)) (skipn (index m) chars).

(** A match ends before the next one starts. *)
Definition endsBefore (a b : MatchResult) : Prop :=
  index a + String.length (text a) <= index b.

(** The pattern matches the empty string at the end of an input. *)
Definition matchesEmptyAtEnd (re : RegExp) : Prop :=
  forall p i, matcher (ignoreCase re) (source re) (mkState p [] i []) Some <> None.

(** The text [code] stands in [line] from index [k] on. *)
Definition occursAt (code line : string) (k : nat) : Prop :=
  k + String.length code <= String.length line /\
  list_ascii_of_string code =
    firstn (String.length code) (skipn k (list_ascii_of_string line)).

Definition lineOrder (a b : AISlopIssue) : Prop := Issue.line a <= Issue.line b.

(** The entries of a type map weighed by [mu], summed. *)
Definition groupedSum (mu : ConsolidatedIssue -> nat) (m : TypeMap) : nat :=
  list_sum (map (fun e => list_sum (map mu (snd e))) m).

(** The locations held by the entries of severity [severity]. *)
Definition severityCount (severity : Severity) (m : IssueMap) : nat :=
  list_sum (map (fun e => length (Consolidated.location (snd e)))
                (filter (fun e => Severity_eqb (Consolidated.severity (snd e)) severity) m)).

Definition severityCounts (r : Report.Results) : list nat :=
  [Report.critical (Report.bySeverity r); Report.high (Report.bySeverity r);
   Report.medium (Report.bySeverity r); Report.low (Report.bySeverity r)].

(** Every entry of the map is filed under the key of an issue of its
    own severity. *)
Definition keyedBySeverity (m : IssueMap) : Prop :=
  Forall (fun e => exists i, fst e = issueKey i /\
                             Consolidated.severity (snd e) = Issue.severity i) m.

(** What quiet mode keeps of the issues of a file: all of them outside
    test files, and in a test file those of the production-logging rule
    and of the nested-control heuristic. *)
Definition keptInQuietMode (filePath : string) (issue : AISlopIssue) : bool :=
  negb (isTestFile filePath) ||
  String.eqb (Issue.type issue) "production_console_log" ||
  isNestedControl issue.


(** The path fragments the second filter of [findAllFiles] looks for
    anywhere in the relative path. *)
Definition excludedFragments : list string :=
  ["generated/"; "/generated"; "coverage/"; ".next/"; "node_modules/"; "dist/";
   "build/"; ".git/"; "out/"; "temp/"].

(** The matches a loop has yielded when it ends. *)
Definition matchesOrNone (o : option (list MatchResult)) : list MatchResult :=
  match o with Some ms => ms | None => [] end.

(** The built-in rules that are skipped in test files, and in mock
    files. *)
Definition testExemptTypes : list string :=
  ["debug_log_with_comment"; "missing_error_handling"; "production_console_log"].

Definition mockExemptTypes : list string := ["production_console_log"].

(** The rules the match loop drops under a path that contains [test] or
    [spec]. *)
Definition testPathExemptTypes : list string :=
  ["hedging_uncertainty_comment"; "assumption_comment"; "unsafe_type_assertion"].

Definition typeAmong (types : list string) (issue : AISlopIssue) : bool :=
  existsb (String.eqb (Issue.type issue)) types.

(** A candidate configuration that [loadConfig] passes over. *)
Definition rejected (compileRegExp : string -> option regex) (c : ConfigFile) : Prop :=
  match c with
  | Missing | Unparsable => True
  | Parsed v => exists e, validateConfig compileRegExp v = Threw e
  end.

(** A custom rule with its four required fields in order. *)
Definition wellFormedRule (compileRegExp : string -> option regex) (rule : value) : Prop :=
  exists id src msg sev r,
    get rule "id" = Some (JString id) /\ id <> EmptyString /\
    get rule "pattern" = Some (JString src) /\ src <> EmptyString /\
    get rule "message" = Some (JString msg) /\ msg <> EmptyString /\
    get rule "severity" = Some (JString sev) /\ In sev validSeverities /\
    compileRegExp src = Some r.

Definition isString (v : value) : bool :=
  match v with JString _ => true | _ => false end.

(** The rule [p] with its severity replaced. *)
Definition withSeverity (p : DetectionPattern) (severity : Severity) : DetectionPattern :=
  Pattern.mk (Pattern.id p) (Pattern.pattern p) (Pattern.message p) severity
             (Pattern.description p) (Pattern.skipTests p) (Pattern.skipMocks p).

(** Two rules that differ at most in severity, and two issues that do. *)
Definition sameButSeverity (p q : DetectionPattern) : Prop :=
  exists severity, q = withSeverity p severity.

Definition sameFinding (a b : AISlopIssue) : Prop :=
  Issue.type a = Issue.type b /\ Issue.file a = Issue.file b /\
  Issue.line a = Issue.line b /\ Issue.column a = Issue.column b /\
  Issue.code a = Issue.code b /\ Issue.message a = Issue.message b.

(** The severity overrides of a configuration, as [loadConfig] reads
    them. *)
Definition overridesOf (cfg : value) : list (string * value) :=
  match get cfg "severityOverrides" with Some v => entries v | None => [] end.

(** Two scans that both run for ever, or both return, with issues that
    pairwise differ at most in severity. *)
Definition sameFindings (a b : option (list AISlopIssue)) : Prop :=
  match a, b with
  | Some x, Some y => Forall2 sameFinding x y
  | None, None => True
  | _, _ => False
  end.

(** * Theorems *)

(** ** The matcher always moves forward *)

Lemma ahead_refl x : ahead x x.
Proof. unfold ahead; lia. Qed.

Lemma ahead_trans x y z : ahead x y -> ahead y z -> ahead x z.
Proof. unfold ahead; lia. Qed.

Lemma charMatcher_progress p x c z :
  charMatcher p x c = Some z ->
  exists y, c y = Some z /\ ahead x y /\ endIndex x < endIndex y.
Proof.
  unfold charMatcher. destruct (rest x) as [|ch tl] eqn:E; [discriminate|].
  destruct (p ch); [|discriminate]. intros H.
  exists (advance x ch tl). split; [exact H|].
  unfold ahead, advance; simpl. rewrite E; simpl. lia.
Qed.

Lemma backrefMatcher_progress ic s : forall x c z,
  backrefMatcher ic s x c = Some z ->
  exists y, c y = Some z /\ ahead x y.
Proof.
  induction s as [|a s IH]; intros x c z H; simpl in H.
  - exists x. split; [exact H | apply ahead_refl].
  - destruct (rest x) as [|ch tl] eqn:E; [discriminate|].
    destruct (Ascii.eqb _ _); [|discriminate].
    apply IH in H as (y & Hy & Ha). exists y. split; [exact Hy|].
    eapply ahead_trans; [|exact Ha].
    unfold ahead, advance; simpl. rewrite E; simpl. lia.
Qed.

Section Repeat.
Variable m : MState -> Cont -> option MState.
Variable strict : bool.
Hypothesis m_progress : forall x d z,
  m x d = Some z ->
  exists y, d y = Some z /\ ahead x y /\ (strict = true -> endIndex x < endIndex y).

Lemma clearCaptures_ahead gs x y : ahead (clearCaptures gs x) y -> ahead x y.
Proof. unfold ahead, clearCaptures; simpl; auto. Qed.

Lemma repeatMatcher_progress gs greedy c : forall fuel mn mx x z,
  repeatMatcher m gs greedy c fuel mn mx x = Some z ->
  exists y, c y = Some z /\ ahead x y /\
            ((0 <? mn) && negb (maxIsZero mx) && strict = true -> endIndex x < endIndex y).
Proof.
  induction fuel as [|fuel IH]; intros mn mx x z H; simpl in H; [discriminate|].
  destruct (maxIsZero mx) eqn:Emx.
  { exists x. split; [exact H|]. split; [apply ahead_refl|].
    rewrite andb_false_r. simpl. discriminate. }
  assert (Hbody : forall z',
    m (clearCaptures gs x)
      (fun y => if (mn =? 0) && (endIndex y =? endIndex x) then None
                else repeatMatcher m gs greedy c fuel (pred mn) (option_map pred mx) y) = Some z' ->
    exists y, c y = Some z' /\ ahead x y /\ (strict = true -> endIndex x < endIndex y)).
  { intros z' Hm. apply m_progress in Hm as (y & Hy & Ha & Hs).
    destruct ((mn =? 0) && (endIndex y =? endIndex x)); [discriminate|].
    apply IH in Hy as (y' & Hy' & Ha' & _).
    exists y'. split; [exact Hy'|]. apply clearCaptures_ahead in Ha.
    split; [eapply ahead_trans; eauto|].
    intros Hst. specialize (Hs Hst). unfold clearCaptures in Hs; simpl in Hs.
    destruct Ha' as [Hle _]. lia. }
  remember (m (clearCaptures gs x)
      (fun y => if (mn =? 0) && (endIndex y =? endIndex x) then None
                else repeatMatcher m gs greedy c fuel (pred mn) (option_map pred mx) y))
    as o eqn:Eo in H.
  symmetry in Eo.
  destruct (mn =? 0) eqn:Emn; simpl in H.
  - assert (Hno : (0 <? mn) && negb false && strict = true -> False).
    { apply Nat.eqb_eq in Emn. subst mn. simpl. discriminate. }
    destruct greedy.
    + destruct o as [z'|].
      * inversion H; subst z'. destruct (Hbody z Eo) as (y & Hy & Ha & _).
        exists y. split; [exact Hy|]. split; [exact Ha|]. intros F; destruct (Hno F).
      * exists x. split; [exact H|]. split; [apply ahead_refl|]. intros F; destruct (Hno F).
    + destruct (c x) as [z'|] eqn:Ec.
      * inversion H; subst z'. exists x. split; [exact Ec|]. split; [apply ahead_refl|].
        intros F; destruct (Hno F).
      * subst o. destruct (Hbody z H) as (y & Hy & Ha & _).
        exists y. split; [exact Hy|]. split; [exact Ha|]. intros F; destruct (Hno F).
  - subst o. destruct (Hbody z H) as (y & Hy & Ha & Hs).
    exists y. split; [exact Hy|]. split; [exact Ha|].
    intros F. apply Hs. apply andb_true_iff in F as [_ F]. exact F.
Qed.
End Repeat.

Lemma matcher_progress ic r : forall x c z,
  matcher ic r x c = Some z ->
  exists y, c y = Some z /\ ahead x y /\ (consuming r = true -> endIndex x < endIndex y).
Proof.
  induction r as [ | a | | neg atoms | | n | n r IH | r1 IH1 r2 IH2 | r1 IH1 r2 IH2 | r IH mn mx greedy];
    intros x c z H; cbn [matcher] in H.
  - exists x. split; [exact H|]. split; [apply ahead_refl | discriminate].
  - apply charMatcher_progress in H as (y & ? & ? & ?). exists y; auto.
  - apply charMatcher_progress in H as (y & ? & ? & ?). exists y; auto.
  - apply charMatcher_progress in H as (y & ? & ? & ?). exists y; auto.
  - destruct (xorb _ _); [|discriminate].
    exists x. split; [exact H|]. split; [apply ahead_refl | discriminate].
  - destruct (lookupCapture n (captures x)).
    + apply backrefMatcher_progress in H as (y & ? & ?). exists y.
      split; [assumption|]. split; [assumption | discriminate].
    + exists x. split; [exact H|]. split; [apply ahead_refl | discriminate].
  - apply IH in H as (y & Hy & Ha & Hs).
    exists (setCapture n (firstn (endIndex y - endIndex x) (rest x)) y).
    split; [exact Hy|]. unfold ahead, setCapture in *; simpl. auto.
  - apply IH1 in H as (y1 & Hy1 & Ha1 & Hs1).
    apply IH2 in Hy1 as (y2 & Hy2 & Ha2 & Hs2).
    exists y2. split; [exact Hy2|]. split; [eapply ahead_trans; eauto|].
    simpl. intros Hc. apply orb_true_iff in Hc.
    destruct Ha1 as [L1 _], Ha2 as [L2 _].
    destruct Hc as [Hc|Hc]; [specialize (Hs1 Hc) | specialize (Hs2 Hc)]; lia.
  - simpl. destruct (matcher ic r1 x c) as [z'|] eqn:E1.
    + inversion H; subst z'. apply IH1 in E1 as (y & ? & ? & Hs). exists y.
      split; [assumption|]. split; [assumption|].
      intros Hc. apply andb_true_iff in Hc as [Hc _]. auto.
    + apply IH2 in H as (y & ? & ? & Hs). exists y.
      split; [assumption|]. split; [assumption|].
      intros Hc. apply andb_true_iff in Hc as [_ Hc]. auto.
  - eapply repeatMatcher_progress with (strict := consuming r) in H; [|exact IH].
    destruct H as (y & Hy & Ha & Hs). exists y. simpl. auto.
Qed.

Lemma searchFrom_bounds ic r : forall inp p i s from y,
  searchFrom ic r p inp i = Some (s, from, y) ->
  i <= s /\ s <= endIndex y /\
  endIndex y + length (rest y) = i + length inp /\
  (consuming r = true -> s < endIndex y).
Proof.
  induction inp as [|ch tl IH]; intros p i s from y H; simpl in H.
  - destruct (matcher ic r _ Some) as [y'|] eqn:E; [|discriminate].
    inversion H; subst s from y'; clear H.
    apply matcher_progress in E as (y0 & Hy0 & [L Hlen] & Hs).
    inversion Hy0; subst y0. simpl in *. repeat split; auto; lia.
  - destruct (matcher ic r _ Some) as [y'|] eqn:E.
    + inversion H; subst s from y'; clear H.
      apply matcher_progress in E as (y0 & Hy0 & [L Hlen] & Hs).
      inversion Hy0; subst y0. simpl in *. repeat split; auto; lia.
    + apply IH in H as (H1 & H2 & H3 & H4). simpl. repeat split; auto; lia.
Qed.

Lemma execLoop_total ic r :
  consuming r = true ->
  forall fuel p inp i, length inp < fuel ->
  exists ms, execLoop fuel ic r p inp i = Some ms.
Proof.
  intros Hc. induction fuel as [|fuel IH]; intros p inp i Hlt; [lia|].
  simpl. destruct (searchFrom ic r p inp i) as [[[s from] y]|] eqn:E.
  - apply searchFrom_bounds in E as (H1 & H2 & H3 & H4).
    specialize (H4 Hc).
    destruct (endIndex y =? s) eqn:Eq; [apply Nat.eqb_eq in Eq; lia|].
    destruct (IH (prev y) (rest y) (endIndex y)) as [ms Hms]; [lia|].
    rewrite Hms. simpl. eauto.
  - eauto.
Qed.

Lemma execAll_total re line :
  consuming (source re) = true -> exists ms, execAll re line = Some ms.
Proof.
  intros Hc. unfold execAll. apply execLoop_total; [exact Hc | lia].
Qed.

(** ** The collecting loop *)

Lemma collect_total {A B} (f : A -> option (list B)) l :
  (forall a, In a l -> exists bs, f a = Some bs) ->
  exists bs, collect f l = Some bs.
Proof.
  induction l as [|a l IH]; intros H; simpl; [eauto|].
  destruct (H a (or_introl eq_refl)) as [bs Hbs]. rewrite Hbs.
  destruct IH as [rest Hrest]; [intros; apply H; right; assumption|].
  rewrite Hrest. eauto.
Qed.

Lemma collect_In {A B} (f : A -> option (list B)) l : forall bs b,
  collect f l = Some bs ->
  (In b bs <-> exists a bs', In a l /\ f a = Some bs' /\ In b bs').
Proof.
  induction l as [|a l IH]; intros bs b H; simpl in H.
  - inversion H; subst bs. split; [intros [] | intros (a & bs' & [] & _)].
  - destruct (f a) as [bs0|] eqn:Ea; [|discriminate].
    destruct (collect f l) as [rest|] eqn:El; [|discriminate].
    inversion H; subst bs; clear H. rewrite in_app_iff. split.
    + intros [Hb|Hb].
      * exists a, bs0. simpl; auto.
      * apply (IH rest b eq_refl) in Hb as (a' & bs' & Ha' & Hf & Hb').
        exists a', bs'. simpl; auto.
    + intros (a' & bs' & [Ha'|Ha'] & Hf & Hb').
      * subst a'. rewrite Ea in Hf. inversion Hf; subst bs'. auto.
      * right. apply (IH rest b eq_refl). eauto.
Qed.

Lemma collect_filter {A B} (f : A -> option (list B)) (keep : B -> bool) l : forall bs,
  collect f l = Some bs ->
  collect (fun a => option_map (filter keep) (f a)) l = Some (filter keep bs).
Proof.
  induction l as [|a l IH]; intros bs H; simpl in *.
  - inversion H; reflexivity.
  - destruct (f a) as [bs0|]; [|discriminate].
    destruct (collect f l) as [rest|]; [|discriminate].
    inversion H; subst bs. simpl. rewrite (IH rest eq_refl). rewrite filter_app. reflexivity.
Qed.


(** ** The fuel of the matcher is never used up *)

Section RepeatFuel.
Variable m : MState -> Cont -> option MState.
(** The body matcher passes to its continuation only states of the same
    input at or after its own. *)
Hypothesis m_ext : forall x d d',
  (forall y, ahead x y -> d y = d' y) -> m x d = m x d'.

Lemma repeatMatcher_ext gs greedy : forall fuel c c' mn mx x,
  (forall y, ahead x y -> c y = c' y) ->
  repeatMatcher m gs greedy c fuel mn mx x = repeatMatcher m gs greedy c' fuel mn mx x.
Proof.
  induction fuel as [|fuel IH]; intros c c' mn mx x Hc; [reflexivity|].
  cbn [repeatMatcher]. rewrite (Hc x (ahead_refl x)).
  assert (Hd : m (clearCaptures gs x)
                 (fun y => if (mn =? 0) && (endIndex y =? endIndex x) then None
                           else repeatMatcher m gs greedy c fuel (pred mn) (option_map pred mx) y)
             = m (clearCaptures gs x)
                 (fun y => if (mn =? 0) && (endIndex y =? endIndex x) then None
                           else repeatMatcher m gs greedy c' fuel (pred mn) (option_map pred mx) y)).
  { apply m_ext. intros y Hy. destruct (_ && _); [reflexivity|].
    apply IH. intros y' Hy'. apply Hc.
    apply clearCaptures_ahead with (gs := gs). eapply ahead_trans; eauto. }
  rewrite Hd. reflexivity.
Qed.

Lemma repeatMatcher_S gs greedy c fuel mn mx x :
  repeatMatcher m gs greedy c (S fuel) mn mx x =
  if maxIsZero mx then c x
  else
    let d : Cont := fun y =>
      if (mn =? 0) && (endIndex y =? endIndex x) then None
      else repeatMatcher m gs greedy c fuel (pred mn) (option_map pred mx) y in
    let xr := clearCaptures gs x in
    if negb (mn =? 0) then m xr d
    else if greedy then match m xr d with Some z => Some z | None => c x end
    else match c x with Some z => Some z | None => m xr d end.
Proof. reflexivity. Qed.

Lemma repeatMatcher_fuel gs greedy c : forall fuel mn mx x,
  mn + length (rest x) < fuel ->
  repeatMatcher m gs greedy c (S fuel) mn mx x = repeatMatcher m gs greedy c fuel mn mx x.
Proof.
  induction fuel as [|fuel IH]; intros mn mx x Hlt; [lia|].
  rewrite (repeatMatcher_S gs greedy c (S fuel)), (repeatMatcher_S gs greedy c fuel).
  cbv zeta.
  assert (Hd : m (clearCaptures gs x)
                 (fun y => if (mn =? 0) && (endIndex y =? endIndex x) then None
                           else repeatMatcher m gs greedy c (S fuel) (pred mn)
                                              (option_map pred mx) y)
             = m (clearCaptures gs x)
                 (fun y => if (mn =? 0) && (endIndex y =? endIndex x) then None
                           else repeatMatcher m gs greedy c fuel (pred mn)
                                              (option_map pred mx) y)).
  { apply m_ext. intros y Hy. apply clearCaptures_ahead in Hy.
    destruct ((mn =? 0) && (endIndex y =? endIndex x)) eqn:Eg; [reflexivity|].
    apply IH. destruct Hy as [Hle Hsum].
    destruct mn as [|mn]; simpl in *.
    - apply Nat.eqb_neq in Eg. lia.
    - lia. }
  rewrite Hd. reflexivity.
Qed.
End RepeatFuel.

Lemma charMatcher_ext p x c c' :
  (forall y, ahead x y -> c y = c' y) -> charMatcher p x c = charMatcher p x c'.
Proof.
  intros H. unfold charMatcher. destruct (rest x) as [|ch tl] eqn:E; [reflexivity|].
  destruct (p ch); [|reflexivity]. apply H.
  unfold ahead, advance; simpl. rewrite E; simpl. lia.
Qed.

Lemma backrefMatcher_ext ic s : forall x c c',
  (forall y, ahead x y -> c y = c' y) -> backrefMatcher ic s x c = backrefMatcher ic s x c'.
Proof.
  induction s as [|a s IH]; intros x c c' H; simpl; [apply H, ahead_refl|].
  destruct (rest x) as [|ch tl] eqn:E; [reflexivity|].
  destruct (Ascii.eqb _ _); [|reflexivity].
  apply IH. intros y Hy. apply H. eapply ahead_trans; [|exact Hy].
  unfold ahead, advance; simpl. rewrite E; simpl. lia.
Qed.

(** A matcher hands its continuation only states at or after its own. *)
Lemma matcher_ext ic r : forall x c c',
  (forall y, ahead x y -> c y = c' y) -> matcher ic r x c = matcher ic r x c'.
Proof.
  induction r as [ | a | | neg atoms | | n | n r IH | r1 IH1 r2 IH2 | r1 IH1 r2 IH2 | r IH mn mx greedy];
    intros x c c' H; cbn [matcher].
  - apply H, ahead_refl.
  - apply charMatcher_ext, H.
  - apply charMatcher_ext, H.
  - apply charMatcher_ext, H.
  - destruct (xorb _ _); [apply H, ahead_refl | reflexivity].
  - destruct (lookupCapture n (captures x)); [apply backrefMatcher_ext, H | apply H, ahead_refl].
  - apply IH. intros y Hy. apply H. unfold ahead, setCapture in *; simpl. exact Hy.
  - apply IH1. intros y Hy. apply IH2. intros y' Hy'. apply H. eapply ahead_trans; eauto.
  - rewrite (IH1 x c c' H), (IH2 x c c' H). reflexivity.
  - apply repeatMatcher_ext; [exact IH | exact H].
Qed.

(** More fuel than the matcher gives a quantifier changes nothing. *)
Lemma quantifier_fuel_enough ic r gs greedy c mn mx x : forall extra,
  repeatMatcher (matcher ic r) gs greedy c (S (mn + length (rest x)) + extra) mn mx x =
  repeatMatcher (matcher ic r) gs greedy c (S (mn + length (rest x))) mn mx x.
Proof.
  induction extra as [|extra IH]; [rewrite Nat.add_0_r; reflexivity|].
  rewrite Nat.add_succ_r, repeatMatcher_fuel; [exact IH | apply matcher_ext | lia].
Qed.

Lemma searchFrom_ahead ic r : forall inp p i s from y,
  searchFrom ic r p inp i = Some (s, from, y) ->
  i <= s /\ s <= endIndex y /\ endIndex y + length (rest y) = i + length inp.
Proof.
  intros inp p i s from y H. apply searchFrom_bounds in H. tauto.
Qed.

Lemma execLoop_S fuel ic r p inp i :
  execLoop (S fuel) ic r p inp i =
  match searchFrom ic r p inp i with
  | None => Some []
  | Some (s, from, y) =>
      if endIndex y =? s then None
      else option_map (cons (mkMatch s (matchedText s from y)))
                      (execLoop fuel ic r (prev y) (rest y) (endIndex y))
  end.
Proof. reflexivity. Qed.

Lemma matchLoop_S fuel ic r p inp i :
  matchLoop (S fuel) ic r p inp i =
  match searchFrom ic r p inp i with
  | None => []
  | Some (s, from, y) =>
      matchedText s from y ::
      (if endIndex y =? s then
         match rest y with
         | [] => []
         | ch :: tl => matchLoop fuel ic r (Some ch) tl (S (endIndex y))
         end
       else matchLoop fuel ic r (prev y) (rest y) (endIndex y))
  end.
Proof. reflexivity. Qed.

(** The rounds of the [exec] loop and of [match] are within their fuel. *)
Lemma execLoop_fuel ic r : forall fuel p inp i,
  length inp < fuel ->
  execLoop (S fuel) ic r p inp i = execLoop fuel ic r p inp i.
Proof.
  induction fuel as [|fuel IH]; intros p inp i Hlt; [lia|].
  rewrite (execLoop_S (S fuel)), (execLoop_S fuel).
  destruct (searchFrom ic r p inp i) as [[[s from] y]|] eqn:E; [|reflexivity].
  apply searchFrom_ahead in E as (H1 & H2 & H3).
  destruct (endIndex y =? s) eqn:Eq; [reflexivity|].
  apply Nat.eqb_neq in Eq. rewrite IH by lia. reflexivity.
Qed.

Lemma matchLoop_fuel ic r : forall fuel p inp i,
  length inp < fuel ->
  matchLoop (S fuel) ic r p inp i = matchLoop fuel ic r p inp i.
Proof.
  induction fuel as [|fuel IH]; intros p inp i Hlt; [lia|].
  rewrite (matchLoop_S (S fuel)), (matchLoop_S fuel).
  destruct (searchFrom ic r p inp i) as [[[s from] y]|] eqn:E; [|reflexivity].
  apply searchFrom_ahead in E as (H1 & H2 & H3). f_equal.
  destruct (endIndex y =? s) eqn:Eq.
  - destruct (rest y) as [|ch tl] eqn:Er; [reflexivity|].
    simpl in H3. rewrite IH by lia. reflexivity.
  - apply Nat.eqb_neq in Eq. rewrite IH by lia. reflexivity.
Qed.


(** ** The analysis of a file *)

Lemma patternIssues_total p filePath quiet lines i :
  consuming (source (Pattern.pattern p)) = true ->
  exists bs, patternIssues p filePath quiet lines i = Some bs.
Proof.
  intros Hc. unfold patternIssues. destruct (skipPattern p filePath); [eauto|].
  destruct (execAll_total (Pattern.pattern p) (line_at lines i) Hc) as [ms Hms].
  rewrite Hms. eauto.
Qed.

(** What an issue pushed by the pattern loop looks like. *)
Lemma patternIssues_inv p filePath quiet lines i bs b :
  patternIssues p filePath quiet lines i = Some bs -> In b bs ->
  skipPattern p filePath = false /\
  exists ms m, execAll (Pattern.pattern p) (line_at lines i) = Some ms /\ In m ms /\
               skipMatch p filePath quiet lines i m = false /\
               b = issueOf p filePath (i + 1) m.
Proof.
  unfold patternIssues. destruct (skipPattern p filePath) eqn:Es.
  - intros H; inversion H; subst bs. intros [].
  - destruct (execAll _ _) as [ms|] eqn:Em; [|discriminate].
    intros H; inversion H; subst bs; clear H. intros Hb.
    apply in_map_iff in Hb as (m & Hm & Hin). apply filter_In in Hin as [Hin Hk].
    split; [reflexivity|]. exists ms, m. repeat split; auto.
    now apply negb_true_iff in Hk.
Qed.

Lemma nested_issue_type filePath lines i n line b :
  In b (analyzeComplexNestedConditionals filePath lines i n line) ->
  Issue.type b = "complex_nested_conditionals" /\ Issue.line b = n /\
  Issue.file b = filePath /\ Issue.severity b = medium.
Proof.
  unfold analyzeComplexNestedConditionals. intros H. apply in_app_iff in H as [H|H].
  - destruct (_ || _) in H; [|destruct H].
    destruct H as [H|[]]; subst b; simpl; auto.
  - destruct (stringSearch line nonSpace) as [ind|]; [|destruct H].
    destruct (_ && _) in H; [|destruct H].
    destruct (_ && _) in H; [|destruct H].
    destruct H as [H|[]]; subst b; simpl; auto.
Qed.

Lemma filter_nil_iff {A} (f : A -> bool) l :
  (forall a, In a l -> f a = false) -> filter f l = [].
Proof.
  induction l as [|a l IH]; intros H; simpl; [reflexivity|].
  rewrite (H a (or_introl eq_refl)). apply IH. intros; apply H; right; assumption.
Qed.

Lemma filter_all {A} (f : A -> bool) l :
  (forall a, In a l -> f a = true) -> filter f l = l.
Proof.
  induction l as [|a l IH]; intros H; simpl; [reflexivity|].
  rewrite (H a (or_introl eq_refl)). f_equal. apply IH. intros; apply H; right; assumption.
Qed.

(** The issues of one line: those of the pattern loop, then those of the
    nested-control heuristic, which are exactly the ones of that type. *)
Lemma analyzeLine_nested patterns filePath quiet lines i bs :
  analyzeLine patterns filePath quiet lines i = Some bs ->
  filter isNestedControl bs =
  analyzeComplexNestedConditionals filePath lines i (i + 1) (line_at lines i).
Proof.
  unfold analyzeLine. destruct (collect _ patterns) as [found|] eqn:Ec; [|discriminate].
  intros H; inversion H; subst bs; clear H. rewrite filter_app.
  rewrite (filter_nil_iff isNestedControl found).
  - simpl. apply filter_all. intros b Hb. apply nested_issue_type in Hb as (Ht & _).
    unfold isNestedControl. rewrite Ht. reflexivity.
  - intros b Hb. apply (collect_In _ _ _ b Ec) in Hb as (p & bs' & _ & Hp & Hb).
    destruct (patternIssues_inv _ _ _ _ _ _ _ Hp Hb) as (Hs & ms & m & _ & _ & _ & ->).
    unfold skipPattern in Hs. apply orb_false_iff in Hs as [_ Hs].
    unfold isNestedControl, issueOf; simpl. exact Hs.
Qed.

Lemma collect_flat_map {A B} (f : A -> option (list B)) (g : A -> list B) l :
  (forall a, In a l -> f a = Some (g a)) -> collect f l = Some (flat_map g l).
Proof.
  induction l as [|a l IH]; intros H; simpl; [reflexivity|].
  rewrite (H a (or_introl eq_refl)). rewrite IH; [reflexivity|].
  intros; apply H; right; assumption.
Qed.

Lemma collect_each {A B} (f : A -> option (list B)) l bs a :
  collect f l = Some bs -> In a l -> exists bs', f a = Some bs'.
Proof.
  revert bs. induction l as [|a' l IH]; intros bs H Ha; [destruct Ha|].
  simpl in H. destruct (f a') as [bs0|] eqn:Ea; [|discriminate].
  destruct (collect f l) as [rest|] eqn:El; [|discriminate].
  destruct Ha as [->|Ha]; [eauto|]. eapply IH; eauto.
Qed.

Lemma analyzeLines_nested patterns filePath quiet lines issues :
  analyzeLines patterns filePath quiet lines = Some issues ->
  filter isNestedControl issues = nestedFindings filePath lines.
Proof.
  unfold analyzeLines, nestedFindings. intros H.
  pose proof (collect_filter _ isNestedControl _ _ H) as Hf.
  rewrite (collect_flat_map _
             (fun i => analyzeComplexNestedConditionals filePath lines i (i + 1) (line_at lines i)))
    in Hf.
  - inversion Hf. reflexivity.
  - intros i Hi. destruct (collect_each _ _ _ i H Hi) as [bs Hbs].
    rewrite Hbs. simpl. f_equal. eapply analyzeLine_nested; eauto.
Qed.

Lemma analyzeLine_total patterns filePath quiet lines i :
  terminating patterns = true ->
  exists bs, analyzeLine patterns filePath quiet lines i = Some bs.
Proof.
  intros Ht. unfold analyzeLine.
  destruct (collect_total (fun p => patternIssues p filePath quiet lines i) patterns) as [found Hf].
  - intros p Hp. apply patternIssues_total.
    unfold terminating in Ht. rewrite forallb_forall in Ht. auto.
  - rewrite Hf. eauto.
Qed.

Lemma analyzeLines_total patterns filePath quiet lines :
  terminating patterns = true ->
  exists issues, analyzeLines patterns filePath quiet lines = Some issues.
Proof.
  intros Ht. unfold analyzeLines. apply collect_total.
  intros i _. apply analyzeLine_total; assumption.
Qed.

(** ** Quiet mode in test files *)

Lemma collect_nil {A B} (f : A -> option (list B)) l :
  (forall a, In a l -> f a = Some []) -> collect f l = Some [].
Proof.
  induction l as [|a l IH]; intros H; simpl; [reflexivity|].
  rewrite (H a (or_introl eq_refl)). rewrite IH; [reflexivity|].
  intros; apply H; right; assumption.
Qed.

Lemma patternIssues_quiet_test p filePath lines i :
  consuming (source (Pattern.pattern p)) = true ->
  negb (idIs p "production_console_log") || Pattern.skipTests p = true ->
  isTestFile filePath = true ->
  patternIssues p filePath true lines i = Some [].
Proof.
  intros Hc Hex Ht. unfold patternIssues.
  destruct (skipPattern p filePath) eqn:Es; [reflexivity|].
  destruct (execAll_total (Pattern.pattern p) (line_at lines i) Hc) as [ms Hms].
  rewrite Hms. f_equal.
  rewrite filter_nil_iff; [reflexivity|]. intros m _.
  apply negb_false_iff. unfold skipMatch, skipMatchWith, quietTestFile.
  unfold skipPattern in Es. rewrite Ht in Es.
  apply orb_false_iff in Es as [Es _]. apply orb_false_iff in Es as [Es _].
  rewrite andb_true_r in Es. rewrite Es, orb_false_r in Hex.
  rewrite Hex, Ht. simpl. repeat rewrite orb_true_r. reflexivity.
Qed.

(** C1, as the code has it.  In a file categorized as a test file and
    scanned in quiet mode, no rule of the registry reports anything: the
    quiet-mode check spares the production-logging rule only, and that
    rule is exempt in test files, so its findings are not reported
    either.  What the run returns is the findings of the nested-control
    heuristic, which is not a rule of the registry. *)
Theorem quiet_test_file_reports_no_rule :
  forall patterns filePath lines,
    terminating patterns = true ->
    loggingTestExempt patterns = true ->
    isTestFile filePath = true ->
    analyzeLines patterns filePath true lines = Some (nestedFindings filePath lines).
Proof.
  intros patterns filePath lines Hterm Hex Ht.
  unfold analyzeLines, nestedFindings. apply collect_flat_map. intros i _.
  unfold analyzeLine. rewrite collect_nil; [reflexivity|].
  intros p Hp. unfold terminating, loggingTestExempt in *.
  rewrite forallb_forall in Hterm, Hex.
  apply patternIssues_quiet_test; auto.
Qed.

Lemma quiet_test_file_reports_no_rule_witness :
  analyzeLines detectionPatterns "app/__tests__/cart.test.ts" true
    ["const total: any = 1; // TODO"; "console.log(total);"]
  = Some (nestedFindings "app/__tests__/cart.test.ts"
            ["const total: any = 1; // TODO"; "console.log(total);"]).
Proof.
  apply (quiet_test_file_reports_no_rule detectionPatterns "app/__tests__/cart.test.ts"
           ["const total: any = 1; // TODO"; "console.log(total);"]);
    vm_compute; reflexivity.
Defined.

(** C1 as stated fails: the production-logging rule matches the line
    and reports it in a file outside the tests, but in a test file under
    quiet mode nothing is reported for it. *)
Lemma quiet_test_file_drops_console_log :
  isTestFile "app/__tests__/cart.ts" = true /\
  execAll (Pattern.pattern production_console_log) "console.log(total);"
    = Some [mkMatch 0 "console.log("] /\
  analyzeLines detectionPatterns "app/cart.ts" true ["console.log(total);"]
    = Some [issueOf production_console_log "app/cart.ts" 1 (mkMatch 0 "console.log(")] /\
  analyzeLines detectionPatterns "app/__tests__/cart.ts" true ["console.log(total);"]
    = Some [].
Proof. vm_compute. repeat split; reflexivity. Qed.

(** ** A list of imported names *)

(** C2, at the scenario's input.  The line imports two names; the pattern
    of the rule takes one name between the braces, so nothing is
    reported, while the same import of [useRouter] alone gives the one
    critical issue. *)
Theorem import_list_from_react_not_reported :
  analyzeFile detectionPatterns "src/page.tsx" "import { useRouter, Link } from 'react';" false
    = Some [] /\
  analyzeFile detectionPatterns "src/page.tsx" "import { useRouter } from 'react';" false
    = Some [Issue.mk "hallucinated_react_import" "src/page.tsx" 1 1
              "import { useRouter } from 'react'"
              (Pattern.message hallucinated_react_import ++ " (" ++
               Pattern.description hallucinated_react_import ++ ")")
              critical].
Proof. vm_compute. split; reflexivity. Qed.

(** ** The nested-control heuristic *)

Lemma stringMatch_found line re :
  found (stringMatch line re) = (0 <? countMatches line re).
Proof.
  unfold countMatches, stringMatch. destruct (matchLoop _ _ _ _ _ _); reflexivity.
Qed.

Lemma stringMatch_several line re :
  several (stringMatch line re) = (1 <? countMatches line re).
Proof.
  unfold countMatches, stringMatch. destruct (matchLoop _ _ _ _ _ _); reflexivity.
Qed.

Lemma two_openers (a b c : nat) :
  (1 <? a) || (1 <? b) || (1 <? c) ||
  ((0 <? a) && ((0 <? b) || (0 <? c))) || ((0 <? b) && (0 <? c))
  = (2 <=? a + b + c).
Proof.
  destruct a as [|[|a]], b as [|[|b]], c as [|[|c]]; try reflexivity;
    cbn [Nat.ltb Nat.leb orb andb]; symmetry;
    try (rewrite !orb_true_r);
    try reflexivity;
    apply Nat.leb_le; lia.
Qed.

(** C9, as the code has it.  The heuristic pushes one medium issue
    when the line has two or more control openers ([if], [for], [while],
    then optional white space and a parenthesis), counted together over
    the three kinds, and, independently, one medium issue when the line
    is indented by at least 16 columns, contains the text [if (],
    [for (] or [while (] with its one space, does not start with [//]
    once trimmed and contains no [=>]; and nothing else. *)
Theorem nested_control_triggers :
  forall filePath lines lineIndex lineNumber line,
    analyzeComplexNestedConditionals filePath lines lineIndex lineNumber line =
    (if 2 <=? controlOpeners line
     then [Issue.mk "complex_nested_conditionals" filePath lineNumber 1 (trim line)
                    nestedInLineMessage medium]
     else [])
    ++
    (match stringSearch line nonSpace with
     | Some indentation =>
         if deeplyIndentedOpener line indentation
         then [Issue.mk "complex_nested_conditionals" filePath lineNumber (indentation + 1)
                        (trim line) deepIndentMessage medium]
         else []
     | None => []
     end).
Proof.
  intros filePath lines lineIndex lineNumber line.
  unfold analyzeComplexNestedConditionals, controlOpeners.
  rewrite !stringMatch_found, !stringMatch_several, two_openers.
  f_equal. destruct (stringSearch line nonSpace) as [ind|]; [|reflexivity].
  unfold deeplyIndentedOpener.
  destruct (16 <=? ind); simpl; [|reflexivity].
  destruct (includes line "if (" || includes line "for (" || includes line "while (");
    simpl; reflexivity.
Qed.


(** C9 as stated fails for the second trigger: a line indented by 16
    columns that opens an [if] written without a space is an opener for
    the first trigger and is not one for the second, so nothing is
    reported for it. *)
Lemma deep_opener_without_space_not_reported :
  let line := "                if(ready) {" in
  stringSearch line nonSpace = Some 16 /\
  controlOpeners line = 1 /\
  startsWith (trim line) "//" = false /\
  includes (trim line) "=>" = false /\
  analyzeComplexNestedConditionals "app/cart.ts" [line] 0 1 line = [] /\
  analyzeComplexNestedConditionals "app/cart.ts" ["                if (ready) {"] 0 1
                                   "                if (ready) {"
    = [Issue.mk "complex_nested_conditionals" "app/cart.ts" 1 17 "if (ready) {"
                deepIndentMessage medium].
Proof. vm_compute. repeat split; reflexivity. Qed.

(** ** The nested-control findings are never filtered *)

Lemma builtin_rules_terminating : terminating detectionPatterns = true.
Proof. vm_compute. reflexivity. Qed.

(** What the heuristic pushes for a line that meets a trigger. *)
Lemma nested_trigger_findings filePath lines lineIndex lineNumber line :
  ((2 <=? controlOpeners line) = true ->
   In (Issue.mk "complex_nested_conditionals" filePath lineNumber 1 (trim line)
                nestedInLineMessage medium)
      (analyzeComplexNestedConditionals filePath lines lineIndex lineNumber line)) /\
  (forall indentation,
      stringSearch line nonSpace = Some indentation ->
      deeplyIndentedOpener line indentation = true ->
      In (Issue.mk "complex_nested_conditionals" filePath lineNumber (indentation + 1)
                   (trim line) deepIndentMessage medium)
         (analyzeComplexNestedConditionals filePath lines lineIndex lineNumber line)).
Proof.
  unfold analyzeComplexNestedConditionals, controlOpeners.
  rewrite !stringMatch_found, !stringMatch_several, two_openers. split.
  - intros H. unfold controlOpeners in H. rewrite H.
    apply in_or_app. left. left. reflexivity.
  - intros indentation Hs Hd. rewrite Hs. apply in_or_app. right.
    unfold deeplyIndentedOpener in Hd.
    apply andb_true_iff in Hd as [Hd Harrow]. apply andb_true_iff in Hd as [Hd Hcomment].
    rewrite Hd, Hcomment, Harrow. left. reflexivity.
Qed.

(** A scan that returns holds the issue of every line that meets a
    trigger. *)
Lemma analyzeLines_emits patterns filePath quiet lines issues :
  analyzeLines patterns filePath quiet lines = Some issues ->
  nestedIssuesEmitted filePath lines issues.
Proof.
  intros H i Hi.
  assert (Hin : forall issue,
            In issue (analyzeComplexNestedConditionals filePath lines i (i + 1) (line_at lines i)) ->
            In issue issues).
  { intros issue Hissue.
    assert (Hf : In issue (filter isNestedControl issues)).
    { rewrite (analyzeLines_nested _ _ _ _ _ H). unfold nestedFindings.
      apply in_flat_map. exists i. split; [apply in_seq; lia | exact Hissue]. }
    apply filter_In in Hf. tauto. }
  destruct (nested_trigger_findings filePath lines i (i + 1) (line_at lines i)) as [Ha Hb].
  split.
  - intros Ht. apply Hin, Ha, Ht.
  - intros indentation Hs Hd. apply Hin. exact (Hb indentation Hs Hd).
Qed.

(** C10.  Whatever the file path (a test, mock or declaration file
    included), quiet mode or not, and whatever the lines carry
    (acknowledgment markers included), the scan with the built-in rules
    returns, and for every line that meets a trigger of the
    nested-control heuristic the issue of that trigger is in its
    result: the issue of the first trigger for a line with two or more
    control openers, the issue of the second for a deeply indented
    opener.  The issues of that kind in the result are exactly the
    findings of the heuristic, in line order.  The same holds of every
    scan that returns, whatever the registry. *)
Theorem nested_control_bypasses_suppression :
  forall filePath quiet lines,
    (exists issues,
        analyzeLines detectionPatterns filePath quiet lines = Some issues /\
        nestedIssuesEmitted filePath lines issues /\
        filter isNestedControl issues = nestedFindings filePath lines) /\
    (forall patterns issues,
        analyzeLines patterns filePath quiet lines = Some issues ->
        nestedIssuesEmitted filePath lines issues /\
        filter isNestedControl issues = nestedFindings filePath lines).
Proof.
  intros filePath quiet lines. split.
  - destruct (analyzeLines_total detectionPatterns filePath quiet lines
                builtin_rules_terminating) as [issues H].
    exists issues. split; [exact H|]. split.
    + exact (analyzeLines_emits _ _ _ _ _ H).
    + exact (analyzeLines_nested _ _ _ _ _ H).
  - intros patterns issues H. split.
    + exact (analyzeLines_emits _ _ _ _ _ H).
    + exact (analyzeLines_nested _ _ _ _ _ H).
Qed.

Lemma nested_control_bypasses_suppression_witness :
  let filePath := "app/__tests__/types.test.d.ts" in
  let line := "                if (a) { while (b) { c(); } } // @ts-ignore" in
  let lines := ["// eslint-disable-next-line"; line] in
  exists issues,
    analyzeLines detectionPatterns filePath true lines = Some issues /\
    In (Issue.mk "complex_nested_conditionals" filePath 2 1 (trim line)
                 nestedInLineMessage medium) issues /\
    In (Issue.mk "complex_nested_conditionals" filePath 2 17 (trim line)
                 deepIndentMessage medium) issues.
Proof.
  intros filePath line lines.
  destruct (nested_control_bypasses_suppression filePath true lines)
    as [(issues & H & Hm & _) _].
  exists issues. split; [exact H|].
  assert (Hi : 1 < length lines) by (simpl; lia).
  destruct (Hm 1 Hi) as [Ha Hb]. split.
  - apply Ha. vm_compute. reflexivity.
  - apply (Hb 16); vm_compute; reflexivity.
Defined.

(** ** The score *)

Lemma lookupWeight_find table key :
  lookupWeight table key = option_map snd (find (fun e => String.eqb (fst e) key) table).
Proof.
  induction table as [|[k w] table IH]; simpl; [reflexivity|].
  destruct (String.eqb k key); [reflexivity | exact IH].
Qed.

(** The table of the code is the table of the statement. *)
Lemma weights_listed : weights = listedWeights.
Proof. reflexivity. Qed.

Lemma listedWeights_range e : In e listedWeights -> 3 <= snd e <= 30.
Proof.
  unfold listedWeights. simpl. intros H.
  repeat (destruct H as [H|H]; [subst e; simpl; lia|]). destruct H.
Qed.


(** For a type that is no member of the prototype the read gives the
    weight of the table, or 3. *)
Lemma weightOf_own type :
  isInherited type = false -> weightOf type = Points (ruleWeight type).
Proof.
  intros H. unfold weightOf, ruleWeight. rewrite lookupWeight_find, weights_listed.
  destruct (find _ listedWeights) as [e|] eqn:E; cbn [option_map].
  - apply find_some in E as [Hin _]. apply listedWeights_range in Hin.
    destruct (snd e); [lia | reflexivity].
  - rewrite H. reflexivity.
Qed.

(** For a member of the prototype the read gives the member. *)
Lemma weightOf_inherited type :
  isInherited type = true -> weightOf type = Inherited type.
Proof.
  intros H. unfold weightOf.
  assert (Hnone : forallb (fun key => negb (existsb (fun e => String.eqb (fst e) key) weights))
                          inheritedKeys = true) by (vm_compute; reflexivity).
  rewrite forallb_forall in Hnone.
  unfold isInherited in H. apply existsb_exists in H as (key & Hkey & Ek).
  apply String.eqb_eq in Ek. subst key. specialize (Hnone type Hkey).
  apply negb_true_iff in Hnone. rewrite lookupWeight_find.
  destruct (find _ weights) as [e|] eqn:E.
  - apply find_some in E as [Hin He].
    assert (existsb (fun e => String.eqb (fst e) type) weights = true); [|congruence].
    apply existsb_exists. exists e. split; assumption.
  - cbn [option_map]. unfold isInherited.
    replace (existsb (String.eqb type) inheritedKeys) with true; [reflexivity|].
    symmetry. apply existsb_exists. exists type. split; [exact Hkey | apply String.eqb_refl].
Qed.

Lemma axisWeight_cons a i issues :
  axisWeight a (i :: issues) =
  (if Axis_eqb (axisOf (Issue.type i)) a then ruleWeight (Issue.type i) else 0) +
  axisWeight a issues.
Proof.
  unfold axisWeight. simpl. destruct (Axis_eqb _ _); reflexivity.
Qed.

(** One round of the scoring loop on numbers, for a type that is no
    member of the prototype. *)
Lemma scoreStep_numbers u q s i :
  isInherited (Issue.type i) = false ->
  let w := ruleWeight (Issue.type i) in
  let a := axisOf (Issue.type i) in
  scoreStep (mkAxes (Num u) (Num q) (Num s)) i =
  mkAxes (Num (u + (if Axis_eqb a UtilityAxis then w else 0)))
         (Num (q + (if Axis_eqb a QualityAxis then w else 0)))
         (Num (s + (if Axis_eqb a StyleAxis then w else 0))).
Proof.
  intros H. unfold scoreStep, axisOf. cbv zeta. rewrite (weightOf_own _ H).
  destruct (includes (Issue.type i) "hallucinated" || includes (Issue.type i) "todo" ||
            includes (Issue.type i) "assumption").
  - cbn. rewrite !Nat.add_0_r. reflexivity.
  - destruct (includes (Issue.type i) "comment" || includes (Issue.type i) "redundant" ||
              includes (Issue.type i) "boilerplate"); cbn; rewrite !Nat.add_0_r; reflexivity.
Qed.

Lemma score_fold issues : forall u q s,
  ownKeyTypes issues = true ->
  fold_left scoreStep issues (mkAxes (Num u) (Num q) (Num s)) =
  mkAxes (Num (u + axisWeight UtilityAxis issues))
         (Num (q + axisWeight QualityAxis issues))
         (Num (s + axisWeight StyleAxis issues)).
Proof.
  induction issues as [|i issues IH]; intros u q s Hown.
  - unfold axisWeight. simpl. rewrite !Nat.add_0_r. reflexivity.
  - cbn [ownKeyTypes forallb] in Hown. apply andb_true_iff in Hown as [Hi Hrest].
    apply negb_true_iff in Hi. cbn [fold_left].
    rewrite (scoreStep_numbers u q s i Hi). cbv zeta.
    rewrite (IH _ _ _ Hrest), !axisWeight_cons, !Nat.add_assoc. reflexivity.
Qed.

Lemma axisWeight_split issues :
  axisWeight UtilityAxis issues + axisWeight QualityAxis issues + axisWeight StyleAxis issues
  = list_sum (map (fun i => ruleWeight (Issue.type i)) issues).
Proof.
  induction issues as [|i issues IH]; [reflexivity|].
  rewrite !axisWeight_cons. simpl. rewrite <- IH.
  destruct (axisOf (Issue.type i)); simpl; lia.
Qed.

(** The breakdown of a list in which no type is named like a member of
    the prototype. *)
Lemma score_by_axes issues :
  ownKeyTypes issues = true ->
  calculateKarpeSlopScore issues =
  mkScore (Num (axisWeight UtilityAxis issues)) (Num (axisWeight QualityAxis issues))
          (Num (axisWeight StyleAxis issues))
          (Num (axisWeight UtilityAxis issues + axisWeight QualityAxis issues +
                axisWeight StyleAxis issues)).
Proof.
  intros Hown. unfold calculateKarpeSlopScore. cbv zeta.
  rewrite (score_fold issues 0 0 0 Hown). reflexivity.
Qed.

(** C4.  For a list of issues none of whose types is named like a
    member of [Object.prototype], the breakdown is as claimed: each axis
    holds the sum of the weights of the issues classified on it (quality
    for an id that contains [hallucinated], [todo] or [assumption], else
    utility for one that contains [comment], [redundant] or
    [boilerplate], else style), a weight being that of the fixed table
    and 3 for an unlisted id, and the total is their sum, which is the
    sum of all weights.  For a type named like such a member the claim
    fails: the read [weights[i.type]] finds the member, not a weight.
    A configuration with a custom rule of id [constructor] is accepted,
    its match is reported under that type, and the breakdown of that
    one issue holds no 3: style and total are strings. *)
Theorem score_total_and_axes :
  (forall issues,
      ownKeyTypes issues = true ->
      let s := calculateKarpeSlopScore issues in
      informationUtility s = Num (axisWeight UtilityAxis issues) /\
      informationQuality s = Num (axisWeight QualityAxis issues) /\
      style s = Num (axisWeight StyleAxis issues) /\
      total s = Num (axisWeight UtilityAxis issues + axisWeight QualityAxis issues +
                     axisWeight StyleAxis issues) /\
      axisWeight UtilityAxis issues + axisWeight QualityAxis issues +
      axisWeight StyleAxis issues =
      list_sum (map (fun i => ruleWeight (Issue.type i)) issues)) /\
  (let compileRegExp := fun src : string => Some (lit src) in
   let displayString := fun _ : value => EmptyString in
   let rule := JObject [("id", JString "constructor"); ("pattern", JString "new Foo");
                        ("message", JString "No constructor calls");
                        ("severity", JString "low")] in
   let cfg := JObject [("customPatterns", JArray [rule])] in
   let d := loadConfig compileRegExp displayString initialDetector [Parsed cfg] in
   let issue := Issue.mk "constructor" "src/app.ts" 1 1 "new Foo"
                         "No constructor calls (No constructor calls)" low in
   validateConfig compileRegExp cfg = Returned cfg /\
   analyzeFile (registry d) "src/app.ts" "new Foo();" false = Some [issue] /\
   calculateKarpeSlopScore [issue] =
     mkScore (Num 0) (Num 0) (Joined "0" "constructor" EmptyString)
             (Joined "00" "constructor" EmptyString) /\
   render (style (calculateKarpeSlopScore [issue])) =
     "0function Object() { [native code] }" /\
   render (total (calculateKarpeSlopScore [issue])) =
     "00function Object() { [native code] }").
Proof.
  split.
  - intros issues Hown s. subst s. rewrite (score_by_axes issues Hown).
    cbn [informationUtility informationQuality style total].
    repeat split; try reflexivity. apply axisWeight_split.
  - vm_compute. repeat split; reflexivity.
Qed.

(** ** Consolidation *)

Lemma addLocation_count key loc m :
  mapHas key m = true ->
  locationCount (addLocation key loc m) = S (locationCount m).
Proof.
  induction m as [|[k c] m IH]; simpl; [discriminate|].
  destruct (String.eqb k key); simpl.
  - intros _. unfold locationCount; simpl. rewrite length_app. simpl. lia.
  - intros H. unfold locationCount in *; simpl. rewrite IH by exact H. lia.
Qed.

Lemma consolidateStep_count m issue :
  locationCount (consolidateStep m issue) = S (locationCount m).
Proof.
  unfold consolidateStep. destruct (mapHas (issueKey issue) m) eqn:E.
  - apply addLocation_count; exact E.
  - unfold locationCount. rewrite map_app, list_sum_app. simpl. lia.
Qed.

Lemma consolidate_fold_count issues : forall m,
  locationCount (fold_left consolidateStep issues m) = locationCount m + length issues.
Proof.
  induction issues as [|i issues IH]; intros m; simpl; [lia|].
  rewrite IH, consolidateStep_count. lia.
Qed.

Lemma countOccurrences_sum cs : forall n,
  fold_left (fun sum c => sum + length (Consolidated.location c)) cs n
  = n + list_sum (map (fun c => length (Consolidated.location c)) cs).
Proof.
  induction cs as [|c cs IH]; intros n; simpl; [lia|]. rewrite IH. lia.
Qed.

(** No occurrence is dropped or counted twice: the location lists of the
    consolidated issues hold as many entries as there are issues. *)
Lemma consolidate_keeps_every_occurrence issues :
  countOccurrences (consolidateIssues issues) = length issues.
Proof.
  unfold countOccurrences, consolidateIssues. rewrite countOccurrences_sum. simpl.
  rewrite map_map. change (locationCount (fold_left consolidateStep issues []) = length issues).
  rewrite consolidate_fold_count. reflexivity.
Qed.

(** Issues that agree on the five fields have one key. *)
Lemma issueKey_same_fields a b :
  Issue.type a = Issue.type b -> Issue.file a = Issue.file b ->
  Issue.code a = Issue.code b -> Issue.message a = Issue.message b ->
  Issue.severity a = Issue.severity b ->
  issueKey a = issueKey b.
Proof. unfold issueKey. intros -> -> -> -> ->. reflexivity. Qed.

Lemma addLocation_keys key loc m : map fst (addLocation key loc m) = map fst m.
Proof.
  induction m as [|[k c] m IH]; simpl; [reflexivity|].
  destruct (String.eqb k key); simpl; [reflexivity | now rewrite IH].
Qed.

Lemma mapHas_In key m : mapHas key m = true <-> In key (map fst m).
Proof.
  induction m as [|[k c] m IH]; simpl; [split; [discriminate | intros []]|].
  rewrite orb_true_iff, IH, String.eqb_eq. tauto.
Qed.

(** The keys of the map stay pairwise distinct, so an issue is filed
    under the one entry that has its key. *)
Lemma consolidate_keys_distinct issues : forall m,
  NoDup (map fst m) -> NoDup (map fst (fold_left consolidateStep issues m)).
Proof.
  induction issues as [|i issues IH]; intros m Hm; simpl; [exact Hm|].
  apply IH. unfold consolidateStep.
  destruct (mapHas (issueKey i) m) eqn:E.
  - rewrite addLocation_keys. exact Hm.
  - rewrite map_app. simpl. apply NoDup_app; [exact Hm | repeat constructor; intros [] |].
    intros k Hk [<-|[]]. apply mapHas_In in Hk. congruence.
Qed.

(** *** Groups and their order *)

Lemma mapHas_existsb key m : mapHas key m = existsb (String.eqb key) (map fst m).
Proof.
  induction m as [|[k c] m IH]; simpl; [reflexivity|].
  rewrite IH, (String.eqb_sym k key). reflexivity.
Qed.

(** The entries stand in the order in which their keys first appear. *)
Lemma consolidate_fold_keys issues : forall m,
  map fst (fold_left consolidateStep issues m) =
  map fst m ++ firstSeen (map fst m) (map issueKey issues).
Proof.
  induction issues as [|i issues IH]; intros m; simpl; [now rewrite app_nil_r|].
  rewrite IH. unfold consolidateStep. rewrite mapHas_existsb.
  destruct (existsb (String.eqb (issueKey i)) (map fst m)).
  - rewrite addLocation_keys. reflexivity.
  - rewrite map_app. simpl. rewrite <- app_assoc. reflexivity.
Qed.

Lemma consolidate_first_seen_order issues :
  map fst (fold_left consolidateStep issues []) = firstSeen [] (map issueKey issues).
Proof. apply (consolidate_fold_keys issues []). Qed.

Lemma entryOf_addLocation key k loc m :
  entryOf k (addLocation key loc m) =
  if String.eqb key k then option_map (pushLocation loc) (entryOf k m) else entryOf k m.
Proof.
  induction m as [|[k0 c] m IH]; simpl; [destruct (String.eqb key k); reflexivity|].
  destruct (String.eqb k0 key) eqn:E0; simpl.
  - apply String.eqb_eq in E0. subst k0.
    destruct (String.eqb key k); reflexivity.
  - rewrite IH. destruct (String.eqb k0 k) eqn:E1; [|reflexivity].
    apply String.eqb_eq in E1. subst k0. rewrite String.eqb_sym, E0. reflexivity.
Qed.

Lemma entryOf_app key m e k :
  entryOf k (m ++ [(key, e)]) =
  match entryOf k m with
  | Some c => Some c
  | None => if String.eqb key k then Some e else None
  end.
Proof.
  induction m as [|[k0 c] m IH]; simpl; [reflexivity|].
  destruct (String.eqb k0 k); [reflexivity | exact IH].
Qed.

Lemma mapHas_entryOf key m : mapHas key m = true <-> exists c, entryOf key m = Some c.
Proof.
  induction m as [|[k c] m IH]; simpl.
  - split; [discriminate | intros [c H]; discriminate].
  - destruct (String.eqb k key); simpl; [split; eauto | exact IH].
Qed.

(** One round of the loop files the issue under its key and leaves the
    other entries alone. *)
Lemma consolidateStep_entry m issue k :
  entryOf k (consolidateStep m issue) = fileUnder k (entryOf k m) issue.
Proof.
  unfold consolidateStep, fileUnder.
  destruct (mapHas (issueKey issue) m) eqn:E.
  - rewrite entryOf_addLocation.
    destruct (String.eqb (issueKey issue) k) eqn:Ek; [|reflexivity].
    apply String.eqb_eq in Ek. subst k.
    apply mapHas_entryOf in E as [c Hc]. rewrite Hc. reflexivity.
  - rewrite entryOf_app.
    destruct (String.eqb (issueKey issue) k) eqn:Ek.
    + apply String.eqb_eq in Ek. subst k.
      destruct (entryOf (issueKey issue) m) as [c|] eqn:Hc; [|reflexivity].
      assert (mapHas (issueKey issue) m = true) by (apply mapHas_entryOf; eauto).
      congruence.
    + destruct (entryOf k m); reflexivity.
Qed.

Lemma consolidate_fold_entry issues k : forall m,
  entryOf k (fold_left consolidateStep issues m) =
  fold_left (fileUnder k) issues (entryOf k m).
Proof.
  induction issues as [|i issues IH]; intros m; simpl; [reflexivity|].
  rewrite IH, consolidateStep_entry. reflexivity.
Qed.

Lemma fileUnder_started issues k : forall c,
  fold_left (fileUnder k) issues (Some c) =
  Some (Consolidated.mk (Consolidated.type c) (Consolidated.file c) (Consolidated.code c)
                        (Consolidated.message c) (Consolidated.severity c)
                        (Consolidated.location c ++ locationsOf k issues)).
Proof.
  unfold locationsOf, issuesWithKey.
  induction issues as [|i issues IH]; intros c; simpl.
  - rewrite app_nil_r. destruct c; reflexivity.
  - unfold fileUnder at 2. destruct (String.eqb (issueKey i) k); simpl.
    + rewrite IH. unfold pushLocation; simpl. rewrite <- app_assoc. reflexivity.
    + apply IH.
Qed.

(** The entry of a key carries the five fields of the first issue that
    has the key and the locations of all the issues that have it, in the
    order of the issue list; a key no issue has gets no entry. *)
Lemma consolidate_entry issues k :
  entryOf k (fold_left consolidateStep issues []) =
  match issuesWithKey k issues with
  | [] => None
  | first :: _ =>
      Some (Consolidated.mk (Issue.type first) (Issue.file first) (Issue.code first)
                            (Issue.message first) (Issue.severity first)
                            (locationsOf k issues))
  end.
Proof.
  rewrite consolidate_fold_entry. simpl. unfold locationsOf, issuesWithKey.
  induction issues as [|i issues IH]; simpl; [reflexivity|].
  unfold fileUnder at 2. destruct (String.eqb (issueKey i) k); simpl.
  - rewrite fileUnder_started. reflexivity.
  - exact IH.
Qed.

(** C3, at two files the scan can meet.  The line of the first file and
    the name of the second make two issues of the magic-value rule that
    differ in file and in matched text and still have the same key,
    because the key joins the fields with a character they may contain.
    Consolidation files both under the first one's entry. *)
Theorem consolidation_merges_distinct_issues :
  let files := [("/repo/src/a.ts", "color: rgb(x.ts|rgb(2)");
                ("/repo/src/a.ts|rgb(x.ts", "rgb(2)")] in
  exists first second,
    analyzeFiles detectionPatterns files false = Some [first; second] /\
    Issue.file first = "/repo/src/a.ts" /\
    Issue.code first = "rgb(x.ts|rgb(2)" /\
    Issue.file second = "/repo/src/a.ts|rgb(x.ts" /\
    Issue.code second = "rgb(2)" /\
    issueKey first = issueKey second /\
    consolidateIssues [first; second] =
      [Consolidated.mk (Issue.type first) (Issue.file first) (Issue.code first)
                       (Issue.message first) (Issue.severity first) ["1:8"; "1:1"]].
Proof.
  intros files.
  exists (issueOf magic_css_value "/repo/src/a.ts" 1 (mkMatch 7 "rgb(x.ts|rgb(2)")),
         (issueOf magic_css_value "/repo/src/a.ts|rgb(x.ts" 1 (mkMatch 0 "rgb(2)")).
  vm_compute. repeat split; reflexivity.
Qed.


(** ** Configuration validation *)

Lemma append_assoc (a b c : string) : ((a ++ b) ++ c = a ++ b ++ c)%string.
Proof. induction a as [|ch a IH]; simpl; [reflexivity | now rewrite IH]. Qed.

Section ConfigFacts.
Variable compileRegExp : string -> option regex.
Variable displayString : value -> string.






End ConfigFacts.





(** ** Acknowledgment markers *)



(** An issue in the result comes from one line: either from a rule of
    the registry on a match that no check skipped, or from the
    nested-control heuristic. *)
Lemma analyzeLines_issue_origin patterns filePath quiet lines issues issue :
  analyzeLines patterns filePath quiet lines = Some issues ->
  In issue issues ->
  exists i, i < length lines /\
    ((exists p ms m,
        In p patterns /\ skipPattern p filePath = false /\
        execAll (Pattern.pattern p) (line_at lines i) = Some ms /\ In m ms /\
        skipMatch p filePath quiet lines i m = false /\
        issue = issueOf p filePath (i + 1) m) \/
     In issue (analyzeComplexNestedConditionals filePath lines i (i + 1) (line_at lines i))).
Proof.
  unfold analyzeLines. intros H Hin.
  apply (collect_In _ _ _ issue H) in Hin as (i & bs & Hi & Hline & Hb).
  apply in_seq in Hi. exists i. split; [lia|].
  unfold analyzeLine in Hline.
  destruct (collect _ patterns) as [found|] eqn:Ec; [|discriminate].
  inversion Hline; subst bs; clear Hline.
  apply in_app_iff in Hb as [Hb|Hb]; [left | right; exact Hb].
  apply (collect_In _ _ _ issue Ec) in Hb as (p & bs' & Hp & Hpi & Hb).
  destruct (patternIssues_inv _ _ _ _ _ _ _ Hpi Hb) as (Hs & ms & m & Hex & Hm & Hk & ->).
  exists p, ms, m. repeat split; auto.
Qed.

(** A match that no check skips is in the result. *)
Lemma analyzeLines_reports patterns filePath quiet lines issues i p ms m :
  analyzeLines patterns filePath quiet lines = Some issues ->
  i < length lines -> In p patterns -> skipPattern p filePath = false ->
  execAll (Pattern.pattern p) (line_at lines i) = Some ms -> In m ms ->
  skipMatch p filePath quiet lines i m = false ->
  In (issueOf p filePath (i + 1) m) issues.
Proof.
  unfold analyzeLines. intros H Hi Hp Hs Hex Hm Hk.
  assert (Hseq : In i (seq 0 (length lines))) by (apply in_seq; lia).
  destruct (collect_each _ _ _ i H Hseq) as [bs Hbs].
  apply (collect_In _ _ _ (issueOf p filePath (i + 1) m) H).
  exists i, bs. repeat split; auto.
  unfold analyzeLine in Hbs.
  destruct (collect _ patterns) as [found|] eqn:Ec; [|discriminate].
  inversion Hbs; subst bs; clear Hbs. apply in_app_iff; left.
  destruct (collect_each _ _ _ p Ec Hp) as [bs' Hbs'].
  apply (collect_In _ _ _ (issueOf p filePath (i + 1) m) Ec).
  exists p, bs'. repeat split; auto.
  unfold patternIssues in Hbs' |- *. rewrite Hs, Hex in Hbs'.
  inversion Hbs'; subst bs'. apply in_map. apply filter_In. split; [exact Hm|].
  rewrite Hk. reflexivity.
Qed.





(** ** The try/catch enclosure test *)

Lemma catchInto_bounds lines idx : forall k c,
  k <= idx -> catchInto lines idx k = Some c -> idx - k < c /\ c <= idx.
Proof.
  induction k as [|k IH]; intros c Hk H; simpl in H; [discriminate|].
  destruct (includes (line_at lines (idx - k)) "catch (").
  - inversion H; subst c. lia.
  - apply IH in H; lia.
Qed.

(** The variable [catchBlockStartLine] is above the current line exactly
    when a line after it contains [catch (]. *)
Lemma catchSeenAfter_into lines idx : forall k,
  k <= idx ->
  catchSeenAfter (catchInto lines idx k) (idx - k) = catchBetween lines (idx - k) idx.
Proof.
  unfold catchBetween. induction k as [|k IH]; intros Hk.
  - simpl. rewrite Nat.sub_0_r, Nat.sub_diag. reflexivity.
  - replace (idx - (idx - S k)) with (S k) by lia.
    replace (S (idx - S k)) with (idx - k) by lia.
    cbn [seq existsb catchInto].
    destruct (includes (line_at lines (idx - k)) "catch (") eqn:E; simpl.
    + apply Nat.ltb_lt. lia.
    + specialize (IH ltac:(lia)).
      replace (idx - (idx - k)) with k in IH by lia.
      rewrite <- IH.
      destruct (catchInto lines idx k) as [c|] eqn:Ec; [|reflexivity].
      apply catchInto_bounds in Ec; [|lia]. simpl.
      transitivity true; [apply Nat.ltb_lt; lia | symmetry; apply Nat.ltb_lt; lia].
Qed.

(** One round of the scan decides as [returnsAt] says. *)
Lemma tryCatchScan_round lines idx i :
  i <= idx ->
  tryCatchScan lines i (depthInto lines idx (idx - i)) (catchInto lines idx (idx - i)) =
  returnsAt lines idx i ||
  match i with
  | 0 => false
  | S i' => tryCatchScan lines i' (depthInto lines idx (idx - i'))
                         (catchInto lines idx (idx - i'))
  end.
Proof.
  intros Hi.
  assert (Hseen : forall b : bool,
    catchSeenAfter (if b then Some i else catchInto lines idx (idx - i)) i
    = negb b && catchBetween lines i idx).
  { intros [|]; simpl.
    - apply Nat.ltb_irrefl.
    - pose proof (catchSeenAfter_into lines idx (idx - i) ltac:(lia)) as H.
      replace (idx - (idx - i)) with i in H by lia. exact H. }
  assert (Hnext : forall i', i = S i' ->
    depthInto lines idx (idx - i') =
      nextDepth (depthInto lines idx (idx - i)) (line_at lines i) /\
    catchInto lines idx (idx - i') =
      (if includes (line_at lines i) "catch (" then Some i
       else catchInto lines idx (idx - i))).
  { intros i' ->. replace (idx - i') with (S (idx - S i')) by lia.
    cbn [depthInto catchInto]. replace (idx - (idx - S i')) with (S i') by lia. auto. }
  unfold returnsAt, depthAfterRound. cbn [depthInto].
  replace (idx - (idx - i)) with i by lia.
  destruct i as [|i']; cbn [tryCatchScan].
  - rewrite Hseen.
    destruct (catchOpensAt lines 0); [reflexivity|].
    destruct (includes (line_at lines 0) "catch ("); simpl.
    + rewrite !andb_false_r. reflexivity.
    + destruct (catchBetween lines 0 idx); simpl; [|rewrite !andb_false_r; reflexivity].
      rewrite !andb_true_r.
      destruct (tryOpensAt lines 0); simpl; [reflexivity|].
      destruct (_ =? 0); reflexivity.
  - destruct (Hnext i' eq_refl) as [Hd Hc]. rewrite Hd, Hc, Hseen.
    destruct (catchOpensAt lines (S i')); [reflexivity|].
    destruct (includes (line_at lines (S i')) "catch ("); simpl.
    + rewrite !andb_false_r. reflexivity.
    + destruct (catchBetween lines (S i') idx); simpl; [|rewrite !andb_false_r; reflexivity].
      rewrite !andb_true_r.
      destruct (tryOpensAt lines (S i')); simpl; [reflexivity|].
      destruct (_ =? 0); reflexivity.
Qed.

Lemma tryCatchScan_spec lines idx : forall i,
  i <= idx ->
  tryCatchScan lines i (depthInto lines idx (idx - i)) (catchInto lines idx (idx - i)) =
  existsb (returnsAt lines idx) (seq 0 (S i)).
Proof.
  induction i as [|i IH]; intros Hi; rewrite tryCatchScan_round by exact Hi.
  - simpl. rewrite orb_false_r. reflexivity.
  - rewrite IH by lia. rewrite (seq_S (S i)), existsb_app. simpl.
    rewrite orb_false_r. apply orb_comm.
Qed.

(** The enclosure test is read by the console check only, and by it
    only for a line that contains [console.error(]. *)
Lemma skipMatchWith_enclosure_use tc1 tc2 p filePath quiet lines i m :
  idIs p "production_console_log" = false \/
  includes (trim (line_at lines i)) "console.error(" = false ->
  skipMatchWith tc1 p filePath quiet lines i m = skipMatchWith tc2 p filePath quiet lines i m.
Proof.
  intros H. unfold skipMatchWith, legitimateConsoleWith.
  destruct H as [H|H]; rewrite H; simpl; reflexivity.
Qed.

(** C5, as the code has it.  The enclosure test returns true exactly
    when some round of its backward scan, at a line [i] at or above the
    target, returns: either line [i] contains [catch (] and an opening
    brace stands on it or on one of the next four lines (the tracked
    depth plays no part in this case), or line [i] does not contain
    [catch (], a line after it up to the target does, and line [i] opens
    a try block or leaves the tracked depth at zero.  The test is read
    only by the console check of the production-logging rule, for a line
    containing [console.error(], and there a true answer keeps the match
    from being reported. *)
Theorem try_catch_enclosure_scan :
  forall lines lineIndex,
    isInTryCatchBlock lines lineIndex = existsb (returnsAt lines lineIndex) (seq 0 (S lineIndex)) /\
    (forall tc1 tc2 p filePath quiet i m,
        idIs p "production_console_log" = false \/
        includes (trim (line_at lines i)) "console.error(" = false ->
        skipMatchWith tc1 p filePath quiet lines i m =
        skipMatchWith tc2 p filePath quiet lines i m) /\
    (forall p filePath quiet m,
        idIs p "production_console_log" = true ->
        includes (trim (line_at lines lineIndex)) "console.error(" = true ->
        isInTryCatchBlock lines lineIndex = true ->
        skipMatch p filePath quiet lines lineIndex m = true).
Proof.
  intros lines idx. split; [|split].
  - unfold isInTryCatchBlock.
    pose proof (tryCatchScan_spec lines idx idx (le_n idx)) as H.
    rewrite Nat.sub_diag in H. exact H.
  - intros. apply skipMatchWith_enclosure_use; assumption.
  - intros p filePath quiet m Hid Herr Hin.
    unfold skipMatch, skipMatchWith, legitimateConsoleWith.
    rewrite Hid, Herr, Hin. simpl. rewrite !orb_true_r. reflexivity.
Qed.

(** C5 as stated fails: the try/catch of the first line is closed on
    that line and the tracked depth never returns to zero with a catch
    seen, so nothing encloses the last line, and the test still answers
    true for it. *)
Lemma closed_catch_above_counts_as_enclosing :
  let lines := ["try { a(); } catch (e) { b(); }";
                "function g() {";
                "  if (x) {";
                "    console.error(x);"] in
  enclosureAsSpecified lines 3 = false /\
  isInTryCatchBlock lines 3 = true /\
  analyzeLines detectionPatterns "app/cart.ts" false lines = Some [] /\
  analyzeLines detectionPatterns "app/cart.ts" false (tl lines)
    = Some [issueOf production_console_log "app/cart.ts" 3 (mkMatch 4 "console.error(")].
Proof. vm_compute. repeat split; reflexivity. Qed.


(** ** The error-handling heuristic *)

Lemma scanBackForFunction_bounds lines : forall budget i s,
  scanBackForFunction lines budget i = Some s -> i - budget <= s /\ s <= i.
Proof.
  induction budget as [|budget IH]; intros i s H; simpl in H.
  - destruct (functionStartsAt lines i); [|discriminate]. inversion H; lia.
  - destruct (functionStartsAt lines i); [inversion H; lia|].
    destruct i as [|i]; [discriminate|]. apply IH in H. lia.
Qed.

Lemma scanForwardForEnd_bounds lines fs : forall n i st e,
  scanForwardForEnd lines fs n i st = Some e -> i <= e /\ e < i + n.
Proof.
  induction n as [|n IH]; intros i st e H; simpl in H; [discriminate|].
  destruct (scanBraces _ _ st) as [st' found].
  destruct found; [inversion H; lia|].
  apply IH in H. lia.
Qed.

Lemma chainHasCatch_token lines : forall n i,
  chainHasCatch lines n i = true ->
  exists j, i <= j /\ j < i + n /\ hasHandlerToken (line_at lines j) = true.
Proof.
  induction n as [|n IH]; intros i H; simpl in H; [discriminate|].
  destruct (includes (line_at lines i) ".catch(") eqn:E.
  - exists i. unfold hasHandlerToken. rewrite E. simpl. repeat split; lia.
  - destruct (_ && _ && _); [discriminate|].
    apply IH in H as (j & H1 & H2 & H3). exists j. repeat split; auto; lia.
Qed.

(** A call counts as handled only when a handler token stands within 20
    lines before it or 19 after it. *)
Lemma handled_needs_token lines i k :
  isFetchCallProperlyHandled lines i k = true ->
  exists j, i - 20 <= j /\ j < i + 20 /\ hasHandlerToken (line_at lines j) = true.
Proof.
  unfold isFetchCallProperlyHandled.
  destruct (findFunctionStart lines i) as [s|] eqn:Es.
  - destruct (findFunctionEnd lines (Some s) i) as [e|] eqn:Ee.
    + apply scanBackForFunction_bounds in Es.
      unfold findFunctionEnd in Ee. apply scanForwardForEnd_bounds in Ee.
      destruct (existsb _ (seq s (S e - s))) eqn:Ex.
      * intros _. apply existsb_exists in Ex as (j & Hj & Ht). apply in_seq in Hj.
        exists j. repeat split; auto; lia.
      * destruct (_ && _); [|discriminate].
        intros H. apply chainHasCatch_token in H as (j & H1 & H2 & H3).
        exists j. repeat split; auto; lia.
    + unfold handledNearby. intros H.
      apply existsb_exists in H as (j & Hj & Ht). apply in_seq in Hj.
      exists j. split; [lia|]. split; [lia|].
      apply orb_true_iff in Ht as [Ht|Ht]; [exact Ht|].
      apply andb_true_iff in Ht as [_ Ht]. unfold hasHandlerToken. rewrite Ht. reflexivity.
  - destruct (findFunctionEnd lines None i);
      unfold handledNearby; intros H;
      apply existsb_exists in H as (j & Hj & Ht); apply in_seq in Hj;
      (exists j; split; [lia|]; split; [lia|]);
      (apply orb_true_iff in Ht as [Ht|Ht]; [exact Ht|]);
      apply andb_true_iff in Ht as [_ Ht]; unfold hasHandlerToken; rewrite Ht; reflexivity.
Qed.

(** A handler token inside the bounded function makes the call handled. *)
Lemma handled_by_token_in_function lines i k s e j :
  findFunctionStart lines i = Some s ->
  findFunctionEnd lines (Some s) i = Some e ->
  s <= j -> j <= e -> hasHandlerToken (line_at lines j) = true ->
  isFetchCallProperlyHandled lines i k = true.
Proof.
  intros Hs He Hsj Hje Ht. unfold isFetchCallProperlyHandled. rewrite Hs, He.
  assert (Hex : existsb (fun i0 => hasHandlerToken (line_at lines i0)) (seq s (S e - s)) = true).
  { apply existsb_exists. exists j. split; [apply in_seq; lia | exact Ht]. }
  rewrite Hex. reflexivity.
Qed.

(** *** Selecting the issues of one rule on one line *)

Lemma filter_andb {A} (f g : A -> bool) l :
  filter (fun a => f a && g a) l = filter f (filter g l).
Proof.
  induction l as [|a l IH]; simpl; [reflexivity|].
  destruct (g a) eqn:Eg; destruct (f a) eqn:Ef; simpl; rewrite ?Ef, IH; reflexivity.
Qed.

(** The issues a run reports for line [i] are those its round pushed. *)
Lemma collect_select (f : nat -> option (list AISlopIssue)) l : forall issues,
  NoDup l ->
  collect f l = Some issues ->
  (forall a bs b, In a l -> f a = Some bs -> In b bs -> Issue.line b = a + 1) ->
  forall i bs, In i l -> f i = Some bs ->
  filter (fun b => Issue.line b =? i + 1) issues = bs.
Proof.
  induction l as [|a l IH]; intros issues Hnd H Hline i bs Hi Hf; [destruct Hi|].
  simpl in H. destruct (f a) as [bs0|] eqn:Ea; [|discriminate].
  destruct (collect f l) as [rest|] eqn:El; [|discriminate].
  inversion H; subst issues; clear H. inversion Hnd as [|? ? Hnot Hnd']; subst.
  rewrite filter_app. destruct Hi as [->|Hi].
  - rewrite Ea in Hf. inversion Hf; subst bs0.
    rewrite filter_all, (filter_nil_iff _ rest), app_nil_r; [reflexivity| |].
    + intros b Hb. apply (collect_In _ _ _ b El) in Hb as (a' & bs' & Ha' & Hfa' & Hb').
      apply Nat.eqb_neq. rewrite (Hline a' bs' b (or_intror Ha') Hfa' Hb').
      intros Heq. assert (a' = i) by lia. subst a'. contradiction.
    + intros b Hb. apply Nat.eqb_eq. apply (Hline i bs b (or_introl eq_refl) Ea Hb).
  - rewrite (filter_nil_iff _ bs0).
    + simpl. apply (IH rest Hnd' eq_refl); auto.
      intros a' bs' b Ha'. apply Hline. right; exact Ha'.
    + intros b Hb. apply Nat.eqb_neq. rewrite (Hline a bs0 b (or_introl eq_refl) Ea Hb).
      intros Heq. assert (a = i) by lia. subst a. contradiction.
Qed.

Lemma analyzeLine_line patterns filePath quiet lines i bs b :
  analyzeLine patterns filePath quiet lines i = Some bs -> In b bs -> Issue.line b = i + 1.
Proof.
  unfold analyzeLine. destruct (collect _ patterns) as [found|] eqn:Ec; [|discriminate].
  intros H; inversion H; subst bs; clear H. intros Hb.
  apply in_app_iff in Hb as [Hb|Hb].
  - apply (collect_In _ _ _ b Ec) in Hb as (p & bs' & _ & Hp & Hb).
    destruct (patternIssues_inv _ _ _ _ _ _ _ Hp Hb) as (_ & ms & m & _ & _ & _ & ->).
    reflexivity.
  - apply nested_issue_type in Hb. tauto.
Qed.

(** The issues of one type among those the pattern loop pushed come from
    the rules that have this id. *)
Lemma found_by_rule filePath quiet lines i type : forall patterns found,
  collect (fun p => patternIssues p filePath quiet lines i) patterns = Some found ->
  filter (fun b => String.eqb (Issue.type b) type) found =
  flat_map (fun p => issuesOrNone (patternIssues p filePath quiet lines i))
           (filter (fun p => idIs p type) patterns).
Proof.
  induction patterns as [|p patterns IH]; intros found H; simpl in H.
  - inversion H. reflexivity.
  - destruct (patternIssues p filePath quiet lines i) as [bs|] eqn:Ep; [|discriminate].
    destruct (collect _ patterns) as [rest|] eqn:Er; [|discriminate].
    inversion H; subst found; clear H. rewrite filter_app, (IH rest eq_refl). simpl.
    destruct (idIs p type) eqn:Eid.
    + simpl. rewrite Ep. simpl. f_equal. apply filter_all. intros b Hb.
      destruct (patternIssues_inv _ _ _ _ _ _ _ Ep Hb) as (_ & ms & m & _ & _ & _ & ->).
      exact Eid.
    + rewrite filter_nil_iff; [reflexivity|]. intros b Hb.
      destruct (patternIssues_inv _ _ _ _ _ _ _ Ep Hb) as (_ & ms & m & _ & _ & _ & ->).
      exact Eid.
Qed.

Ltac eval_rule_tests p :=
  repeat match goal with
         | |- context [idIs p ?s] =>
             let v := eval vm_compute in (idIs p s) in change (idIs p s) with v
         | |- context [includes (Pattern.id p) ?s] =>
             let v := eval vm_compute in (includes (Pattern.id p) s) in
             change (includes (Pattern.id p) s) with v
         end.

(** For the missing-error-handling rule the checks come down to the
    heuristic and the quiet-mode check. *)
Lemma skipMatch_missing_error_handling filePath quiet lines i m :
  skipMatch missing_error_handling filePath quiet lines i m =
  isFetchCallProperlyHandled lines i (index m) || (quiet && isTestFile filePath).
Proof.
  unfold skipMatch, skipMatchWith, acknowledged, anyFamily, declarationFileAny,
    legitimateAnyUse, legitimateParamAny, handledFetch, safeDoubleCast,
    legitimateConsoleWith, commentInTestContext, assertionInTest, quietTestFile.
  eval_rule_tests missing_error_handling.
  cbn [andb orb negb]. rewrite ?andb_true_r, ?orb_false_r. reflexivity.
Qed.

(** The issues of the rule on line [i], in a file outside the tests. *)
Lemma reported_unhandled_of_line filePath quiet lines issues i ms :
  analyzeLines detectionPatterns filePath quiet lines = Some issues ->
  i < length lines ->
  isTestFile filePath = false ->
  execAll (Pattern.pattern missing_error_handling) (line_at lines i) = Some ms ->
  reportedUnhandled issues i =
  map (issueOf missing_error_handling filePath (i + 1))
      (filter (fun m => negb (isFetchCallProperlyHandled lines i (index m))) ms).
Proof.
  intros H Hi Ht Hex. unfold reportedUnhandled. rewrite filter_andb.
  unfold analyzeLines in H.
  assert (Hseq : In i (seq 0 (length lines))) by (apply in_seq; lia).
  destruct (collect_each _ _ _ i H Hseq) as [bs Hbs].
  rewrite (collect_select _ _ _ (seq_NoDup _ _) H
             (fun a bs' b _ Hf Hb => analyzeLine_line _ _ _ _ _ _ _ Hf Hb) i bs Hseq Hbs).
  unfold analyzeLine in Hbs.
  destruct (collect _ detectionPatterns) as [found|] eqn:Ec; [|discriminate].
  inversion Hbs; subst bs; clear Hbs. rewrite filter_app.
  rewrite (found_by_rule _ _ _ _ "missing_error_handling" _ _ Ec).
  rewrite (filter_nil_iff _ (analyzeComplexNestedConditionals _ _ _ _ _)).
  2:{ intros b Hb. apply nested_issue_type in Hb as (Hty & _). rewrite Hty. reflexivity. }
  change (filter (fun p => idIs p "missing_error_handling") detectionPatterns)
    with [missing_error_handling].
  cbn [flat_map]. rewrite !app_nil_r.
  unfold patternIssues.
  assert (Hskip : skipPattern missing_error_handling filePath = false).
  { unfold skipPattern. rewrite Ht. reflexivity. }
  rewrite Hskip, Hex. cbn [issuesOrNone]. f_equal.
  apply filter_ext. intros m. rewrite skipMatch_missing_error_handling, Ht, andb_false_r, orb_false_r.
  reflexivity.
Qed.

(** C6, as the code has it.  In a file outside the tests, for a line
    [i] of the file: when the heuristic bounds a function around the
    call (a start within 20 lines above it, a closing brace before line
    [i + 20]) and a line of that function contains [.catch(], [try {] or
    [try{], the missing-error-handling rule reports nothing for the
    line; when it bounds no function, the two lines before and after the
    call decide; and when no line from 20 before the call to 19 after it
    contains one of these tokens, a line with one network call gets
    exactly one issue of the rule, of medium severity. *)
Theorem network_call_error_handling :
  forall filePath quiet lines i,
    isTestFile filePath = false ->
    i < length lines ->
    exists issues,
      analyzeLines detectionPatterns filePath quiet lines = Some issues /\
      (forall s e j,
          findFunctionStart lines i = Some s ->
          findFunctionEnd lines (Some s) i = Some e ->
          s <= j -> j <= e -> hasHandlerToken (line_at lines j) = true ->
          reportedUnhandled issues i = []) /\
      (findFunctionStart lines i = None \/
       findFunctionEnd lines (findFunctionStart lines i) i = None ->
       forall ms,
         execAll (Pattern.pattern missing_error_handling) (line_at lines i) = Some ms ->
         reportedUnhandled issues i =
         if handledNearby lines i then []
         else map (issueOf missing_error_handling filePath (i + 1)) ms) /\
      ((forall j, i - 20 <= j -> j < i + 20 -> hasHandlerToken (line_at lines j) = false) ->
       forall m,
         execAll (Pattern.pattern missing_error_handling) (line_at lines i) = Some [m] ->
         reportedUnhandled issues i = [issueOf missing_error_handling filePath (i + 1) m] /\
         Issue.severity (issueOf missing_error_handling filePath (i + 1) m) = medium).
Proof.
  intros filePath quiet lines i Ht Hi.
  destruct (analyzeLines_total detectionPatterns filePath quiet lines eq_refl) as [issues H].
  exists issues. split; [exact H|]. split; [|split].
  - intros s e j Hs He Hsj Hje Htok.
    destruct (execAll_total (Pattern.pattern missing_error_handling) (line_at lines i) eq_refl)
      as [ms Hms].
    rewrite (reported_unhandled_of_line _ _ _ _ _ _ H Hi Ht Hms).
    rewrite filter_nil_iff; [reflexivity|]. intros m _.
    rewrite (handled_by_token_in_function lines i (index m) s e j Hs He Hsj Hje Htok).
    reflexivity.
  - intros Hnone ms Hex.
    rewrite (reported_unhandled_of_line _ _ _ _ _ _ H Hi Ht Hex).
    assert (Hh : forall k, isFetchCallProperlyHandled lines i k = handledNearby lines i).
    { intros k. unfold isFetchCallProperlyHandled.
      destruct Hnone as [Hn|Hn]; rewrite Hn; [reflexivity|].
      destruct (findFunctionStart lines i); reflexivity. }
    destruct (handledNearby lines i) eqn:En.
    + rewrite filter_nil_iff; [reflexivity|]. intros m _. rewrite Hh. reflexivity.
    + rewrite filter_all; [reflexivity|]. intros m _. rewrite Hh. reflexivity.
  - intros Hnone m Hex. split; [|reflexivity].
    rewrite (reported_unhandled_of_line _ _ _ _ _ _ H Hi Ht Hex). simpl.
    destruct (isFetchCallProperlyHandled lines i (index m)) eqn:Eh; [|reflexivity].
    apply handled_needs_token in Eh as (j & H1 & H2 & H3).
    rewrite (Hnone j H1 H2) in H3. discriminate.
Qed.

Lemma network_call_error_handling_witness :
  let lines := ["async function load(url) {";
                "  const response = await fetch(url);";
                "  return response;";
                "}"] in
  exists issues,
    analyzeLines detectionPatterns "app/api.ts" false lines = Some issues /\
    (forall s e j,
        findFunctionStart lines 1 = Some s ->
        findFunctionEnd lines (Some s) 1 = Some e ->
        s <= j -> j <= e -> hasHandlerToken (line_at lines j) = true ->
        reportedUnhandled issues 1 = []) /\
    (findFunctionStart lines 1 = None \/
     findFunctionEnd lines (findFunctionStart lines 1) 1 = None ->
     forall ms,
       execAll (Pattern.pattern missing_error_handling) (line_at lines 1) = Some ms ->
       reportedUnhandled issues 1 =
       if handledNearby lines 1 then []
       else map (issueOf missing_error_handling "app/api.ts" (1 + 1)) ms) /\
    ((forall j, 1 - 20 <= j -> j < 1 + 20 -> hasHandlerToken (line_at lines j) = false) ->
     forall m,
       execAll (Pattern.pattern missing_error_handling) (line_at lines 1) = Some [m] ->
       reportedUnhandled issues 1 = [issueOf missing_error_handling "app/api.ts" (1 + 1) m] /\
       Issue.severity (issueOf missing_error_handling "app/api.ts" (1 + 1) m) = medium).
Proof.
  intros lines.
  apply (network_call_error_handling "app/api.ts" false lines 1).
  - reflexivity.
  - simpl. lia.
Defined.

(** C6 as stated fails: the function opened on the first line closes
    on the last, holds the call and, four lines above it, a [try {]; the
    heuristic takes the arrow callback of the third line for the start of
    the function, bounds nothing, finds no token in the two lines around
    the call, and the call is reported. *)
Lemma try_above_callback_not_seen :
  let lines := ["async function load() {";
                "  try {";
                "    const ids = items.map(x => x.id);";
                "    validate(ids);";
                "    record(ids);";
                "    const r = await fetch(url);";
                "    return r;";
                "  } catch (e) { return null; }";
                "}"] in
  scanForwardForEnd lines (Some 0) (length lines) 0 (mkBrace 0%Z false) = Some 8 /\
  hasHandlerToken (line_at lines 1) = true /\
  findFunctionStart lines 5 = Some 2 /\
  findFunctionEnd lines (Some 2) 5 = None /\
  analyzeLines detectionPatterns "app/api.ts" false lines
    = Some [issueOf missing_error_handling "app/api.ts" 6 (mkMatch 20 "fetch(")].
Proof. vm_compute. repeat split; reflexivity. Qed.

(** * Further properties of the code *)

(** ** Matches of a pattern on a line *)

Lemma reaches_refl x : reaches x x.
Proof. exists 0. split; [lia | reflexivity]. Qed.

Lemma reaches_trans x y z : reaches x y -> reaches y z -> reaches x z.
Proof.
  intros (k1 & E1 & R1) (k2 & E2 & R2). exists (k1 + k2). split; [lia|].
  rewrite R2, R1, skipn_skipn. f_equal. lia.
Qed.

Lemma reaches_advance x ch tl : rest x = ch :: tl -> reaches x (advance x ch tl).
Proof. intros E. exists 1. unfold advance; simpl. rewrite E. split; [lia | reflexivity]. Qed.

Lemma charMatcher_reaches p x c z :
  charMatcher p x c = Some z -> exists y, c y = Some z /\ reaches x y.
Proof.
  unfold charMatcher. destruct (rest x) as [|ch tl] eqn:E; [discriminate|].
  destruct (p ch); [|discriminate]. intros H.
  exists (advance x ch tl). split; [exact H | apply reaches_advance; exact E].
Qed.

Lemma backrefMatcher_reaches ic s : forall x c z,
  backrefMatcher ic s x c = Some z -> exists y, c y = Some z /\ reaches x y.
Proof.
  induction s as [|a s IH]; intros x c z H; simpl in H.
  - exists x. split; [exact H | apply reaches_refl].
  - destruct (rest x) as [|ch tl] eqn:E; [discriminate|].
    destruct (Ascii.eqb _ _); [|discriminate].
    apply IH in H as (y & Hy & Hr). exists y. split; [exact Hy|].
    eapply reaches_trans; [apply reaches_advance; exact E | exact Hr].
Qed.

Section RepeatReaches.
Variable m : MState -> Cont -> option MState.
Hypothesis m_reaches : forall x d z,
  m x d = Some z -> exists y, d y = Some z /\ reaches x y.

Lemma clearCaptures_reaches gs x y : reaches (clearCaptures gs x) y -> reaches x y.
Proof. unfold reaches, clearCaptures; simpl; auto. Qed.

Lemma repeatMatcher_reaches gs greedy c : forall fuel mn mx x z,
  repeatMatcher m gs greedy c fuel mn mx x = Some z ->
  exists y, c y = Some z /\ reaches x y.
Proof.
  induction fuel as [|fuel IH]; intros mn mx x z H; [discriminate|].
  rewrite repeatMatcher_S in H. cbv zeta in H.
  destruct (maxIsZero mx).
  { exists x. split; [exact H | apply reaches_refl]. }
  assert (Hbody : forall z',
    m (clearCaptures gs x)
      (fun y => if (mn =? 0) && (endIndex y =? endIndex x) then None
                else repeatMatcher m gs greedy c fuel (pred mn) (option_map pred mx) y) = Some z' ->
    exists y, c y = Some z' /\ reaches x y).
  { intros z' Hm. apply m_reaches in Hm as (y & Hy & Hr).
    destruct ((mn =? 0) && (endIndex y =? endIndex x)); [discriminate|].
    apply IH in Hy as (y' & Hy' & Hr'). exists y'. split; [exact Hy'|].
    eapply reaches_trans; [apply (clearCaptures_reaches gs); exact Hr | exact Hr']. }
  remember (m (clearCaptures gs x)
      (fun y => if (mn =? 0) && (endIndex y =? endIndex x) then None
                else repeatMatcher m gs greedy c fuel (pred mn) (option_map pred mx) y))
    as o eqn:Eo in H.
  symmetry in Eo.
  destruct (negb (mn =? 0)); [subst o; auto|].
  destruct greedy.
  - destruct o as [z'|]; [inversion H; subst z'; auto|].
    exists x. split; [exact H | apply reaches_refl].
  - destruct (c x) as [z'|] eqn:Ec.
    + inversion H; subst z'. exists x. split; [exact Ec | apply reaches_refl].
    + subst o. auto.
Qed.
End RepeatReaches.

(** A matcher consumes a prefix of the input ahead of it. *)
Lemma matcher_reaches ic r : forall x c z,
  matcher ic r x c = Some z -> exists y, c y = Some z /\ reaches x y.
Proof.
  induction r as [ | a | | neg atoms | | n | n r IH | r1 IH1 r2 IH2 | r1 IH1 r2 IH2 | r IH mn mx greedy];
    intros x c z H; cbn [matcher] in H.
  - exists x. split; [exact H | apply reaches_refl].
  - apply charMatcher_reaches in H. exact H.
  - apply charMatcher_reaches in H. exact H.
  - apply charMatcher_reaches in H. exact H.
  - destruct (xorb _ _); [|discriminate]. exists x. split; [exact H | apply reaches_refl].
  - destruct (lookupCapture n (captures x)).
    + apply backrefMatcher_reaches in H. exact H.
    + exists x. split; [exact H | apply reaches_refl].
  - apply IH in H as (y & Hy & Hr).
    exists (setCapture n (firstn (endIndex y - endIndex x) (rest x)) y).
    split; [exact Hy|]. unfold reaches, setCapture in *; simpl. exact Hr.
  - apply IH1 in H as (y1 & Hy1 & Hr1). apply IH2 in Hy1 as (y2 & Hy2 & Hr2).
    exists y2. split; [exact Hy2 | eapply reaches_trans; eauto].
  - destruct (matcher ic r1 x c) as [z'|] eqn:E1.
    + inversion H; subst z'. apply IH1 in E1. exact E1.
    + apply IH2 in H. exact H.
  - eapply repeatMatcher_reaches in H; [exact H | exact IH].
Qed.

(** The leftmost match found from index [i] on starts at some [s >= i]
    and covers the characters of the input from [s] to where it ends. *)
Lemma searchFrom_reaches ic r : forall inp p i s from y,
  searchFrom ic r p inp i = Some (s, from, y) ->
  exists k, s = i + k /\ from = skipn k inp /\ k <= length inp /\
            exists n, endIndex y = s + n /\ rest y = skipn n from.
Proof.
  induction inp as [|ch tl IH]; intros p i s from y H; simpl in H.
  - destruct (matcher ic r _ Some) as [y'|] eqn:E; [|discriminate].
    inversion H; subst s from y'; clear H.
    apply matcher_reaches in E as (y0 & Hy0 & (n & En & Rn)). inversion Hy0; subst y0.
    exists 0. simpl in *. repeat split; auto. exists n. auto.
  - destruct (matcher ic r _ Some) as [y'|] eqn:E.
    + inversion H; subst s from y'; clear H.
      apply matcher_reaches in E as (y0 & Hy0 & (n & En & Rn)). inversion Hy0; subst y0.
      exists 0. simpl in *. repeat split; auto; try lia. exists n. auto.
    + apply IH in H as (k & Hs & Hf & Hk & n & Hn & Hr).
      exists (S k). simpl. repeat split; auto; try lia. exists n. auto.
Qed.

Lemma length_string_of_list (l : list ascii) :
  String.length (string_of_list_ascii l) = length l.
Proof. induction l as [|a l IH]; simpl; congruence. Qed.

Lemma length_list_of_string (s : string) :
  length (list_ascii_of_string s) = String.length s.
Proof. induction s as [|a s IH]; simpl; congruence. Qed.

(** The results of the [exec] loop from index [i] on the input [inp]:
    each is a non-empty piece of [inp], and they follow one another
    without overlap. *)
Lemma execLoop_matches ic r : forall fuel p inp i ms,
  execLoop fuel ic r p inp i = Some ms ->
  Forall (fun m => exists k, index m = i + k /\
                    0 < String.length (text m) /\
                    k + String.length (text m) <= length inp /\
                    list_ascii_of_string (text m) =
                      firstn (String.length (text m)) (skipn k inp)) ms /\
  ForallOrdPairs endsBefore ms.
Proof.
  induction fuel as [|fuel IH]; intros p inp i ms H; [discriminate|].
  rewrite execLoop_S in H.
  destruct (searchFrom ic r p inp i) as [[[s from] y]|] eqn:E.
  2:{ inversion H; subst ms. split; constructor. }
  destruct (endIndex y =? s) eqn:Eq; [discriminate|]. apply Nat.eqb_neq in Eq.
  destruct (execLoop fuel ic r (prev y) (rest y) (endIndex y)) as [ms'|] eqn:E';
    [|discriminate].
  simpl in H. inversion H; subst ms; clear H.
  pose proof (searchFrom_bounds _ _ _ _ _ _ _ _ E) as (B1 & B2 & B3 & _).
  apply searchFrom_reaches in E as (k & Hs & Hf & Hk & n & Hn & Hr).
  apply IH in E' as [Hall Hord].
  assert (Hlen : length from = length inp - k) by (subst from; apply length_skipn).
  assert (Hrest : length (rest y) = length from - n) by (rewrite Hr; apply length_skipn).
  assert (Hn' : 0 < n /\ k + n <= length inp) by lia.
  assert (Htext : String.length (matchedText s from y) = n).
  { unfold matchedText. rewrite length_string_of_list, length_firstn. lia. }
  assert (Htail : Forall (fun m => endIndex y <= index m) ms').
  { eapply Forall_impl; [|exact Hall]. intros m (k' & Hk' & _). simpl in Hk'. lia. }
  split.
  - constructor.
    + exists k. simpl. rewrite Htext. repeat split; try lia.
      unfold matchedText. rewrite list_ascii_of_string_of_list_ascii.
      subst from. f_equal. lia.
    + eapply Forall_impl; [|exact Hall]. intros m (k' & Hk' & Hpos & Hle & Htxt).
      exists (k + n + k'). repeat split; try lia.
      rewrite Htxt, Hr, Hf, !skipn_skipn. do 2 f_equal. lia.
  - constructor; [|exact Hord].
    eapply Forall_impl; [|exact Htail]. intros m Hm.
    unfold endsBefore. cbn [index text]. cbv beta in Hm. rewrite Htext. lia.
Qed.

(** X1.  The matches a rule's pattern yields on a line, whatever the
    pattern: each is a non-empty piece of the line found at its index,
    and each ends before the next one starts. *)
Theorem exec_matches_lie_in_line :
  forall re line ms,
    execAll re line = Some ms ->
    Forall (matchInLine (list_ascii_of_string line)) ms /\
    ForallOrdPairs endsBefore ms.
Proof.
  intros re line ms H. unfold execAll in H. apply execLoop_matches in H as [Hall Hord].
  split; [|exact Hord].
  eapply Forall_impl; [|exact Hall]. intros m (k & Hk & Hpos & Hle & Htxt).
  simpl in Hk. subst k. unfold matchInLine. auto.
Qed.

Lemma exec_matches_lie_in_line_witness :
  let re := mkRegExp (plus wd) false in
  let line := "let total = 0;" in
  Forall (matchInLine (list_ascii_of_string line)) (matchesOrNone (execAll re line)) /\
  ForallOrdPairs endsBefore (matchesOrNone (execAll re line)).
Proof.
  intros re line.
  apply (exec_matches_lie_in_line re line (matchesOrNone (execAll re line))).
  vm_compute. reflexivity.
Defined.

(** ** Scans that return and scans that do not *)

Lemma searchFrom_finds_end ic r :
  (forall p i, matcher ic r (mkState p [] i []) Some <> None) ->
  forall inp p i, searchFrom ic r p inp i <> None.
Proof.
  intros Hend. induction inp as [|ch tl IH]; intros p i; simpl.
  - destruct (matcher ic r _ Some) eqn:E; [discriminate | destruct (Hend p i E)].
  - destruct (matcher ic r _ Some); [discriminate | apply IH].
Qed.

Lemma execLoop_never_ends ic r :
  (forall p i, matcher ic r (mkState p [] i []) Some <> None) ->
  forall fuel p inp i, execLoop fuel ic r p inp i = None.
Proof.
  intros Hend. induction fuel as [|fuel IH]; intros p inp i; [reflexivity|].
  rewrite execLoop_S.
  destruct (searchFrom ic r p inp i) as [[[s from] y]|] eqn:E.
  - destruct (endIndex y =? s); [reflexivity|]. rewrite IH. reflexivity.
  - destruct (searchFrom_finds_end ic r Hend inp p i E).
Qed.

Lemma collect_none {A B} (f : A -> option (list B)) l a :
  In a l -> f a = None -> collect f l = None.
Proof.
  induction l as [|b l IH]; intros Hin Hf; [destruct Hin|].
  simpl. destruct Hin as [->|Hin].
  - rewrite Hf. reflexivity.
  - destruct (f b); [|reflexivity]. rewrite (IH Hin Hf). reflexivity.
Qed.

Lemma splitLines_length content : 0 < length (splitLines content).
Proof.
  induction content as [|c s IH]; simpl; [lia|].
  destruct (Ascii.eqb c "010"%char); simpl; [lia|].
  destruct (splitLines s); simpl; lia.
Qed.

(** An optional or starred pattern ([r*], [r?], [r{0,n}], greedy or
    lazy) matches the empty string at the end of an input. *)
Lemma optional_matches_empty_at_end r mx greedy ic :
  matchesEmptyAtEnd (mkRegExp (Quant r 0 mx greedy) ic).
Proof.
  intros p i. cbn [matcher source ignoreCase rest length Nat.add].
  rewrite repeatMatcher_S. cbv zeta.
  destruct (maxIsZero mx); [discriminate|].
  cbn [Nat.eqb negb].
  destruct greedy.
  - destruct (matcher ic r _ _); discriminate.
  - discriminate.
Qed.

Lemma analyzeLines_never_returns patterns p filePath quiet lines :
  In p patterns ->
  skipPattern p filePath = false ->
  matchesEmptyAtEnd (Pattern.pattern p) ->
  0 < length lines ->
  analyzeLines patterns filePath quiet lines = None.
Proof.
  intros Hp Hs Hend Hlen. unfold analyzeLines.
  apply collect_none with (a := 0).
  - apply in_seq. lia.
  - unfold analyzeLine.
    rewrite (collect_none (fun q => patternIssues q filePath quiet lines 0)
                          patterns p Hp); [reflexivity|].
    unfold patternIssues. rewrite Hs. unfold execAll.
    rewrite (execLoop_never_ends _ _ Hend). reflexivity.
Qed.

(** X2.  A rule whose pattern matches the empty string at the end of an
    input keeps the match loop of the first line running for ever: the
    scan of a file for which the rule is not skipped never returns,
    whatever the file holds. *)
Theorem empty_match_rule_never_returns :
  forall patterns p filePath content quiet,
    In p patterns ->
    skipPattern p filePath = false ->
    matchesEmptyAtEnd (Pattern.pattern p) ->
    analyzeFile patterns filePath content quiet = None.
Proof.
  intros patterns p filePath content quiet Hp Hs Hend. unfold analyzeFile.
  apply (analyzeLines_never_returns patterns p); auto. apply splitLines_length.
Qed.

Lemma empty_match_rule_never_returns_witness :
  let p := Pattern.mk "spaces" (mkRegExp (star sp) false) "Spaces" low EmptyString false false in
  analyzeFile (detectionPatterns ++ [p]) "src/app.ts" "const x = 1;" false = None.
Proof.
  intros p.
  apply (empty_match_rule_never_returns (detectionPatterns ++ [p]) p).
  - apply in_or_app. right. left. reflexivity.
  - vm_compute. reflexivity.
  - apply optional_matches_empty_at_end.
Defined.

(** X3.  With the built-in rules every scan returns, whatever the paths and
    the contents: none of the 27 patterns can match the empty string.
    This holds for the scan of one file that was read and for the file
    loop over any files that were read, quiet or not. *)
Theorem builtin_scan_returns :
  forall filePath content quiet,
    (exists issues, analyzeFile detectionPatterns filePath content quiet = Some issues) /\
    (forall files,
        exists issues, analyzeFiles detectionPatterns files quiet = Some issues).
Proof.
  intros filePath content quiet. split.
  - unfold analyzeFile. apply analyzeLines_total. exact builtin_rules_terminating.
  - intros files. unfold analyzeFiles.
    apply collect_total. intros f _. unfold analyzeFile.
    apply analyzeLines_total. exact builtin_rules_terminating.
Qed.

(** ** What a reported issue holds *)

Lemma skipPattern_not_nested p filePath :
  skipPattern p filePath = false -> idIs p "complex_nested_conditionals" = false.
Proof. unfold skipPattern. intros H. apply orb_false_iff in H as [_ H]. exact H. Qed.

Lemma nested_issue_shape filePath lines i n line b :
  In b (analyzeComplexNestedConditionals filePath lines i n line) ->
  1 <= Issue.column b /\ Issue.code b = trim line.
Proof.
  unfold analyzeComplexNestedConditionals. intros H. apply in_app_iff in H as [H|H].
  - destruct (_ || _) in H; [|destruct H].
    destruct H as [H|[]]; subst b; simpl; split; [lia | reflexivity].
  - destruct (stringSearch line nonSpace) as [ind|]; [|destruct H].
    destruct (_ && _) in H; [|destruct H].
    destruct (_ && _) in H; [|destruct H].
    destruct H as [H|[]]; subst b; simpl; split; [lia | reflexivity].
Qed.

(** X4.  Every issue of a scan names the scanned file and a line of it, with
    a column counted from 1.  An issue of a rule carries as code the
    matched text, which is not empty and stands in that line at that
    column; an issue of the nested-control heuristic carries the
    trimmed line and the severity medium. *)
Theorem reported_issue_shape :
  forall patterns filePath quiet lines issues issue,
    analyzeLines patterns filePath quiet lines = Some issues ->
    In issue issues ->
    Issue.file issue = filePath /\
    1 <= Issue.line issue <= length lines /\
    1 <= Issue.column issue /\
    (isNestedControl issue = false ->
       0 < String.length (Issue.code issue) /\
       occursAt (Issue.code issue) (line_at lines (Issue.line issue - 1))
                (Issue.column issue - 1)) /\
    (isNestedControl issue = true ->
       Issue.code issue = trim (line_at lines (Issue.line issue - 1)) /\
       Issue.severity issue = medium).
Proof.
  intros patterns filePath quiet lines issues issue H Hin.
  destruct (analyzeLines_issue_origin _ _ _ _ _ _ H Hin) as (i & Hi & [Hrule|Hnest]).
  - destruct Hrule as (p & ms & m & Hp & Hs & Hex & Hm & _ & ->).
    unfold execAll in Hex. apply execLoop_matches in Hex as [Hall _].
    rewrite Forall_forall in Hall. destruct (Hall m Hm) as (k & Hk & Hpos & Hle & Htxt).
    simpl in Hk. subst k.
    unfold issueOf, isNestedControl; cbn [Issue.file Issue.line Issue.column Issue.code
                                          Issue.type Issue.severity].
    replace (i + 1 - 1) with i by lia. replace (index m + 1 - 1) with (index m) by lia.
    apply skipPattern_not_nested in Hs. unfold idIs in Hs.
    split; [reflexivity|]. split; [lia|]. split; [lia|]. split.
    + intros _. split; [exact Hpos|].
      unfold occursAt. rewrite length_list_of_string in Hle. split; [exact Hle | exact Htxt].
    + intros Hn. congruence.
  - destruct (nested_issue_type _ _ _ _ _ _ Hnest) as (Ht & Hl & Hf & Hsev).
    destruct (nested_issue_shape _ _ _ _ _ _ Hnest) as (Hc & Hcode).
    rewrite Hl. replace (i + 1 - 1) with i by lia.
    split; [exact Hf|]. split; [lia|]. split; [exact Hc|]. split.
    + intros Hn. unfold isNestedControl in Hn. rewrite Ht in Hn. discriminate.
    + intros _. split; [exact Hcode | exact Hsev].
Qed.

Lemma reported_issue_shape_witness :
  let lines := ["const x: any = 1;"] in
  let issues := issuesOrNone (analyzeLines detectionPatterns "src/app.ts" false lines) in
  let issue := nth 0 issues (Issue.mk EmptyString EmptyString 0 0 EmptyString EmptyString low) in
  Issue.file issue = "src/app.ts" /\
  1 <= Issue.line issue <= length lines /\
  1 <= Issue.column issue /\
  (isNestedControl issue = false ->
     0 < String.length (Issue.code issue) /\
     occursAt (Issue.code issue) (line_at lines (Issue.line issue - 1))
              (Issue.column issue - 1)) /\
  (isNestedControl issue = true ->
     Issue.code issue = trim (line_at lines (Issue.line issue - 1)) /\
     Issue.severity issue = medium).
Proof.
  intros lines issues issue.
  apply (reported_issue_shape detectionPatterns "src/app.ts" false lines issues issue).
  - vm_compute. reflexivity.
  - vm_compute. left. reflexivity.
Defined.

Lemma ForallOrdPairs_app {A} (R : A -> A -> Prop) (l1 l2 : list A) :
  ForallOrdPairs R l1 -> ForallOrdPairs R l2 ->
  (forall a b, In a l1 -> In b l2 -> R a b) ->
  ForallOrdPairs R (l1 ++ l2).
Proof.
  induction 1 as [|a l1 Ha H1 IH]; intros H2 Hc; simpl; [exact H2|].
  constructor.
  - apply Forall_app. split; [exact Ha|].
    apply Forall_forall. intros b Hb. apply Hc; [left; reflexivity | exact Hb].
  - apply IH; [exact H2|]. intros x y Hx Hy. apply Hc; [right; exact Hx | exact Hy].
Qed.

Lemma same_line_ordered (n : nat) (bs : list AISlopIssue) :
  (forall b, In b bs -> Issue.line b = n) -> ForallOrdPairs lineOrder bs.
Proof.
  induction bs as [|b bs IH]; intros H; constructor.
  - apply Forall_forall. intros c Hc. unfold lineOrder.
    rewrite (H b (or_introl eq_refl)), (H c (or_intror Hc)). lia.
  - apply IH. intros c Hc. apply H. right. exact Hc.
Qed.

Lemma collect_lines_ordered (f : nat -> option (list AISlopIssue)) :
  (forall i bs b, f i = Some bs -> In b bs -> Issue.line b = i + 1) ->
  forall n s issues,
    collect f (seq s n) = Some issues ->
    ForallOrdPairs lineOrder issues /\ Forall (fun b => s + 1 <= Issue.line b) issues.
Proof.
  intros Hf. induction n as [|n IH]; intros s issues H; simpl in H.
  - inversion H; subst issues. split; constructor.
  - destruct (f s) as [bs|] eqn:Es; [|discriminate].
    destruct (collect f (seq (S s) n)) as [rest|] eqn:Er; [|discriminate].
    inversion H; subst issues; clear H.
    destruct (IH _ _ Er) as [Hord Hlow]. rewrite Forall_forall in Hlow.
    split.
    + apply ForallOrdPairs_app; [|exact Hord|].
      * apply (same_line_ordered (s + 1)). intros b Hb. exact (Hf s bs b Es Hb).
      * intros a b Ha Hb. unfold lineOrder. rewrite (Hf s bs a Es Ha).
        specialize (Hlow b Hb). simpl in Hlow. lia.
    + apply Forall_app. split; apply Forall_forall; intros b Hb.
      * rewrite (Hf s bs b Es Hb). lia.
      * specialize (Hlow b Hb). simpl in Hlow. lia.
Qed.

(** X5.  The issues of a file come in the order of its lines: an issue never
    stands before one of an earlier line. *)
Theorem issues_follow_line_order :
  forall patterns filePath quiet lines issues,
    analyzeLines patterns filePath quiet lines = Some issues ->
    ForallOrdPairs lineOrder issues.
Proof.
  intros patterns filePath quiet lines issues H. unfold analyzeLines in H.
  apply (collect_lines_ordered (analyzeLine patterns filePath quiet lines)) in H.
  - exact (proj1 H).
  - intros i bs b Hbs Hb. exact (analyzeLine_line _ _ _ _ _ _ _ Hbs Hb).
Qed.

Lemma issues_follow_line_order_witness :
  let lines := ["const x: any = 1;"; "// TODO: fix this"] in
  ForallOrdPairs lineOrder
    (issuesOrNone (analyzeLines detectionPatterns "src/app.ts" false lines)).
Proof.
  intros lines.
  apply (issues_follow_line_order detectionPatterns "src/app.ts" false lines).
  vm_compute. reflexivity.
Defined.

(** ** Quiet mode *)

Lemma collect_ext {A B} (f g : A -> option (list B)) l :
  (forall a, In a l -> f a = g a) -> collect f l = collect g l.
Proof.
  induction l as [|a l IH]; intros H; [reflexivity|].
  simpl. rewrite (H a (or_introl eq_refl)), IH; [reflexivity|].
  intros b Hb. apply H. right. exact Hb.
Qed.

Lemma collect_map_result {A B} (f g : A -> option (list B)) (h : list B -> list B) l :
  (forall xs ys, h (xs ++ ys) = h xs ++ h ys) -> h [] = [] ->
  (forall a, In a l -> g a = option_map h (f a)) ->
  collect g l = option_map h (collect f l).
Proof.
  intros Happ Hnil. induction l as [|a l IH]; intros H; simpl; [rewrite Hnil; reflexivity|].
  rewrite (H a (or_introl eq_refl)), IH by (intros b Hb; apply H; right; exact Hb).
  destruct (f a) as [bs|]; [|reflexivity]. cbn [option_map].
  destruct (collect f l) as [rest|]; [|reflexivity]. cbn [option_map].
  rewrite Happ. reflexivity.
Qed.

Lemma filter_map_const {A B} (keep : B -> bool) (g : A -> B) (k : bool) l :
  (forall a, keep (g a) = k) ->
  filter keep (map g l) = if k then map g l else [].
Proof.
  intros H. induction l as [|a l IH]; [destruct k; reflexivity|].
  cbn [map filter]. rewrite H, IH. destruct k; reflexivity.
Qed.

Lemma skipMatch_quiet p filePath lines i m :
  skipMatch p filePath true lines i m =
  skipMatch p filePath false lines i m ||
  (negb (idIs p "production_console_log") && isTestFile filePath).
Proof.
  unfold skipMatch, skipMatchWith, quietTestFile. cbn [andb].
  rewrite orb_false_r. reflexivity.
Qed.

Lemma patternIssues_quiet p filePath lines i :
  patternIssues p filePath true lines i =
  option_map (filter (keptInQuietMode filePath)) (patternIssues p filePath false lines i).
Proof.
  unfold patternIssues. destruct (skipPattern p filePath) eqn:Es; [reflexivity|].
  destruct (execAll _ _) as [ms|]; [|reflexivity]. cbn [option_map]. f_equal.
  apply skipPattern_not_nested in Es.
  rewrite (filter_map_const (keptInQuietMode filePath) (issueOf p filePath (i + 1))
             (negb (isTestFile filePath) || idIs p "production_console_log")).
  2:{ intros m. unfold keptInQuietMode, isNestedControl, issueOf, idIs in *.
      cbn [Issue.type]. rewrite Es, orb_false_r. reflexivity. }
  destruct (negb (isTestFile filePath) || idIs p "production_console_log") eqn:Ek.
  - f_equal. apply filter_ext. intros m. rewrite skipMatch_quiet.
    destruct (isTestFile filePath), (idIs p "production_console_log");
      try discriminate; cbn [negb andb]; rewrite ?orb_false_r; reflexivity.
  - rewrite (filter_nil_iff _ ms); [reflexivity|].
    intros m _. rewrite skipMatch_quiet.
    destruct (isTestFile filePath), (idIs p "production_console_log");
      try discriminate. cbn [negb andb]. rewrite orb_true_r. reflexivity.
Qed.

Lemma nested_kept filePath lines i n line :
  filter (keptInQuietMode filePath)
         (analyzeComplexNestedConditionals filePath lines i n line) =
  analyzeComplexNestedConditionals filePath lines i n line.
Proof.
  apply filter_all. intros b Hb.
  destruct (nested_issue_type _ _ _ _ _ _ Hb) as (Ht & _).
  unfold keptInQuietMode, isNestedControl. rewrite Ht. apply orb_true_r.
Qed.

(** In quiet mode the scan of lines gives what the full scan gives,
    less the issues quiet mode does not keep. *)
Lemma analyzeLines_quiet patterns filePath lines :
  analyzeLines patterns filePath true lines =
  option_map (filter (keptInQuietMode filePath)) (analyzeLines patterns filePath false lines).
Proof.
  unfold analyzeLines. apply collect_map_result.
  - intros xs ys. apply filter_app.
  - reflexivity.
  - intros i _. unfold analyzeLine.
    rewrite (collect_map_result (fun p => patternIssues p filePath false lines i)
                                (fun p => patternIssues p filePath true lines i)
                                (filter (keptInQuietMode filePath)) patterns
                                (fun xs ys => filter_app _ xs ys) eq_refl).
    + destruct (collect _ patterns) as [found|]; [|reflexivity]. cbn [option_map].
      rewrite filter_app, nested_kept. reflexivity.
    + intros p _. apply patternIssues_quiet.
Qed.

(** X6.  Quiet mode is a filter on the full scan of a file: outside test
    files it changes nothing; in a test file it keeps the issues of the
    production-logging rule and of the nested-control heuristic and
    drops the rest; and the scan returns in one mode exactly when it
    does in the other. *)
Theorem quiet_scan_is_filtered_full_scan :
  forall patterns filePath content,
    analyzeFile patterns filePath content true =
    option_map (filter (keptInQuietMode filePath))
               (analyzeFile patterns filePath content false) /\
    (isTestFile filePath = false ->
     analyzeFile patterns filePath content true = analyzeFile patterns filePath content false).
Proof.
  intros patterns filePath content. unfold analyzeFile.
  rewrite analyzeLines_quiet. split; [reflexivity|].
  intros Ht. destruct (analyzeLines patterns filePath false _) as [issues|]; [|reflexivity].
  cbn [option_map]. f_equal. apply filter_all. intros b _.
  unfold keptInQuietMode. rewrite Ht. reflexivity.
Qed.

(** ** Score, verdict and exit code *)

Lemma existsb_false {A} (f : A -> bool) l :
  (forall a, In a l -> f a = false) -> existsb f l = false.
Proof.
  induction l as [|a l IH]; intros H; [reflexivity|].
  cbn [existsb]. rewrite (H a (or_introl eq_refl)), IH; [reflexivity|].
  intros b Hb. apply H. right. exact Hb.
Qed.

Lemma weightOf_points type p : weightOf type = Points p -> 3 <= p <= 30.
Proof.
  unfold weightOf. rewrite lookupWeight_find, weights_listed.
  destruct (find _ listedWeights) as [e|] eqn:E; cbn [option_map].
  - apply find_some in E as [Hin _]. apply listedWeights_range in Hin.
    destruct (snd e) as [|w]; intros H; inversion H; subst; lia.
  - destruct (isInherited type); intros H; inversion H; subst; lia.
Qed.

Lemma addWeight_grows k acc w :
  numberAtLeast k acc -> numberAtLeast k (addWeight acc w).
Proof.
  destruct acc as [n|b key a], w as [p|key']; simpl; auto. lia.
Qed.

(** One round of the scoring loop adds at least 3 to a total that is a
    number. *)
Lemma scoreStep_grows k acc i :
  numberAtLeast k (totalOf acc) -> numberAtLeast (k + 3) (totalOf (scoreStep acc i)).
Proof.
  unfold scoreStep, totalOf. cbv zeta. intros H.
  destruct (weightOf (Issue.type i)) as [p|key] eqn:Ew.
  - apply weightOf_points in Ew.
    destruct acc as [[u|ub uk ua] [q|qb qk qa] [s|sb sk sa]];
      destruct (includes (Issue.type i) "hallucinated" || includes (Issue.type i) "todo" ||
                includes (Issue.type i) "assumption");
      [| destruct (includes (Issue.type i) "comment" || includes (Issue.type i) "redundant" ||
                   includes (Issue.type i) "boilerplate") ..];
      simpl in *; auto; lia.
  - destruct acc as [[u|ub uk ua] [q|qb qk qa] [s|sb sk sa]];
      destruct (includes (Issue.type i) "hallucinated" || includes (Issue.type i) "todo" ||
                includes (Issue.type i) "assumption");
      [| destruct (includes (Issue.type i) "comment" || includes (Issue.type i) "redundant" ||
                   includes (Issue.type i) "boilerplate") ..];
      simpl in *; auto.
Qed.

Lemma score_fold_grows issues : forall k acc,
  numberAtLeast k (totalOf acc) ->
  numberAtLeast (k + 3 * length issues) (totalOf (fold_left scoreStep issues acc)).
Proof.
  induction issues as [|i issues IH]; intros k acc H.
  - simpl. rewrite Nat.add_0_r. exact H.
  - cbn [fold_left length]. replace (k + 3 * S (length issues)) with (k + 3 + 3 * length issues) by lia.
    apply IH. apply scoreStep_grows. exact H.
Qed.

(** Whatever the types, a total that is a number is at least 3 per
    issue. *)
Lemma score_total_floor issues :
  numberAtLeast (3 * length issues) (total (calculateKarpeSlopScore issues)).
Proof.
  unfold calculateKarpeSlopScore. cbv zeta. cbn [total].
  apply (score_fold_grows issues 0 (mkAxes (Num 0) (Num 0) (Num 0))). simpl. lia.
Qed.

Lemma score_total_not_zero issues :
  (length issues =? 0) = false -> isZero (total (calculateKarpeSlopScore issues)) = false.
Proof.
  intros Hl. apply Nat.eqb_neq in Hl. pose proof (score_total_floor issues) as H.
  destruct (total (calculateKarpeSlopScore issues)) as [n|b k a]; [|reflexivity].
  simpl in *. apply Nat.eqb_neq. lia.
Qed.

(** X7.  The report never reaches its CLEAN verdict: it returns before the
    score when there is no issue, and every issue adds at least 3 points
    to a total that is a number, while a total that is a string is not
    identical to 0.  So the report ends in the early return, in the
    TypeError of its grouping loop, or in one of the two other verdicts,
    decided by the threshold of 50 alone. *)
Theorem clean_verdict_unreachable :
  forall issues,
    generateReport issues =
      (if length issues =? 0 then Returned NoIssues
       else if groupingThrows issues then Threw TypeError
       else Returned (if exceeds (total (calculateKarpeSlopScore issues)) 50
                      then SlopFed else Acceptable)) /\
    (generateReport issues = Returned NoIssues \/
     generateReport issues = Threw TypeError \/
     generateReport issues = Returned SlopFed \/
     generateReport issues = Returned Acceptable).
Proof.
  intros issues.
  assert (H : generateReport issues =
              (if length issues =? 0 then Returned NoIssues
               else if groupingThrows issues then Threw TypeError
               else Returned (if exceeds (total (calculateKarpeSlopScore issues)) 50
                              then SlopFed else Acceptable))).
  { unfold generateReport. destruct (length issues =? 0) eqn:El; [reflexivity|].
    destruct (groupingThrows issues); [reflexivity|].
    cbv zeta. rewrite (score_total_not_zero issues El). reflexivity. }
  split; [exact H|]. rewrite H.
  destruct (length issues =? 0); [auto|].
  destruct (groupingThrows issues); [auto|].
  destruct (exceeds _ 50); auto.
Qed.

(** Twenty issues of 3 points and then one whose type is [constructor],
    all of one severity: the grouping loop stops before the last, the
    style axis is a string, and the verdict is Acceptable although the
    numbers alone add up to 60.  With the odd issue first the report
    throws. *)
Example string_total_is_acceptable :
  let plain := Issue.mk "magic_css_value" "src/app.ts" 1 1 "12px" EmptyString low in
  let odd := Issue.mk "constructor" "src/app.ts" 2 1 "new Foo" EmptyString low in
  render (total (calculateKarpeSlopScore (repeat plain 20 ++ [odd]))) =
    "060function Object() { [native code] }" /\
  generateReport (repeat plain 20 ++ [odd]) = Returned Acceptable /\
  generateReport (odd :: repeat plain 20) = Threw TypeError.
Proof. vm_compute. repeat split; reflexivity. Qed.

Lemma In_firstn {A} (a : A) : forall n l, In a (firstn n l) -> In a l.
Proof.
  induction n as [|n IH]; intros l H; [destruct H|].
  destruct l as [|b l]; [destruct H|].
  destruct H as [H|H]; [left; exact H | right; apply IH; exact H].
Qed.

Lemma ownKeyTypes_no_throw issues :
  ownKeyTypes issues = true -> groupingThrows issues = false.
Proof.
  intros Hown. unfold ownKeyTypes in Hown. rewrite forallb_forall in Hown.
  unfold groupingThrows. apply existsb_false. intros severity _.
  apply existsb_false. intros issue Hin.
  apply In_firstn in Hin. unfold getIssuesBySeverity in Hin. apply filter_In in Hin as [Hin _].
  apply negb_true_iff. apply Hown. exact Hin.
Qed.




Lemma axisWeight_perm a issues issues' :
  Permutation issues issues' -> axisWeight a issues = axisWeight a issues'.
Proof.
  induction 1 as [|i l l' _ IH|i j l|l l' l'' _ IH1 _ IH2].
  - reflexivity.
  - rewrite !axisWeight_cons, IH. reflexivity.
  - rewrite !axisWeight_cons. lia.
  - congruence.
Qed.

Lemma ownKeyTypes_perm issues issues' :
  Permutation issues issues' -> ownKeyTypes issues = true -> ownKeyTypes issues' = true.
Proof.
  unfold ownKeyTypes. intros Hp H. rewrite forallb_forall in *.
  intros i Hi. apply H. apply (Permutation_in i (Permutation_sym Hp) Hi).
Qed.

(** X9.  The score does not depend on the order in which the issues were
    found, so neither on the order of the files nor of the rules. *)
Theorem score_independent_of_order :
  forall issues issues',
    ownKeyTypes issues = true ->
    Permutation issues issues' ->
    calculateKarpeSlopScore issues = calculateKarpeSlopScore issues'.
Proof.
  intros issues issues' Hown Hp.
  rewrite (score_by_axes issues Hown),
          (score_by_axes issues' (ownKeyTypes_perm issues issues' Hp Hown)).
  rewrite (axisWeight_perm UtilityAxis _ _ Hp), (axisWeight_perm QualityAxis _ _ Hp),
          (axisWeight_perm StyleAxis _ _ Hp).
  reflexivity.
Qed.

Lemma score_independent_of_order_witness :
  let a := Issue.mk "any_type_usage" "src/app.ts" 1 10 ": any" EmptyString high in
  let b := Issue.mk "assumption_comment" "src/app.ts" 2 1 "// assuming" EmptyString medium in
  calculateKarpeSlopScore [a; b] = calculateKarpeSlopScore [b; a].
Proof.
  intros a b. apply (score_independent_of_order [a; b] [b; a]).
  - vm_compute. reflexivity.
  - apply perm_swap.
Defined.

(** ** The exported report *)

Lemma startsWith_app p s : startsWith (p ++ s)%string p = true.
Proof.
  induction p as [|a p IH]; simpl; [destruct s; reflexivity|].
  rewrite Ascii.eqb_refl, IH. reflexivity.
Qed.

Lemma startsWith_includes s p : startsWith s p = true -> includes s p = true.
Proof. intros H. destruct s; cbn [includes]; rewrite H; reflexivity. Qed.

Lemma includes_middle pre p post : includes (pre ++ p ++ post)%string p = true.
Proof.
  induction pre as [|a pre IH].
  - cbn [append]. apply startsWith_includes, startsWith_app.
  - cbn [append includes]. rewrite IH. apply orb_true_r.
Qed.

Lemma severityName_no_bar s : includes (severityName s) "|" = false.
Proof. destruct s; vm_compute; reflexivity. Qed.

Lemma severityName_inj a b : severityName a = severityName b -> a = b.
Proof. destruct a, b; simpl; intros H; try reflexivity; discriminate. Qed.

Lemma last_field_determined (n1 n2 : string) :
  includes n1 "|" = false -> includes n2 "|" = false ->
  forall x1 x2, (x1 ++ "|" ++ n1 = x2 ++ "|" ++ n2)%string -> n1 = n2.
Proof.
  intros H1 H2. induction x1 as [|c x1 IH]; intros x2 E.
  - destruct x2 as [|c' x2]; cbn [append] in E.
    + inversion E. reflexivity.
    + inversion E; subst. pose proof (includes_middle x2 "|" n2) as Hm.
      cbn [append] in Hm. congruence.
  - destruct x2 as [|c' x2]; cbn [append] in E.
    + inversion E; subst. pose proof (includes_middle x1 "|" n1) as Hm.
      cbn [append] in Hm. congruence.
    + inversion E. eapply IH; eassumption.
Qed.

(** Two issues filed under one key have the same severity: the key ends
    with it. *)
Lemma issueKey_severity a b : issueKey a = issueKey b -> Issue.severity a = Issue.severity b.
Proof.
  unfold issueKey. intros E.
  apply severityName_inj.
  apply (last_field_determined _ _ (severityName_no_bar _) (severityName_no_bar _)
           (Issue.type a ++ "|" ++ Issue.file a ++ "|" ++ Issue.code a ++ "|" ++ Issue.message a)
           (Issue.type b ++ "|" ++ Issue.file b ++ "|" ++ Issue.code b ++ "|" ++ Issue.message b)).
  rewrite !append_assoc. exact E.
Qed.

Lemma Severity_eqb_eq a b : Severity_eqb a b = true <-> a = b.
Proof. destruct a, b; simpl; split; intros H; try reflexivity; discriminate. Qed.

Lemma countOccurrences_locations cs :
  countOccurrences cs = list_sum (map (fun c => length (Consolidated.location c)) cs).
Proof. unfold countOccurrences. rewrite countOccurrences_sum. reflexivity. Qed.

Lemma list_sum_cons (a : nat) l : list_sum (a :: l) = a + list_sum l.
Proof. reflexivity. Qed.

Lemma severityCount_entries severity m :
  countOccurrences (consolidatedWith severity (map snd m)) = severityCount severity m.
Proof.
  rewrite countOccurrences_locations. unfold consolidatedWith, severityCount.
  induction m as [|[k c] m IH]; [reflexivity|].
  cbn [map filter snd]. destruct (Severity_eqb (Consolidated.severity c) severity);
    cbn [map snd]; rewrite ?list_sum_cons, IH; reflexivity.
Qed.

Lemma severityCount_addLocation severity issue loc : forall m,
  keyedBySeverity m -> mapHas (issueKey issue) m = true ->
  severityCount severity (addLocation (issueKey issue) loc m) =
  severityCount severity m +
  (if Severity_eqb (Issue.severity issue) severity then 1 else 0).
Proof.
  induction m as [|[k c] m IH]; intros Hk Hhas; [discriminate|].
  inversion Hk as [|e m' (i & Hi & Hsev) Hk']; subst. cbn [fst snd] in Hi, Hsev.
  cbn [addLocation mapHas] in *.
  destruct (String.eqb k (issueKey issue)) eqn:Ek.
  - apply String.eqb_eq in Ek. rewrite Hi in Ek. apply issueKey_severity in Ek.
    unfold severityCount. cbn [filter snd pushLocation Consolidated.severity].
    rewrite Hsev, Ek.
    destruct (Severity_eqb (Issue.severity issue) severity);
      cbn [map snd Consolidated.location]; rewrite ?list_sum_cons; [|lia].
    unfold pushLocation. cbn [Consolidated.location]. rewrite length_app. simpl. lia.
  - simpl in Hhas. specialize (IH Hk' Hhas).
    unfold severityCount in *. cbn [filter snd].
    destruct (Severity_eqb (Consolidated.severity c) severity);
      cbn [map snd]; rewrite ?list_sum_cons, IH; lia.
Qed.

Lemma severityCount_new severity issue m :
  severityCount severity (m ++ [(issueKey issue, newEntry issue)]) =
  severityCount severity m +
  (if Severity_eqb (Issue.severity issue) severity then 1 else 0).
Proof.
  unfold severityCount. rewrite filter_app, map_app, list_sum_app.
  cbn [filter snd newEntry Consolidated.severity].
  destruct (Severity_eqb (Issue.severity issue) severity); simpl; lia.
Qed.

Lemma addLocation_keyed key loc : forall m,
  keyedBySeverity m -> keyedBySeverity (addLocation key loc m).
Proof.
  unfold keyedBySeverity.
  induction m as [|[k c] m IH]; intros Hk; [constructor|].
  inversion Hk as [|e m' He Hk']; subst. cbn [addLocation].
  destruct (String.eqb k key).
  - constructor; [|exact Hk']. exact He.
  - constructor; [exact He | exact (IH Hk')].
Qed.

Lemma consolidateStep_keyed m issue :
  keyedBySeverity m -> keyedBySeverity (consolidateStep m issue).
Proof.
  intros Hk. unfold consolidateStep. cbv zeta.
  destruct (mapHas (issueKey issue) m).
  - apply addLocation_keyed. exact Hk.
  - apply Forall_app. split; [exact Hk|]. constructor; [|constructor].
    exists issue. split; reflexivity.
Qed.

Lemma consolidate_fold_severity severity issues : forall m,
  keyedBySeverity m ->
  severityCount severity (fold_left consolidateStep issues m) =
  severityCount severity m + length (getIssuesBySeverity severity issues).
Proof.
  induction issues as [|issue issues IH]; intros m Hk; [simpl; lia|].
  cbn [fold_left]. rewrite (IH _ (consolidateStep_keyed m issue Hk)).
  assert (Hstep : severityCount severity (consolidateStep m issue) =
                  severityCount severity m +
                  (if Severity_eqb (Issue.severity issue) severity then 1 else 0)).
  { unfold consolidateStep. cbv zeta. destruct (mapHas (issueKey issue) m) eqn:Eh.
    - apply severityCount_addLocation; assumption.
    - apply severityCount_new. }
  rewrite Hstep. unfold getIssuesBySeverity. cbn [filter].
  destruct (Severity_eqb (Issue.severity issue) severity); simpl; lia.
Qed.

Lemma severity_partition issues :
  length (getIssuesBySeverity critical issues) + length (getIssuesBySeverity high issues) +
  length (getIssuesBySeverity medium issues) + length (getIssuesBySeverity low issues)
  = length issues.
Proof.
  unfold getIssuesBySeverity. induction issues as [|i issues IH]; [reflexivity|].
  cbn [filter]. destruct (Issue.severity i); simpl; lia.
Qed.

(** X10.  The exported report counts occurrences, not groups: its total is
    the number of issues found, each of its four severity counts is the
    number of issues of that severity, and the four add up to the
    total. *)
Theorem export_counts_every_issue :
  forall relative now issues,
    let r := exportResults relative now issues in
    Report.totalOccurrences r = getIssueCount issues /\
    severityCounts r =
      map (fun s => length (getIssuesBySeverity s issues)) [critical; high; medium; low] /\
    list_sum (severityCounts r) = Report.totalOccurrences r.
Proof.
  intros relative now issues r.
  assert (Hsev : forall s,
    countOccurrences (consolidatedWith s (consolidateIssues issues)) =
    length (getIssuesBySeverity s issues)).
  { intros s. unfold consolidateIssues. rewrite severityCount_entries.
    rewrite consolidate_fold_severity; [reflexivity | constructor]. }
  assert (Htot : Report.totalOccurrences r = length issues).
  { apply consolidate_keeps_every_occurrence. }
  assert (Hcounts : severityCounts r =
    map (fun s => length (getIssuesBySeverity s issues)) [critical; high; medium; low]).
  { unfold severityCounts, r, exportResults.
    cbn [Report.bySeverity Report.critical Report.high Report.medium Report.low map].
    rewrite !Hsev. reflexivity. }
  split; [exact Htot|]. split; [exact Hcounts|].
  rewrite Hcounts, Htot. unfold list_sum. cbn [map fold_right].
  pose proof (severity_partition issues). lia.
Qed.

Lemma addLocation_located key loc : forall m,
  Forall (fun e => Consolidated.location (snd e) <> []) m ->
  Forall (fun e => Consolidated.location (snd e) <> []) (addLocation key loc m).
Proof.
  induction m as [|[k c] m IH]; intros H; [constructor|].
  inversion H as [|e m' He H']; subst. cbn [addLocation].
  destruct (String.eqb k key).
  - constructor; [|exact H']. cbn [snd pushLocation Consolidated.location].
    destruct (Consolidated.location c); discriminate.
  - constructor; [exact He | exact (IH H')].
Qed.

Lemma consolidate_fold_located issues : forall m,
  Forall (fun e => Consolidated.location (snd e) <> []) m ->
  Forall (fun e => Consolidated.location (snd e) <> [])
         (fold_left consolidateStep issues m).
Proof.
  induction issues as [|issue issues IH]; intros m H; [exact H|].
  cbn [fold_left]. apply IH. unfold consolidateStep. cbv zeta.
  destruct (mapHas (issueKey issue) m).
  - apply addLocation_located. exact H.
  - apply Forall_app. split; [exact H|]. constructor; [|constructor].
    cbn [snd newEntry Consolidated.location]. discriminate.
Qed.

Lemma located_count (cs : list ConsolidatedIssue) :
  Forall (fun c => Consolidated.location c <> []) cs ->
  length cs <= list_sum (map (fun c => length (Consolidated.location c)) cs).
Proof.
  induction 1 as [|c cs Hc _ IH]; [simpl; lia|].
  cbn [map length]. rewrite list_sum_cons.
  destruct (Consolidated.location c); [destruct (Hc eq_refl)|simpl; lia].
Qed.

(** X11.  Every group of the exported report holds at least one location, so
    the report never has more groups than occurrences; the groups are
    the distinct keys met, and there is none only when no issue was
    found. *)
Theorem export_groups_are_located :
  forall relative now issues,
    let r := exportResults relative now issues in
    Forall (fun c => Consolidated.location c <> []) (Report.issues r) /\
    Report.uniqueIssuesTotal r <= Report.totalOccurrences r /\
    Report.uniqueIssuesTotal r = length (firstSeen [] (map issueKey issues)) /\
    (Report.uniqueIssuesTotal r = 0 <-> issues = []).
Proof.
  intros relative now issues r.
  assert (Hloc : Forall (fun c => Consolidated.location c <> []) (consolidateIssues issues)).
  { unfold consolidateIssues. apply Forall_map.
    apply consolidate_fold_located. constructor. }
  assert (Hlen : length (consolidateIssues issues) = length (firstSeen [] (map issueKey issues))).
  { unfold consolidateIssues. rewrite length_map, <- consolidate_first_seen_order.
    rewrite length_map. reflexivity. }
  split; [exact Hloc|]. split; [|split; [exact Hlen|]].
  - unfold r, exportResults. cbn [Report.uniqueIssuesTotal Report.totalOccurrences].
    rewrite countOccurrences_locations. apply located_count. exact Hloc.
  - unfold r, exportResults. cbn [Report.uniqueIssuesTotal]. rewrite Hlen.
    destruct issues as [|i issues]; [split; reflexivity|].
    simpl. split; intros H; discriminate.
Qed.

(** *** Grouping by type *)

Lemma typeMapHas_In type m : typeMapHas type m = true <-> In type (map fst m).
Proof.
  induction m as [|[k cs] m IH]; simpl; [split; [discriminate | intros []]|].
  rewrite orb_true_iff, IH, String.eqb_eq. reflexivity.
Qed.

Lemma typeMapPush_keys type c m : map fst (typeMapPush type c m) = map fst m.
Proof.
  induction m as [|[k cs] m IH]; [reflexivity|]. cbn [typeMapPush].
  destruct (String.eqb k type); cbn [map fst]; [reflexivity | rewrite IH; reflexivity].
Qed.

Lemma groupedSum_push mu type c : forall m,
  typeMapHas type m = true ->
  groupedSum mu (typeMapPush type c m) = groupedSum mu m + mu c.
Proof.
  unfold groupedSum.
  induction m as [|[k cs] m IH]; intros H; [discriminate|].
  cbn [typeMapPush typeMapHas] in *. destruct (String.eqb k type).
  - cbn [map snd]. rewrite !list_sum_cons, map_app, list_sum_app. simpl. lia.
  - simpl in H. cbn [map snd]. rewrite !list_sum_cons, (IH H). lia.
Qed.

Lemma groupedSum_opened mu type m : groupedSum mu (m ++ [(type, [])]) = groupedSum mu m.
Proof. unfold groupedSum. rewrite map_app, list_sum_app. simpl. lia. Qed.

Lemma groupStep_sum mu m c : groupedSum mu (groupStep m c) = groupedSum mu m + mu c.
Proof.
  unfold groupStep. cbv zeta. destruct (typeMapHas (Consolidated.type c) m) eqn:Eh.
  - apply groupedSum_push. exact Eh.
  - rewrite groupedSum_push, groupedSum_opened; [reflexivity|].
    apply typeMapHas_In. rewrite map_app. apply in_or_app. right. left. reflexivity.
Qed.

Lemma groupStep_keys m c :
  NoDup (map fst m) -> NoDup (map fst (groupStep m c)).
Proof.
  intros Hn. unfold groupStep. cbv zeta. rewrite typeMapPush_keys.
  destruct (typeMapHas (Consolidated.type c) m) eqn:Eh; [exact Hn|].
  rewrite map_app. cbn [map fst]. apply NoDup_app; [exact Hn | |].
  - constructor; [intros [] | constructor].
  - intros x Hx [Hy|[]]. subst x. apply typeMapHas_In in Hx. congruence.
Qed.

Lemma group_fold mu cs : forall m,
  NoDup (map fst m) ->
  NoDup (map fst (fold_left groupStep cs m)) /\
  groupedSum mu (fold_left groupStep cs m) = groupedSum mu m + list_sum (map mu cs).
Proof.
  induction cs as [|c cs IH]; intros m Hn; [simpl; split; [exact Hn | lia]|].
  cbn [fold_left]. destruct (IH _ (groupStep_keys m c Hn)) as [Hk Hs].
  split; [exact Hk|]. rewrite Hs, groupStep_sum. cbn [map]. rewrite list_sum_cons. lia.
Qed.

Lemma group_all mu cs :
  NoDup (map fst (fold_left groupStep cs [])) /\
  groupedSum mu (fold_left groupStep cs []) = list_sum (map mu cs).
Proof.
  destruct (group_fold mu cs [] (NoDup_nil _)) as [Hk Hs]. split; [exact Hk|].
  rewrite Hs. reflexivity.
Qed.

Lemma length_as_sum {A} (l : list A) : length l = list_sum (map (fun _ => 1) l).
Proof. induction l as [|a l IH]; [reflexivity|]. cbn [map length]. rewrite list_sum_cons, IH. lia. Qed.

(** X12.  The per-type table of the exported report lists each type once;
    its occurrence counts add up to the total of the report and its
    group counts to the number of groups, and a type shows at most
    three samples of at most three locations each. *)
Theorem export_by_type_adds_up :
  forall relative now issues,
    let r := exportResults relative now issues in
    NoDup (map Report.type (Report.byType r)) /\
    list_sum (map Report.occurrences (Report.byType r)) = Report.totalOccurrences r /\
    list_sum (map Report.uniqueIssues (Report.byType r)) = Report.uniqueIssuesTotal r /\
    Forall (fun t => length (Report.sample t) <= 3 /\
                     Forall (fun s => length (Report.locations s) <= 3) (Report.sample t))
           (Report.byType r).
Proof.
  intros relative now issues r. unfold r, exportResults. cbv zeta.
  cbn [Report.byType Report.totalOccurrences Report.uniqueIssuesTotal].
  set (cs := consolidateIssues issues).
  rewrite !map_map. unfold typeSummary.
  cbn [Report.type Report.occurrences Report.uniqueIssues].
  split; [|split; [|split]].
  - exact (proj1 (group_all (fun _ => 1) cs)).
  - destruct (group_all (fun c => length (Consolidated.location c)) cs) as [_ Hs].
    unfold groupedSum in Hs. rewrite countOccurrences_locations.
    rewrite <- Hs. f_equal. apply map_ext. intros e. apply countOccurrences_locations.
  - destruct (group_all (fun _ => 1) cs) as [_ Hs].
    unfold groupedSum in Hs. rewrite (length_as_sum cs).
    rewrite <- Hs. f_equal. apply map_ext. intros e. apply length_as_sum.
  - apply Forall_map. apply Forall_forall. intros e _.
    cbn [Report.sample]. split.
    + rewrite length_map, length_firstn. lia.
    + apply Forall_map. apply Forall_forall. intros c _.
      unfold sampleOf. cbn [Report.locations]. rewrite length_firstn. lia.
Qed.

(** ** File discovery and the run over the files *)

Lemma uniqueFiles_In f : forall files seen,
  In f (uniqueFiles seen files) <-> In f files /\ ~ In f seen.
Proof.
  induction files as [|g files IH]; intros seen; cbn [uniqueFiles].
  - split; [intros [] | intros [[] _]].
  - destruct (existsb (String.eqb g) seen) eqn:Eg.
    + rewrite IH. apply existsb_exists in Eg as (x & Hx & Ex).
      apply String.eqb_eq in Ex. subst x.
      split; [intros [H1 H2]; split; [right; exact H1 | exact H2]|].
      intros [[->|H1] H2]; [contradiction | split; assumption].
    + assert (Hg : ~ In g seen).
      { intros Hin. assert (existsb (String.eqb g) seen = true); [|congruence].
        apply existsb_exists. exists g. split; [exact Hin | apply String.eqb_refl]. }
      cbn [In]. rewrite IH. split.
      * intros [->|[H1 H2]]; [split; [left; reflexivity | exact Hg]|].
        split; [right; exact H1|]. intros Hin. apply H2. apply in_or_app. left. exact Hin.
      * intros [[->|H1] H2]; [left; reflexivity|].
        destruct (String.eqb g f) eqn:Egf; [apply String.eqb_eq in Egf; left; exact Egf|].
        right. split; [exact H1|]. intros Hin. apply in_app_or in Hin as [Hin|[->|[]]].
        -- contradiction.
        -- rewrite String.eqb_refl in Egf. discriminate.
Qed.

Lemma uniqueFiles_NoDup : forall files seen, NoDup (uniqueFiles seen files).
Proof.
  induction files as [|g files IH]; intros seen; cbn [uniqueFiles]; [constructor|].
  destruct (existsb (String.eqb g) seen); [apply IH|].
  constructor; [|apply IH]. rewrite uniqueFiles_In. intros [_ H]. apply H.
  apply in_or_app. right. left. reflexivity.
Qed.

(** X13.  The files found are, each once, the files the search returns for
    one of the four extensions and the second filter lets through. *)
Theorem found_files_are_filtered_glob_results :
  forall globSync relative,
    NoDup (findAllFiles globSync relative) /\
    forall file,
      In file (findAllFiles globSync relative) <->
      exists ext, In ext targetExtensions /\ In file (globSync ext) /\
                  notGenerated (relativePathOf relative file) = true.
Proof.
  intros globSync relative. unfold findAllFiles. split; [apply uniqueFiles_NoDup|].
  intros file. rewrite uniqueFiles_In, in_flat_map. split.
  - intros [(ext & He & Hf) _]. apply filter_In in Hf as [Hf Hn]. exists ext. auto.
  - intros (ext & He & Hf & Hn). split; [|intros []].
    exists ext. split; [exact He|]. apply filter_In. auto.
Qed.

Lemma notGenerated_fragment fragment pre post :
  In fragment excludedFragments ->
  notGenerated (pre ++ fragment ++ post) = false.
Proof.
  intros Hin. pose proof (includes_middle pre fragment post) as Hinc.
  unfold excludedFragments in Hin. unfold notGenerated.
  repeat (destruct Hin as [<-|Hin]; [rewrite Hinc; cbn [negb andb]; rewrite ?andb_false_r; reflexivity|]).
  destruct Hin.
Qed.

(** X14.  The second filter looks for its fragments anywhere in the relative
    path, not for whole directory names: a file below a directory whose
    name merely ends in [out], [temp], [dist], [build], [coverage] or
    [generated] (such as [about/], [layout/] or [checkout/]) is never
    scanned. *)
Theorem path_fragment_excludes_file :
  forall globSync relative file fragment pre post,
    In fragment excludedFragments ->
    relativePathOf relative file = (pre ++ fragment ++ post)%string ->
    existsb (String.eqb file) (findAllFiles globSync relative) = false.
Proof.
  intros globSync relative file fragment pre post Hfrag Hpath.
  destruct (existsb (String.eqb file) (findAllFiles globSync relative)) eqn:E; [|reflexivity].
  apply existsb_exists in E as (x & Hx & Ex). apply String.eqb_eq in Ex. subst x.
  unfold findAllFiles in Hx. apply uniqueFiles_In in Hx as [Hx _].
  apply in_flat_map in Hx as (ext & _ & Hf). apply filter_In in Hf as [_ Hn].
  rewrite Hpath, (notGenerated_fragment fragment pre post Hfrag) in Hn. discriminate.
Qed.

Lemma path_fragment_excludes_file_witness :
  let globSync := fun ext : string =>
    if String.eqb ext ".tsx" then ["app/about/page.tsx"; "app/page.tsx"] else [] in
  let relative := fun file : string => file in
  existsb (String.eqb "app/about/page.tsx") (findAllFiles globSync relative) = false.
Proof.
  intros globSync relative.
  apply (path_fragment_excludes_file globSync relative "app/about/page.tsx"
           "out/" "app/ab" "page.tsx").
  - vm_compute. tauto.
  - vm_compute. reflexivity.
Defined.







Lemma builtin_rule_severity :
  forallb (fun p => Bool.eqb (Severity_eqb (Pattern.severity p) critical)
                             (String.eqb (Pattern.id p) "hallucinated_react_import" ||
                              String.eqb (Pattern.id p) "hallucinated_next_import"))
          detectionPatterns = true.
Proof. vm_compute. reflexivity. Qed.

Lemma analyzeFiles_origin patterns files quiet issues issue :
  analyzeFiles patterns files quiet = Some issues -> In issue issues ->
  isNestedControl issue = true /\ Issue.severity issue = medium \/
  exists p, In p patterns /\ Issue.type issue = Pattern.id p /\
            Issue.severity issue = Pattern.severity p.
Proof.
  unfold analyzeFiles. intros H Hin.
  apply (collect_In _ _ _ issue H) in Hin as (f & bs & _ & Hf & Hb).
  unfold analyzeFile in Hf.
  destruct (analyzeLines_issue_origin _ _ _ _ _ _ Hf Hb) as (i & _ & [Hrule|Hnest]).
  - destruct Hrule as (p & ms & m & Hp & _ & _ & _ & _ & ->).
    right. exists p. repeat split; auto.
  - destruct (nested_issue_type _ _ _ _ _ _ Hnest) as (Ht & _ & _ & Hs).
    left. unfold isNestedControl. rewrite Ht. split; [reflexivity | exact Hs].
Qed.

Lemma builtin_types_own :
  forallb (fun p => negb (isInherited (Pattern.id p))) detectionPatterns = true.
Proof. vm_compute. reflexivity. Qed.

(** X16.  The exit code of a run with the built-in rules.  When [detect]
    or [exportResults] throws it is 1, whatever was found.  When both
    return (the report does not throw on what these rules find), it is
    0 exactly when nothing was found; in strict mode it is 2 exactly
    when one of the two import rules fired, since they alone are
    critical; without strict mode it is never 2; it is 1 in every other
    case. *)
Theorem exit_code_of_builtin_run :
  forall files quiet issues strict,
    analyzeFiles detectionPatterns files quiet = Some issues ->
    (exitCode strict (Returned issues) = 0 <-> issues = []) /\
    (exitCode strict (Returned issues) = 2 <->
     strict = true /\
     existsb (fun issue => String.eqb (Issue.type issue) "hallucinated_react_import" ||
                           String.eqb (Issue.type issue) "hallucinated_next_import")
             issues = true) /\
    exitCode strict (Returned issues) <= 2 /\
    (forall e, exitCode strict (Threw e) = 1) /\
    groupingThrows issues = false.
Proof.
  intros files quiet issues strict H.
  assert (Hcrit : forall issue, In issue issues ->
            Severity_eqb (Issue.severity issue) critical =
            (String.eqb (Issue.type issue) "hallucinated_react_import" ||
             String.eqb (Issue.type issue) "hallucinated_next_import")).
  { intros issue Hin.
    destruct (analyzeFiles_origin _ _ _ _ _ H Hin) as [[Hn Hs]|(p & Hp & Ht & Hs)].
    - unfold isNestedControl in Hn. apply String.eqb_eq in Hn. rewrite Hs, Hn. reflexivity.
    - pose proof builtin_rule_severity as Hall. rewrite forallb_forall in Hall.
      specialize (Hall p Hp). apply Bool.eqb_prop in Hall. rewrite Hs, Ht. exact Hall. }
  assert (Hown : ownKeyTypes issues = true).
  { unfold ownKeyTypes. apply forallb_forall. intros issue Hin.
    destruct (analyzeFiles_origin _ _ _ _ _ H Hin) as [[Hn Hs]|(p & Hp & Ht & Hs)].
    - unfold isNestedControl in Hn. apply String.eqb_eq in Hn. rewrite Hn. reflexivity.
    - pose proof builtin_types_own as Hall. rewrite forallb_forall in Hall.
      rewrite Ht. exact (Hall p Hp). }
  assert (Hfilter : (0 <? length (filter (fun i => Severity_eqb (Issue.severity i) critical) issues)) =
                    existsb (fun issue => String.eqb (Issue.type issue) "hallucinated_react_import" ||
                                          String.eqb (Issue.type issue) "hallucinated_next_import")
                            issues).
  { clear H Hown. induction issues as [|i issues IH]; [reflexivity|].
    cbn [filter existsb]. rewrite (Hcrit i (or_introl eq_refl)).
    destruct (_ || _); [reflexivity|].
    cbn [orb]. apply IH. intros j Hj. apply Hcrit. right. exact Hj. }
  assert (Hthrow : groupingThrows issues = false) by (apply ownKeyTypes_no_throw; exact Hown).
  unfold exitCode. cbv zeta. rewrite Hfilter.
  destruct strict, (existsb _ issues) eqn:Ee; cbn [andb];
    destruct issues as [|i issues]; cbn [length Nat.ltb Nat.leb];
    try (cbn in Ee; discriminate);
    repeat split; intros; try discriminate; try lia; try reflexivity; try exact Hthrow;
    try (destruct H0; discriminate).
Qed.

Lemma exit_code_of_builtin_run_witness :
  let files := [("src/page.tsx", "import { useRouter } from 'react';")] in
  let issues := issuesOrNone (analyzeFiles detectionPatterns files false) in
  (exitCode true (Returned issues) = 0 <-> issues = []) /\
  (exitCode true (Returned issues) = 2 <->
   true = true /\
   existsb (fun issue => String.eqb (Issue.type issue) "hallucinated_react_import" ||
                         String.eqb (Issue.type issue) "hallucinated_next_import")
           issues = true) /\
  exitCode true (Returned issues) <= 2 /\
  (forall e, exitCode true (Threw e) = 1) /\
  groupingThrows issues = false.
Proof.
  intros files issues.
  apply (exit_code_of_builtin_run files false issues true).
  vm_compute. reflexivity.
Defined.

(** ** The two scope heuristics *)

(** X17.  The enclosure test goes by the text [catch (] alone.  When no line
    at or above the target contains it (as with [catch(e)] or a bare
    [catch {]), the test answers false; and a line at or above the
    target that contains it together with an opening brace makes the
    test answer true however far above it stands and whatever closes in
    between. *)
Theorem enclosure_test_goes_by_catch_text :
  forall lines lineIndex,
    ((forall i, i <= lineIndex -> includes (line_at lines i) "catch (" = false) ->
     isInTryCatchBlock lines lineIndex = false) /\
    (forall c, c <= lineIndex ->
               includes (line_at lines c) "catch (" = true ->
               includes (line_at lines c) "{" = true ->
               isInTryCatchBlock lines lineIndex = true).
Proof.
  intros lines idx.
  assert (Hspec : isInTryCatchBlock lines idx = existsb (returnsAt lines idx) (seq 0 (S idx))).
  { pose proof (tryCatchScan_spec lines idx idx (le_n idx)) as H.
    rewrite Nat.sub_diag in H. exact H. }
  rewrite Hspec. split.
  - intros Hno. apply existsb_false. intros i Hi. apply in_seq in Hi.
    unfold returnsAt, catchOpensAt. rewrite (Hno i) by lia. cbn [andb orb negb].
    unfold catchBetween. rewrite existsb_false; [reflexivity|].
    intros c Hc. apply in_seq in Hc. apply Hno. lia.
  - intros c Hc Hcatch Hbrace. apply existsb_exists. exists c. split; [apply in_seq; lia|].
    unfold returnsAt, catchOpensAt. rewrite Hcatch, Hbrace. reflexivity.
Qed.

(** A call on a line that contains both [fetch(] and [.catch(] always
    counts as handled, whether or not a function could be bounded
    around it. *)
Lemma same_line_catch_handled lines i k :
  i < length lines ->
  includes (line_at lines i) "fetch(" = true ->
  includes (line_at lines i) ".catch(" = true ->
  isFetchCallProperlyHandled lines i k = true.
Proof.
  intros Hi Hfetch Hcatch.
  assert (Hnear : handledNearby lines i = true).
  { unfold handledNearby. cbv zeta. apply existsb_exists. exists i. split.
    - apply in_seq. lia.
    - unfold hasHandlerToken. rewrite Hcatch. reflexivity. }
  unfold isFetchCallProperlyHandled. cbv zeta.
  destruct (findFunctionStart lines i) as [s|]; [|exact Hnear].
  destruct (findFunctionEnd lines (Some s) i) as [e|]; [|exact Hnear].
  destruct (existsb _ (seq s (S e - s))); [reflexivity|].
  rewrite Hfetch, Hcatch, orb_true_r. cbn [andb].
  destruct (Nat.min (length lines) (i + 5) - i) as [|n] eqn:En; [lia|].
  cbn [chainHasCatch]. rewrite Hcatch. reflexivity.
Qed.

(** X18.  With the built-in rules, in a file outside the tests, a line that
    contains both [fetch(] and [.catch(] gets no issue of the
    missing-error-handling rule. *)
Theorem same_line_catch_handles_fetch :
  forall filePath quiet lines i issues,
    analyzeLines detectionPatterns filePath quiet lines = Some issues ->
    isTestFile filePath = false ->
    i < length lines ->
    includes (line_at lines i) "fetch(" = true ->
    includes (line_at lines i) ".catch(" = true ->
    reportedUnhandled issues i = [].
Proof.
  intros filePath quiet lines i issues H Ht Hi Hfetch Hcatch.
  destruct (execAll_total (Pattern.pattern missing_error_handling) (line_at lines i) eq_refl)
    as [ms Hms].
  rewrite (reported_unhandled_of_line filePath quiet lines issues i ms H Hi Ht Hms).
  rewrite (filter_nil_iff _ ms); [reflexivity|].
  intros m _. rewrite (same_line_catch_handled lines i (index m) Hi Hfetch Hcatch). reflexivity.
Qed.

Lemma same_line_catch_handles_fetch_witness :
  let lines := ["fetch(url).then(done).catch(report);"] in
  reportedUnhandled
    (issuesOrNone (analyzeLines detectionPatterns "app/api.ts" false lines)) 0 = [].
Proof.
  intros lines.
  apply (same_line_catch_handles_fetch "app/api.ts" false lines 0).
  - vm_compute. reflexivity.
  - vm_compute. reflexivity.
  - simpl. lia.
  - vm_compute. reflexivity.
  - vm_compute. reflexivity.
Defined.

(** ** What is never reported where *)

Lemma builtin_test_exempt :
  forallb (fun p => Pattern.skipTests p ||
                    negb (existsb (String.eqb (Pattern.id p)) testExemptTypes))
          detectionPatterns = true.
Proof. vm_compute. reflexivity. Qed.

Lemma builtin_mock_exempt :
  forallb (fun p => Pattern.skipMocks p ||
                    negb (existsb (String.eqb (Pattern.id p)) mockExemptTypes))
          detectionPatterns = true.
Proof. vm_compute. reflexivity. Qed.

Lemma skipMatch_false_parts p filePath quiet lines i m :
  skipMatch p filePath quiet lines i m = false ->
  declarationFileAny p filePath = false /\
  commentInTestContext p filePath (line_at lines i) = false /\
  assertionInTest p filePath = false.
Proof.
  unfold skipMatch, skipMatchWith. cbv zeta. intros H.
  repeat (apply orb_false_iff in H as [H ?]). auto.
Qed.

(** X19.  What a scan never reports, by the kind of file.  For any registry:
    in a declaration file no issue of a rule whose id contains [any];
    under a path that contains [test] or [spec] no issue of the two
    comment rules on hedging and assumptions nor of the type-assertion
    rule.  For the built-in rules moreover: in a test file no issue of
    the three rules marked to skip tests, and in a mock file none of the
    production-logging rule. *)
Theorem file_kind_exemptions :
  forall patterns filePath quiet lines issues issue,
    analyzeLines patterns filePath quiet lines = Some issues ->
    In issue issues ->
    (endsWith filePath ".d.ts" = true -> includes (Issue.type issue) "any" = false) /\
    (inTestPath filePath = true -> typeAmong testPathExemptTypes issue = false) /\
    (patterns = detectionPatterns ->
       (isTestFile filePath = true -> typeAmong testExemptTypes issue = false) /\
       (isMockFile filePath = true -> typeAmong mockExemptTypes issue = false)).
Proof.
  intros patterns filePath quiet lines issues issue H Hin.
  destruct (analyzeLines_issue_origin _ _ _ _ _ _ H Hin) as (i & _ & [Hrule|Hnest]).
  - destruct Hrule as (p & ms & m & Hp & Hs & _ & _ & Hk & ->).
    destruct (skipMatch_false_parts _ _ _ _ _ _ Hk) as (Hd & Hc & Ha).
    unfold typeAmong, issueOf. cbn [Issue.type].
    split; [|split].
    + intros Hext. unfold declarationFileAny in Hd. rewrite Hext, andb_true_r in Hd. exact Hd.
    + intros Hpath. unfold commentInTestContext, assertionInTest, idIs in Hc, Ha.
      rewrite Hpath in Hc, Ha. cbn [orb] in Hc. rewrite andb_true_r in Hc, Ha.
      apply orb_false_iff in Hc as [Hc1 Hc2].
      unfold testPathExemptTypes. cbn [existsb]. rewrite Hc1, Hc2, Ha. reflexivity.
    + intros ->. unfold skipPattern in Hs.
      apply orb_false_iff in Hs as [Hs _]. apply orb_false_iff in Hs as [Hst Hsm].
      pose proof builtin_test_exempt as Et. pose proof builtin_mock_exempt as Em.
      rewrite forallb_forall in Et, Em. specialize (Et p Hp). specialize (Em p Hp).
      split; intros Hfile.
      * rewrite Hfile, andb_true_r in Hst. rewrite Hst in Et. cbn [orb] in Et.
        apply negb_true_iff in Et. exact Et.
      * rewrite Hfile, andb_true_r in Hsm. rewrite Hsm in Em. cbn [orb] in Em.
        apply negb_true_iff in Em. exact Em.
  - destruct (nested_issue_type _ _ _ _ _ _ Hnest) as (Ht & _).
    unfold typeAmong. rewrite Ht. repeat split; intros; vm_compute; reflexivity.
Qed.

Lemma file_kind_exemptions_witness :
  let lines := ["const x: any = 1; console.log(x);"] in
  let issues := issuesOrNone (analyzeLines detectionPatterns "src/api.test.ts" false lines) in
  let issue := nth 0 issues (Issue.mk EmptyString EmptyString 0 0 EmptyString EmptyString low) in
  (endsWith "src/api.test.ts" ".d.ts" = true -> includes (Issue.type issue) "any" = false) /\
  (inTestPath "src/api.test.ts" = true -> typeAmong testPathExemptTypes issue = false) /\
  (detectionPatterns = detectionPatterns ->
     (isTestFile "src/api.test.ts" = true -> typeAmong testExemptTypes issue = false) /\
     (isMockFile "src/api.test.ts" = true -> typeAmong mockExemptTypes issue = false)).
Proof.
  intros lines issues issue.
  apply (file_kind_exemptions detectionPatterns "src/api.test.ts" false lines issues issue).
  - vm_compute. reflexivity.
  - vm_compute. left. reflexivity.
Defined.

(** ** Loading a configuration *)

Section ConfigLoading.
Variable compileRegExp : string -> option regex.
Variable displayString : value -> string.

Lemma loadConfig_skips d : forall skipped rest,
  Forall (rejected compileRegExp) skipped ->
  loadConfig compileRegExp displayString d (skipped ++ rest) =
  loadConfig compileRegExp displayString d rest.
Proof.
  induction skipped as [|c skipped IH]; intros rest H; [reflexivity|].
  inversion H as [|c' l Hc Hl]; subst. cbn [app loadConfig].
  destruct c as [| |v]; try (apply IH; exact Hl).
  destruct Hc as [e He]. rewrite He. apply IH. exact Hl.
Qed.

Lemma validateConfig_returns_argument cfg cfg' :
  validateConfig compileRegExp cfg = Returned cfg' -> cfg' = cfg.
Proof.
  unfold validateConfig. destruct (negb (isObject cfg)); [discriminate|]. cbv zeta.
  destruct (match get cfg "customPatterns" with
            | None => Returned tt
            | Some (JArray patterns) => validateCustomPatterns compileRegExp 0 patterns
            | Some _ => Threw (Error "customPatterns must be an array")
            end); [|discriminate].
  destruct (match get cfg "severityOverrides" with
            | None => Returned tt
            | Some v => if isObject v then validateOverrides (entries v)
                        else Threw (Error "severityOverrides must be an object")
            end); [|discriminate].
  destruct (match get cfg "ignorePaths" with
            | None => Returned tt
            | Some (JArray paths) => validateIgnorePaths 0 paths
            | Some _ => Threw (Error "ignorePaths must be an array of strings")
            end); [|discriminate].
  intros H. inversion H. reflexivity.
Qed.

End ConfigLoading.

(** X20.  The candidate files are tried in order and the first that parses
    and validates is applied; the files after it are not read, and when
    every candidate is missing, unparsable or rejected the detector
    stays as constructed. *)
Theorem first_valid_config_wins :
  forall compileRegExp displayString d skipped,
    Forall (rejected compileRegExp) skipped ->
    loadConfig compileRegExp displayString d skipped = d /\
    forall v cfg rest,
      validateConfig compileRegExp v = Returned cfg ->
      loadConfig compileRegExp displayString d (skipped ++ Parsed v :: rest) =
      applyConfig compileRegExp displayString d v.
Proof.
  intros compileRegExp displayString d skipped H. split.
  - rewrite <- (app_nil_r skipped) at 1. rewrite loadConfig_skips; [reflexivity | exact H].
  - intros v cfg rest Hv. rewrite loadConfig_skips by exact H.
    cbn [loadConfig]. rewrite Hv.
    rewrite (validateConfig_returns_argument compileRegExp v cfg Hv). reflexivity.
Qed.

Lemma first_valid_config_wins_witness :
  let compileRegExp := fun src : string => Some (lit src) in
  let displayString := fun _ : value => EmptyString in
  let broken := JObject [("customPatterns", JString "none")] in
  let skipped := [Missing; Parsed broken; Unparsable] in
  loadConfig compileRegExp displayString initialDetector skipped = initialDetector /\
  forall v cfg rest,
    validateConfig compileRegExp v = Returned cfg ->
    loadConfig compileRegExp displayString initialDetector (skipped ++ Parsed v :: rest) =
    applyConfig compileRegExp displayString initialDetector v.
Proof.
  intros compileRegExp displayString broken skipped.
  apply (first_valid_config_wins compileRegExp displayString initialDetector skipped).
  repeat constructor. exists (Error "customPatterns must be an array"). reflexivity.
Defined.

Section ConfigAccepted.
Variable compileRegExp : string -> option regex.

Lemma nonEmptyString_some o s :
  nonEmptyString o = Some s -> o = Some (JString s) /\ s <> EmptyString.
Proof.
  unfold nonEmptyString. destruct o as [[| | |t| |]|]; try discriminate.
  destruct (String.eqb t EmptyString) eqn:E; [discriminate|].
  intros H. inversion H; subst. split; [reflexivity|].
  intros ->. discriminate.
Qed.

Lemma isValidSeverity_true o :
  isValidSeverity o = true -> exists sev, o = Some (JString sev) /\ In sev validSeverities.
Proof.
  unfold isValidSeverity. destruct o as [[| | |s| |]|]; try discriminate.
  intros H. apply existsb_exists in H as (x & Hx & Ex). apply String.eqb_eq in Ex. subst x.
  exists s. split; [reflexivity | exact Hx].
Qed.

Lemma validateCustomPattern_accepts i rule :
  validateCustomPattern compileRegExp i rule = Returned tt -> wellFormedRule compileRegExp rule.
Proof.
  unfold validateCustomPattern. cbv zeta. intros H.
  assert (Hbody :
    match nonEmptyString (get rule "id") with
    | None => Threw (Error (("customPatterns[" ++ ofNat i ++ "]") ++ ".id must be a string"))
    | Some _ =>
      match nonEmptyString (get rule "pattern") with
      | None => Threw (Error (("customPatterns[" ++ ofNat i ++ "]") ++ ".pattern must be a string"))
      | Some src =>
        match nonEmptyString (get rule "message") with
        | None => Threw (Error (("customPatterns[" ++ ofNat i ++ "]") ++ ".message must be a string"))
        | Some _ =>
          if negb (truthy (get rule "severity")) || negb (isValidSeverity (get rule "severity"))
          then Threw (Error (("customPatterns[" ++ ofNat i ++ "]") ++ ".severity" ++ mustBeOneOf))
          else match compileRegExp src with
               | None => Threw (Error (("customPatterns[" ++ ofNat i ++ "]") ++
                                       ".pattern is not a valid regex: " ++ src))
               | Some _ => Returned tt
               end
        end
      end
    end = Returned tt).
  { destruct rule; try exact H. discriminate. }
  clear H.
  destruct (nonEmptyString (get rule "id")) as [id|] eqn:Eid; [|discriminate].
  destruct (nonEmptyString (get rule "pattern")) as [src|] eqn:Esrc; [|discriminate].
  destruct (nonEmptyString (get rule "message")) as [msg|] eqn:Emsg; [|discriminate].
  destruct (negb (truthy (get rule "severity")) || negb (isValidSeverity (get rule "severity")))
    eqn:Esev; [discriminate|].
  destruct (compileRegExp src) as [r|] eqn:Er; [|discriminate].
  apply orb_false_iff in Esev as [_ Esev]. apply negb_false_iff in Esev.
  apply isValidSeverity_true in Esev as (sev & Hsev & Hin).
  apply nonEmptyString_some in Eid as [Hid Hid'].
  apply nonEmptyString_some in Esrc as [Hsrc Hsrc'].
  apply nonEmptyString_some in Emsg as [Hmsg Hmsg'].
  exists id, src, msg, sev, r. repeat split; assumption.
Qed.

Lemma validateCustomPatterns_accepts : forall rules k,
  validateCustomPatterns compileRegExp k rules = Returned tt ->
  Forall (wellFormedRule compileRegExp) rules.
Proof.
  induction rules as [|rule rules IH]; intros k H; [constructor|].
  cbn [validateCustomPatterns] in H.
  destruct (validateCustomPattern compileRegExp k rule) as [[]|] eqn:E; [|discriminate].
  constructor; [eapply validateCustomPattern_accepts; exact E | eapply IH; exact H].
Qed.

Lemma validateOverrides_accepts : forall es,
  validateOverrides es = Returned tt ->
  Forall (fun e => isValidSeverity (Some (snd e)) = true) es.
Proof.
  induction es as [|[key v] es IH]; intros H; [constructor|].
  cbn [validateOverrides] in H.
  destruct (isValidSeverity (Some v)) eqn:E; [|discriminate].
  constructor; [exact E | exact (IH H)].
Qed.

Lemma validateIgnorePaths_accepts : forall paths i,
  validateIgnorePaths i paths = Returned tt ->
  Forall (fun v => isString v = true) paths.
Proof.
  induction paths as [|v paths IH]; intros i H; [constructor|].
  cbn [validateIgnorePaths] in H. destruct v; try discriminate.
  constructor; [reflexivity | exact (IH _ H)].
Qed.

Lemma validateConfig_accepts cfg cfg' :
  validateConfig compileRegExp cfg = Returned cfg' ->
  Forall (wellFormedRule compileRegExp) (elements (get cfg "customPatterns")) /\
  Forall (fun e => isValidSeverity (Some (snd e)) = true) (overridesOf cfg) /\
  Forall (fun v => isString v = true) (elements (get cfg "ignorePaths")).
Proof.
  unfold validateConfig, overridesOf. destruct (negb (isObject cfg)); [discriminate|]. cbv zeta.
  destruct (get cfg "customPatterns") as [[| | | |patterns|]|] eqn:Ec; try discriminate.
  - destruct (validateCustomPatterns compileRegExp 0 patterns) as [[]|] eqn:Ep; [|discriminate].
    apply validateCustomPatterns_accepts in Ep.
    destruct (get cfg "severityOverrides") as [v|] eqn:Eo.
    + destruct (isObject v); [|discriminate].
      destruct (validateOverrides (entries v)) as [[]|] eqn:Ev; [|discriminate].
      apply validateOverrides_accepts in Ev.
      destruct (get cfg "ignorePaths") as [[| | | |paths|]|] eqn:Ei; try discriminate.
      * destruct (validateIgnorePaths 0 paths) as [[]|] eqn:Eg; [|discriminate].
        apply validateIgnorePaths_accepts in Eg. intros _. cbn [elements]. auto.
      * intros _. cbn [elements]. auto.
    + destruct (get cfg "ignorePaths") as [[| | | |paths|]|] eqn:Ei; try discriminate.
      * destruct (validateIgnorePaths 0 paths) as [[]|] eqn:Eg; [|discriminate].
        apply validateIgnorePaths_accepts in Eg. intros _. cbn [elements]. auto.
      * intros _. cbn [elements]. auto.
  - destruct (get cfg "severityOverrides") as [v|] eqn:Eo.
    + destruct (isObject v); [|discriminate].
      destruct (validateOverrides (entries v)) as [[]|] eqn:Ev; [|discriminate].
      apply validateOverrides_accepts in Ev.
      destruct (get cfg "ignorePaths") as [[| | | |paths|]|] eqn:Ei; try discriminate.
      * destruct (validateIgnorePaths 0 paths) as [[]|] eqn:Eg; [|discriminate].
        apply validateIgnorePaths_accepts in Eg. intros _. cbn [elements]. auto.
      * intros _. cbn [elements]. auto.
    + destruct (get cfg "ignorePaths") as [[| | | |paths|]|] eqn:Ei; try discriminate.
      * destruct (validateIgnorePaths 0 paths) as [[]|] eqn:Eg; [|discriminate].
        apply validateIgnorePaths_accepts in Eg. intros _. cbn [elements]. auto.
      * intros _. cbn [elements]. auto.
Qed.

End ConfigAccepted.

(** X21.  A configuration that validation accepts is returned as it is, and
    it is in order throughout: every custom rule has a non-empty id,
    pattern and message, one of the four severities and a pattern that
    compiles; every override names one of the four severities; every
    ignore path is a string. *)
Theorem accepted_config_is_well_formed :
  forall compileRegExp cfg cfg',
    validateConfig compileRegExp cfg = Returned cfg' ->
    cfg' = cfg /\
    Forall (wellFormedRule compileRegExp) (elements (get cfg "customPatterns")) /\
    Forall (fun e => isValidSeverity (Some (snd e)) = true) (overridesOf cfg) /\
    Forall (fun v => isString v = true) (elements (get cfg "ignorePaths")).
Proof.
  intros compileRegExp cfg cfg' H. split.
  - exact (validateConfig_returns_argument compileRegExp cfg cfg' H).
  - exact (validateConfig_accepts compileRegExp cfg cfg' H).
Qed.

Lemma accepted_config_is_well_formed_witness :
  let compileRegExp := fun src : string => Some (lit src) in
  let rule := JObject [("id", JString "no_alert"); ("pattern", JString "alert");
                       ("message", JString "No alert"); ("severity", JString "low")] in
  let cfg := JObject [("customPatterns", JArray [rule]);
                      ("severityOverrides", JObject [("any_type_usage", JString "low")]);
                      ("ignorePaths", JArray [JString "legacy/"])] in
  cfg = cfg /\
  Forall (wellFormedRule compileRegExp) (elements (get cfg "customPatterns")) /\
  Forall (fun e => isValidSeverity (Some (snd e)) = true) (overridesOf cfg) /\
  Forall (fun v => isString v = true) (elements (get cfg "ignorePaths")).
Proof.
  intros compileRegExp rule cfg.
  apply (accepted_config_is_well_formed compileRegExp cfg cfg).
  vm_compute. reflexivity.
Defined.

(** ** What a configuration changes *)

Lemma sameButSeverity_refl p : sameButSeverity p p.
Proof. exists (Pattern.severity p). destruct p; reflexivity. Qed.

Lemma sameButSeverity_trans p q r :
  sameButSeverity p q -> sameButSeverity q r -> sameButSeverity p r.
Proof. intros [s ->] [t ->]. exists t. reflexivity. Qed.

Lemma Forall2_same {A} (R : A -> A -> Prop) l : (forall a, R a a) -> Forall2 R l l.
Proof. intros H. induction l; constructor; auto. Qed.

Lemma Forall2_chain {A} (R : A -> A -> Prop) :
  (forall a b c, R a b -> R b c -> R a c) ->
  forall l1 l2 l3, Forall2 R l1 l2 -> Forall2 R l2 l3 -> Forall2 R l1 l3.
Proof.
  intros Ht l1 l2 l3 H12. revert l3.
  induction H12 as [|a b l1 l2 Hab _ IH]; intros l3 H23; inversion H23; subst; constructor.
  - eapply Ht; eassumption.
  - apply IH. assumption.
Qed.

Lemma overrideSeverity_same patternId severity rules :
  Forall2 sameButSeverity rules (overrideSeverity patternId severity rules).
Proof.
  induction rules as [|p rules IH]; [constructor|]. cbn [overrideSeverity].
  destruct (String.eqb (Pattern.id p) patternId).
  - constructor; [exists severity; reflexivity | apply Forall2_same, sameButSeverity_refl].
  - constructor; [apply sameButSeverity_refl | exact IH].
Qed.

Lemma overrides_same (severityOf : value -> Severity) overrides : forall rules,
  Forall2 sameButSeverity rules
    (fold_left (fun rules e => overrideSeverity (fst e) (severityOf (snd e)) rules)
               overrides rules).
Proof.
  induction overrides as [|e overrides IH]; intros rules; cbn [fold_left].
  - apply Forall2_same, sameButSeverity_refl.
  - eapply Forall2_chain; [exact sameButSeverity_trans | apply overrideSeverity_same | apply IH].
Qed.

(** The registry after a configuration: the rules of before, then the
    custom rules, each at most relabelled. *)
Lemma applyConfig_registry compileRegExp displayString d cfg :
  Forall2 sameButSeverity
    (registry d ++ map (customRule compileRegExp displayString)
                       (elements (get cfg "customPatterns")))
    (registry (applyConfig compileRegExp displayString d cfg)).
Proof.
  unfold applyConfig. cbv zeta. cbn [registry].
  apply (overrides_same (fun v => severityOfName (textOf displayString v))).
Qed.

(** X22.  An override relabels the first rule that has the id, and that rule
    alone: a later rule with the same id (a custom rule that reuses a
    built-in id) keeps its severity, and an id no rule has is passed
    over in silence. *)
Theorem override_relabels_first_rule_only :
  forall patternId severity rules,
    (Forall (fun q => String.eqb (Pattern.id q) patternId = false) rules ->
     overrideSeverity patternId severity rules = rules) /\
    (forall before p after,
        rules = before ++ p :: after ->
        Forall (fun q => String.eqb (Pattern.id q) patternId = false) before ->
        Pattern.id p = patternId ->
        overrideSeverity patternId severity rules =
        before ++ withSeverity p severity :: after).
Proof.
  intros patternId severity rules. split.
  - induction 1 as [|q rules Hq _ IH]; [reflexivity|].
    cbn [overrideSeverity]. rewrite Hq, IH. reflexivity.
  - intros before p after -> Hb Hp. subst patternId.
    induction Hb as [|q before Hq _ IH]; cbn [app overrideSeverity].
    + rewrite String.eqb_refl. reflexivity.
    + rewrite Hq, IH. reflexivity.
Qed.

Lemma skipMatch_same p severity filePath quiet lines i m :
  skipMatch (withSeverity p severity) filePath quiet lines i m =
  skipMatch p filePath quiet lines i m.
Proof. reflexivity. Qed.

Lemma sameFinding_refl a : sameFinding a a.
Proof. unfold sameFinding. repeat split; reflexivity. Qed.

Lemma patternIssues_same p q filePath quiet lines i :
  sameButSeverity p q ->
  sameFindings (patternIssues p filePath quiet lines i) (patternIssues q filePath quiet lines i).
Proof.
  intros [s ->]. unfold patternIssues.
  change (skipPattern (withSeverity p s) filePath) with (skipPattern p filePath).
  change (Pattern.pattern (withSeverity p s)) with (Pattern.pattern p).
  destruct (skipPattern p filePath); [constructor|].
  destruct (execAll _ _) as [ms|]; [|exact I].
  cbn [sameFindings].
  change (filter (fun m => negb (skipMatch (withSeverity p s) filePath quiet lines i m)) ms)
    with (filter (fun m => negb (skipMatch p filePath quiet lines i m)) ms).
  induction (filter _ ms) as [|m l IH]; constructor; [|exact IH].
  unfold sameFinding, issueOf. cbn. repeat split; reflexivity.
Qed.

Lemma sameFindings_app a b c d :
  sameFindings a b -> sameFindings c d ->
  sameFindings (match a with
                | None => None
                | Some x => match c with None => None | Some y => Some (x ++ y) end
                end)
               (match b with
                | None => None
                | Some x => match d with None => None | Some y => Some (x ++ y) end
                end).
Proof.
  destruct a as [x|], b as [x'|]; cbn [sameFindings]; try tauto.
  destruct c as [y|], d as [y'|]; cbn [sameFindings]; try tauto.
  intros H1 H2. apply Forall2_app; assumption.
Qed.

Lemma collect_same_rules filePath quiet lines i : forall rules rules',
  Forall2 sameButSeverity rules rules' ->
  sameFindings (collect (fun p => patternIssues p filePath quiet lines i) rules)
               (collect (fun p => patternIssues p filePath quiet lines i) rules').
Proof.
  induction 1 as [|p q rules rules' Hpq _ IH]; [constructor|].
  cbn [collect]. apply sameFindings_app; [apply patternIssues_same; exact Hpq | exact IH].
Qed.

Lemma collect_same_lines (f g : nat -> option (list AISlopIssue)) l :
  (forall i, sameFindings (f i) (g i)) ->
  sameFindings (collect f l) (collect g l).
Proof.
  intros H. induction l as [|i l IH]; [constructor|].
  cbn [collect]. apply sameFindings_app; [apply H | exact IH].
Qed.

(** Rules that differ at most in severity find the same things. *)
Lemma analyzeLines_same rules rules' filePath quiet lines :
  Forall2 sameButSeverity rules rules' ->
  sameFindings (analyzeLines rules filePath quiet lines)
               (analyzeLines rules' filePath quiet lines).
Proof.
  intros H. unfold analyzeLines. apply collect_same_lines. intros i. unfold analyzeLine.
  pose proof (collect_same_rules filePath quiet lines i rules rules' H) as Hc.
  destruct (collect _ rules) as [a|], (collect _ rules') as [b|]; cbn [sameFindings] in *;
    try tauto.
  apply Forall2_app; [exact Hc | apply Forall2_same, sameFinding_refl].
Qed.

(** X23.  Severity overrides are labels only: a configuration without custom
    rules leaves every scan as it was but for the severities, issue by
    issue, in the same order; and the scan returns with it exactly when
    it did without. *)
Theorem severity_overrides_keep_findings :
  forall compileRegExp displayString d cfg filePath content quiet,
    elements (get cfg "customPatterns") = [] ->
    sameFindings
      (analyzeFile (registry d) filePath content quiet)
      (analyzeFile (registry (applyConfig compileRegExp displayString d cfg))
                   filePath content quiet).
Proof.
  intros compileRegExp displayString d cfg filePath content quiet Hnone.
  unfold analyzeFile. apply analyzeLines_same.
  pose proof (applyConfig_registry compileRegExp displayString d cfg) as H.
  rewrite Hnone in H. cbn [map] in H. rewrite app_nil_r in H. exact H.
Qed.

Lemma severity_overrides_keep_findings_witness :
  let compileRegExp := fun src : string => Some (lit src) in
  let displayString := fun _ : value => EmptyString in
  let cfg := JObject [("severityOverrides", JObject [("any_type_usage", JString "low")])] in
  sameFindings
    (analyzeFile (registry initialDetector) "src/app.ts" "const x: any = 1;" false)
    (analyzeFile (registry (applyConfig compileRegExp displayString initialDetector cfg))
                 "src/app.ts" "const x: any = 1;" false).
Proof.
  intros compileRegExp displayString cfg.
  apply (severity_overrides_keep_findings compileRegExp displayString initialDetector cfg).
  reflexivity.
Defined.

Lemma analyzeLines_more_rules rules more filePath quiet lines a b :
  analyzeLines rules filePath quiet lines = Some a ->
  analyzeLines (rules ++ more) filePath quiet lines = Some b ->
  incl a b.
Proof.
  intros Ha Hb x Hx.
  destruct (analyzeLines_issue_origin _ _ _ _ _ _ Ha Hx) as (i & Hi & [Hrule|Hnest]).
  - destruct Hrule as (p & ms & m & Hp & Hs & Hex & Hm & Hk & ->).
    apply (analyzeLines_reports _ _ _ _ _ i p ms m Hb); auto.
    apply in_or_app. left. exact Hp.
  - assert (Hf : In x (filter isNestedControl b)).
    { rewrite (analyzeLines_nested _ _ _ _ _ Hb). unfold nestedFindings.
      apply in_flat_map. exists i. split; [apply in_seq; lia | exact Hnest]. }
    apply filter_In in Hf as [Hf _]. exact Hf.
Qed.

Lemma Forall2_In_left {A B} (R : A -> B -> Prop) l1 l2 a :
  Forall2 R l1 l2 -> In a l1 -> exists b, In b l2 /\ R a b.
Proof.
  induction 1 as [|x y l1 l2 Hxy _ IH]; intros Hin; [destruct Hin|].
  destruct Hin as [->|Hin].
  - exists y. split; [left; reflexivity | exact Hxy].
  - destruct (IH Hin) as (b & Hb & Hr). exists b. split; [right; exact Hb | exact Hr].
Qed.

(** X24.  A configuration never hides a finding: whatever it adds and
    relabels, each issue the scan found before is found after, at the
    same place and with the same text, at most under another
    severity. *)
Theorem config_never_hides_a_finding :
  forall compileRegExp displayString d cfg filePath content quiet before after issue,
    analyzeFile (registry d) filePath content quiet = Some before ->
    analyzeFile (registry (applyConfig compileRegExp displayString d cfg))
                filePath content quiet = Some after ->
    In issue before ->
    exists issue', In issue' after /\ sameFinding issue issue'.
Proof.
  intros compileRegExp displayString d cfg filePath content quiet before after issue.
  unfold analyzeFile. intros Hb Ha Hin.
  pose proof (analyzeLines_same _ _ filePath quiet (splitLines content)
                (applyConfig_registry compileRegExp displayString d cfg)) as Hsame.
  rewrite Ha in Hsame.
  destruct (analyzeLines (registry d ++ _) filePath quiet (splitLines content))
    as [middle|] eqn:Hm; [|destruct Hsame].
  cbn [sameFindings] in Hsame.
  apply (Forall2_In_left _ _ _ issue Hsame).
  exact (analyzeLines_more_rules _ _ _ _ _ _ _ Hb Hm issue Hin).
Qed.

Lemma config_never_hides_a_finding_witness :
  let compileRegExp := fun src : string => Some (lit src) in
  let displayString := fun _ : value => EmptyString in
  let rule := JObject [("id", JString "no_alert"); ("pattern", JString "alert");
                       ("message", JString "No alert"); ("severity", JString "low")] in
  let cfg := JObject [("customPatterns", JArray [rule]);
                      ("severityOverrides", JObject [("any_type_usage", JString "low")])] in
  let content := "const x: any = 1; alert(x);" in
  let before := issuesOrNone (analyzeFile (registry initialDetector) "src/app.ts" content false) in
  let after :=
    issuesOrNone (analyzeFile (registry (applyConfig compileRegExp displayString
                                                     initialDetector cfg))
                              "src/app.ts" content false) in
  exists issue',
    In issue' after /\ sameFinding (nth 0 before (Issue.mk EmptyString EmptyString 0 0 EmptyString EmptyString low)) issue'.
Proof.
  intros compileRegExp displayString rule cfg content before after.
  apply (config_never_hides_a_finding compileRegExp displayString initialDetector cfg
           "src/app.ts" content false before after).
  - vm_compute. reflexivity.
  - vm_compute. reflexivity.
  - vm_compute. left. reflexivity.
Defined.

(** X25.  Validation does not look at what a pattern matches.  A custom rule
    whose pattern can match the empty string (as [x*] or [x?]) passes
    it, and once the configuration is loaded no scan of any file
    returns: custom rules are never skipped for test or mock files. *)
Theorem accepted_config_can_stall_every_scan :
  forall compileRegExp displayString d cfg rule src r filePath content quiet,
    validateConfig compileRegExp cfg = Returned cfg ->
    In rule (elements (get cfg "customPatterns")) ->
    get rule "pattern" = Some (JString src) ->
    compileRegExp src = Some r ->
    matchesEmptyAtEnd (mkRegExp r true) ->
    get rule "id" <> Some (JString "complex_nested_conditionals") ->
    analyzeFile (registry (loadConfig compileRegExp displayString d [Parsed cfg]))
                filePath content quiet = None.
Proof.
  intros compileRegExp displayString d cfg rule src r filePath content quiet
         Hv Hin Hpat Hr Hend Hid.
  cbn [loadConfig]. rewrite Hv.
  destruct (validateConfig_accepts compileRegExp cfg cfg Hv) as (Hrules & _ & _).
  rewrite Forall_forall in Hrules.
  destruct (Hrules rule Hin) as (id & src' & msg & sev & r' & Hgid & Hne & Hgsrc & _).
  assert (Hcustom : In (customRule compileRegExp displayString rule)
                       (registry d ++ map (customRule compileRegExp displayString)
                                          (elements (get cfg "customPatterns")))).
  { apply in_or_app. right. apply in_map. exact Hin. }
  destruct (Forall2_In_left _ _ _ _ (applyConfig_registry compileRegExp displayString d cfg)
                            Hcustom) as (q & Hq & [s ->]).
  unfold analyzeFile.
  apply (analyzeLines_never_returns _ (withSeverity (customRule compileRegExp displayString rule) s)).
  - exact Hq.
  - unfold skipPattern, idIs, withSeverity, customRule. cbn.
    rewrite Hgid. cbn. destruct (String.eqb id "complex_nested_conditionals") eqn:E;
      [|reflexivity].
    apply String.eqb_eq in E. subst id. destruct (Hid Hgid).
  - unfold withSeverity, customRule. cbn [Pattern.pattern].
    rewrite Hpat. cbn [textOf]. rewrite Hr. exact Hend.
  - apply splitLines_length.
Qed.

Lemma accepted_config_can_stall_every_scan_witness :
  let compileRegExp := fun src : string =>
    if String.eqb src "x*" then Some (star (Char "x")) else Some (lit src) in
  let displayString := fun _ : value => EmptyString in
  let rule := JObject [("id", JString "no_x"); ("pattern", JString "x*");
                       ("message", JString "No x"); ("severity", JString "low")] in
  let cfg := JObject [("customPatterns", JArray [rule])] in
  analyzeFile (registry (loadConfig compileRegExp displayString initialDetector [Parsed cfg]))
              "src/app.ts" "const y = 1;" false = None.
Proof.
  intros compileRegExp displayString rule cfg.
  apply (accepted_config_can_stall_every_scan compileRegExp displayString initialDetector
           cfg rule "x*" (star (Char "x"))).
  - vm_compute. reflexivity.
  - left. reflexivity.
  - reflexivity.
  - reflexivity.
  - apply optional_matches_empty_at_end.
  - discriminate.
Defined.

(** X26.  The ignore paths of a configuration are validated and stored, and
    nothing reads them afterwards: two accepted configurations with the
    same custom rules and overrides give the same registry, hence the
    same run over the same files. *)
Theorem ignore_paths_change_no_run :
  forall compileRegExp displayString d cfg cfg',
    validateConfig compileRegExp cfg = Returned cfg ->
    validateConfig compileRegExp cfg' = Returned cfg' ->
    get cfg "customPatterns" = get cfg' "customPatterns" ->
    get cfg "severityOverrides" = get cfg' "severityOverrides" ->
    registry (loadConfig compileRegExp displayString d [Parsed cfg]) =
    registry (loadConfig compileRegExp displayString d [Parsed cfg']) /\
    forall globSync relative readFile quiet,
      detect globSync relative readFile
             (registry (loadConfig compileRegExp displayString d [Parsed cfg])) quiet =
      detect globSync relative readFile
             (registry (loadConfig compileRegExp displayString d [Parsed cfg'])) quiet.
Proof.
  intros compileRegExp displayString d cfg cfg' Hv Hv' Hc Ho.
  assert (Hreg : registry (loadConfig compileRegExp displayString d [Parsed cfg]) =
                 registry (loadConfig compileRegExp displayString d [Parsed cfg'])).
  { cbn [loadConfig]. rewrite Hv, Hv'. unfold applyConfig. cbv zeta. cbn [registry].
    rewrite Hc, Ho. reflexivity. }
  split; [exact Hreg|]. intros. rewrite Hreg. reflexivity.
Qed.

Lemma ignore_paths_change_no_run_witness :
  let compileRegExp := fun src : string => Some (lit src) in
  let displayString := fun _ : value => EmptyString in
  let overrides := ("severityOverrides", JObject [("any_type_usage", JString "low")]) in
  let cfg := JObject [overrides; ("ignorePaths", JArray [JString "legacy/"])] in
  let cfg' := JObject [overrides] in
  registry (loadConfig compileRegExp displayString initialDetector [Parsed cfg]) =
  registry (loadConfig compileRegExp displayString initialDetector [Parsed cfg']) /\
  forall globSync relative readFile quiet,
    detect globSync relative readFile
           (registry (loadConfig compileRegExp displayString initialDetector [Parsed cfg]))
           quiet =
    detect globSync relative readFile
           (registry (loadConfig compileRegExp displayString initialDetector [Parsed cfg']))
           quiet.
Proof.
  intros compileRegExp displayString overrides cfg cfg'.
  apply (ignore_paths_change_no_run compileRegExp displayString initialDetector cfg cfg');
    reflexivity.
Defined.

(** ** Counting braces *)

Lemma matchLoop_char c : forall inp fuel p i,
  length inp < fuel ->
  length (matchLoop fuel false (Char c) p inp i) = count_occ ascii_dec inp c.
Proof.
  induction inp as [|ch tl IH]; intros fuel p i Hlt;
    (destruct fuel as [|fuel]; [lia|]); rewrite matchLoop_S.
  - reflexivity.
  - cbn [searchFrom matcher charMatcher rest canonicalize].
    destruct (Ascii.eqb c ch) eqn:E.
    + apply Ascii.eqb_eq in E. subst ch.
      cbn [advance endIndex rest prev]. rewrite (proj2 (Nat.eqb_neq (S i) i)) by lia.
      cbn [length count_occ]. destruct (ascii_dec c c) as [_|N]; [|destruct (N eq_refl)].
      f_equal. apply IH. simpl in Hlt. lia.
    + cbn [count_occ]. destruct (ascii_dec ch c) as [->|_];
        [rewrite Ascii.eqb_refl in E; discriminate|].
      rewrite <- (IH (S fuel) (Some ch) (S i)) by (simpl in Hlt; lia).
      rewrite matchLoop_S. reflexivity.
Qed.

Lemma countMatches_char c line :
  countMatches line (mkRegExp (Char c) false) = count_occ ascii_dec (list_ascii_of_string line) c.
Proof.
  unfold countMatches, stringMatch. cbv zeta. cbn [ignoreCase source].
  rewrite <- (matchLoop_char c (list_ascii_of_string line)
                (S (length (list_ascii_of_string line))) None 0) by lia.
  destruct (matchLoop _ _ _ _ _ _); reflexivity.
Qed.

(** X27.  The brace counts of the enclosure test are character counts: every
    [{] and [}] of the line counts, those inside strings and comments
    included. *)
Theorem brace_counts_are_character_counts :
  forall line,
    openBraces line = count_occ ascii_dec (list_ascii_of_string line) "{"%char /\
    closeBraces line = count_occ ascii_dec (list_ascii_of_string line) "}"%char.
Proof.
  intros line. unfold openBraces, closeBraces. split; apply countMatches_char.
Qed.
